(** * Capture harness (capture_hard.py): in-page hooks and session driver

    A shallow embedding of the capture script: the JavaScript hooks of
    [INJECT_JS] that run inside the page, the network observer
    [on_response], and the session driver [main] with its polling loop and
    artifact writes.  Byte strings are [string]; Python and JavaScript
    values that travel through the harness are JSON values. *)

From Stdlib Require Import String Ascii List ZArith Lia Bool Arith.
From Stdlib Require Import DecimalString DecimalNat Permutation.
Import ListNotations.
Local Open Scope string_scope.
Local Open Scope nat_scope.
Set Warnings "-register-all".

Set Implicit Arguments.

(* ================================================================== *)
(** ** Text helpers *)

Module Text.

(** [str.lower()] / [toLowerCase()] on ASCII text. *)
Definition lower_char (c : ascii) : ascii :=
  let n := nat_of_ascii c in
  if ((65 <=? n)%nat && (n <=? 90)%nat) then ascii_of_nat (n + 32) else c.

Fixpoint lower (s : string) : string :=
  match s with
  | EmptyString => EmptyString
  | String c r => String (lower_char c) (lower r)
  end.

(** [needle in hay] / [hay.includes(needle)]. *)
Fixpoint includes (needle hay : string) : bool :=
  if prefix needle hay then true
  else match hay with
       | EmptyString => false
       | String _ r => includes needle r
       end.

(** [s.endswith(suffix)]. *)
Fixpoint endswith (suffix s : string) : bool :=
  if String.eqb suffix s then true
  else match s with
       | EmptyString => false
       | String _ r => endswith suffix r
       end.

(** A value that is truthy as a string: non-empty. *)
Definition nonempty (s : string) : bool :=
  match s with EmptyString => false | String _ _ => true end.

(** [x or ''] for a possibly missing header. *)
Definition or_empty (o : option string) : string :=
  match o with Some s => s | None => EmptyString end.

(** The double-quote character as a one-character string. *)
Definition dq : string := String (ascii_of_nat 34) EmptyString.

(** [f"{i:02d}"]. *)
Definition decimal (n : nat) : string :=
  NilEmpty.string_of_uint (Nat.to_uint n).

Definition two_digits (i : nat) : string :=
  if (i <? 10)%nat then "0" ++ decimal i else decimal i.

End Text.

(* ================================================================== *)
(** ** JSON values *)

Inductive JValue : Type :=
| JNull
| JBool (b : bool)
| JNum (z : Z)
| JStr (s : string)
| JArr (items : list JValue)
| JObj (members : list (string * JValue)).

(** One entry of the json channel / of the network log:
    [{ src, url, body }]. *)
Record Entry : Type := mkEntry {
  src : string;
  url : string;
  body : JValue
}.

(** [out && typeof out === 'object']: arrays and objects; [null] is falsy. *)
Definition object_shaped (v : JValue) : bool :=
  match v with
  | JArr _ | JObj _ => true
  | _ => false
  end.

(* ------------------------------------------------------------------ *)
(** *** A reference decoder

    The hooks and the observer are stated over an arbitrary decoder (the
    runtime's [JSON.parse], Python's [json.loads]).  To run the model on
    concrete texts we use this recursive-descent decoder for the fragment
    of JSON with integer numbers and strings without escapes. *)

Module RefJson.

Definition is_ws (c : ascii) : bool :=
  let n := nat_of_ascii c in
  (n =? 32) || (n =? 9) || (n =? 10) || (n =? 13).

Definition is_digit (c : ascii) : bool :=
  let n := nat_of_ascii c in ((48 <=? n)%nat && (n <=? 57)%nat).

Fixpoint skip_ws (s : string) : string :=
  match s with
  | String c r => if is_ws c then skip_ws r else s
  | EmptyString => s
  end.

Fixpoint digits (acc : Z) (s : string) : Z * string :=
  match s with
  | String c r =>
      if is_digit c
      then digits (10 * acc + Z.of_nat (nat_of_ascii c - 48))%Z r
      else (acc, s)
  | EmptyString => (acc, s)
  end.

(** Characters up to the closing quote; control characters and
    backslash escapes are outside the fragment. *)
Fixpoint string_body (s : string) : option (string * string) :=
  match s with
  | EmptyString => None
  | String c r =>
      let n := nat_of_ascii c in
      if n =? 34 then Some (EmptyString, r)
      else if ((n =? 92)%nat || (n <? 32)%nat) then None
      else match string_body r with
           | Some (t, r') => Some (String c t, r')
           | None => None
           end
  end.

Definition number (s : string) : option (JValue * string) :=
  match s with
  | String c r =>
      if is_digit c then
        match r with
        | String d _ =>
            if (nat_of_ascii c =? 48) && is_digit d then None
            else let (n, r') := digits 0 s in Some (JNum n, r')
        | EmptyString => let (n, r') := digits 0 s in Some (JNum n, r')
        end
      else None
  | EmptyString => None
  end.

Definition literal (s : string) : option (JValue * string) :=
  if prefix "true" s then Some (JBool true, substring 4 (String.length s - 4) s)
  else if prefix "false" s then Some (JBool false, substring 5 (String.length s - 5) s)
  else if prefix "null" s then Some (JNull, substring 4 (String.length s - 4) s)
  else None.

Fixpoint value (fuel : nat) (s : string) : option (JValue * string) :=
  match fuel with
  | O => None
  | S f =>
      match skip_ws s with
      | EmptyString => None
      | String c r =>
          let n := nat_of_ascii c in
          if n =? 123 then
            match skip_ws r with
            | String c' r' =>
                if nat_of_ascii c' =? 125 then Some (JObj [], r')
                else members f (String c' r') []
            | EmptyString => None
            end
          else if n =? 91 then
            match skip_ws r with
            | String c' r' =>
                if nat_of_ascii c' =? 93 then Some (JArr [], r')
                else elements f (String c' r') []
            | EmptyString => None
            end
          else if n =? 34 then
            match string_body r with
            | Some (t, r') => Some (JStr t, r')
            | None => None
            end
          else if n =? 45 then
            match number r with
            | Some (JNum z, r') => Some (JNum (- z)%Z, r')
            | _ => None
            end
          else if is_digit c then number (String c r)
          else literal (String c r)
      end
  end

with elements (fuel : nat) (s : string) (acc : list JValue)
  : option (JValue * string) :=
  match fuel with
  | O => None
  | S f =>
      match value f s with
      | Some (v, r) =>
          match skip_ws r with
          | String c r' =>
              if nat_of_ascii c =? 44 then elements f r' (v :: acc)
              else if nat_of_ascii c =? 93 then Some (JArr (rev (v :: acc)), r')
              else None
          | EmptyString => None
          end
      | None => None
      end
  end

with members (fuel : nat) (s : string) (acc : list (string * JValue))
  : option (JValue * string) :=
  match fuel with
  | O => None
  | S f =>
      match skip_ws s with
      | String q r =>
          if nat_of_ascii q =? 34 then
            match string_body r with
            | Some (k, r1) =>
                match skip_ws r1 with
                | String colon r2 =>
                    if nat_of_ascii colon =? 58 then
                      match value f r2 with
                      | Some (v, r3) =>
                          match skip_ws r3 with
                          | String c r4 =>
                              if nat_of_ascii c =? 44
                              then members f r4 ((k, v) :: acc)
                              else if nat_of_ascii c =? 125
                              then Some (JObj (rev ((k, v) :: acc)), r4)
                              else None
                          | EmptyString => None
                          end
                      | None => None
                      end
                    else None
                | EmptyString => None
                end
            | None => None
            end
          else None
      | EmptyString => None
      end
  end.

Definition decode (s : string) : option JValue :=
  match value (2 * String.length s + 2) s with
  | Some (v, r) =>
      match skip_ws r with
      | EmptyString => Some v
      | String _ _ => None
      end
  | None => None
  end.

End RefJson.

(* ================================================================== *)
(** ** The in-page hooks of [INJECT_JS] *)

Module Page.

(** [window.__CAPTURE__]. *)
Record Capture : Type := mkCapture {
  json : list Entry;
  charts : list JValue;
  canvasText : list JValue;
  storage_local : list (string * string);
  storage_session : list (string * string)
}.

Definition empty_capture : Capture := mkCapture [] [] [] [] [].

(** [window.__CAPTURE__.json.push(e)]. *)
Definition push_json (e : Entry) (c : Capture) : Capture :=
  mkCapture (json c ++ [e]) (charts c) (canvasText c)
            (storage_local c) (storage_session c).

(** What the page's script sees of a [Response]: its URL, its
    content-type header if any, and the text of its body. *)
Record Response : Type := mkResponse {
  res_url : string;
  res_content_type : option string;
  res_text : string
}.

(** The promise returned by the native [fetch], once settled. *)
Inductive Settled : Type :=
| Fulfilled (res : Response)
| Rejected (reason : string).

(** An [XMLHttpRequest] at a [load] event.  Reading [responseText]
    throws unless [responseType] is the empty string or ["text"];
    [None] is that throw.  Every call of the replaced [send] has added
    one more [load] listener to the object. *)
Record Xhr : Type := mkXhr {
  xhr_url : option string;            (* this.__url *)
  xhr_content_type : option string;   (* getResponseHeader('content-type') *)
  responseText : option string;
  xhr_sends : nat                     (* calls of send on it so far *)
}.

(** [(header || '').toLowerCase().includes('application/json')]. *)
Definition json_content_type (header : option string) : bool :=
  Text.includes "application/json" (Text.lower (Text.or_empty header)).

(** [txt && txt.includes('{') && txt.includes('}')]. *)
Definition fetch_text_guess (txt : string) : bool :=
  Text.nonempty txt && Text.includes "{" txt && Text.includes "}" txt.

(** [/\{[\s\S]*\}/.test(txt)]: an opening brace with a closing brace
    somewhere after it. *)
Fixpoint xhr_text_guess (txt : string) : bool :=
  match txt with
  | EmptyString => false
  | String c r =>
      if Ascii.eqb c "{"%char then Text.includes "}" r
      else xhr_text_guess r
  end.

(** Reactions queued on promises run later, one after the other, each
    on the capture bucket as the previous one left it. *)
Definition Job : Type := Capture -> Capture.

Record Runtime : Type := mkRuntime {
  capture : Capture;
  pending : list Job
}.

Definition enqueue (j : Job) (rt : Runtime) : Runtime :=
  mkRuntime (capture rt) (pending rt ++ [j]).

(** The bucket once every pending reaction has run. *)
Definition settle (rt : Runtime) : Capture :=
  fold_left (fun c j => j c) (pending rt) (capture rt).

Section Hooks.

(** The runtime's own decoder, [_parse.call(this, s, reviver)];
    [None] is a thrown [SyntaxError]. *)
Variable Reviver : Type.
Variable _parse : string -> option Reviver -> option JValue.

(** The replacement installed as [JSON.parse]: the decoder's result
    (or its exception) goes back to the caller; an object-shaped
    result is pushed first. *)
Definition JSON_parse (s : string) (reviver : option Reviver)
           (c : Capture) : option JValue * Capture :=
  match _parse s reviver with
  | None => (None, c)
  | Some out =>
      (Some out,
       if object_shaped out
       then push_json (mkEntry "JSON.parse" "inline" out) c
       else c)
  end.

(** [cloned.json().then(body => push ...).catch(() => {})]: the body
    is decoded by the runtime itself, not through [JSON.parse]. *)
Definition fetch_json_reaction (res : Response) : Job :=
  fun c =>
    match _parse (res_text res) None with
    | Some b => push_json (mkEntry "fetch" (res_url res) b) c
    | None => c
    end.

(** [cloned.text().then(txt => ...).catch(() => {})]; the call to
    [JSON.parse] inside resolves to the hooked one. *)
Definition fetch_text_reaction (res : Response) : Job :=
  fun c =>
    let txt := res_text res in
    if fetch_text_guess txt then
      match JSON_parse txt None c with
      | (Some guess, c') =>
          push_json (mkEntry "fetch-text" (res_url res) guess) c'
      | (None, c') => c'
      end
    else c.

(** The replacement installed as [window.fetch]: awaits the native
    call, queues one reaction on a clone and returns the response. *)
Definition fetch (native : Settled) (rt : Runtime) : Settled * Runtime :=
  match native with
  | Rejected reason => (Rejected reason, rt)
  | Fulfilled res =>
      if json_content_type (res_content_type res)
      then (Fulfilled res, enqueue (fetch_json_reaction res) rt)
      else (Fulfilled res, enqueue (fetch_text_reaction res) rt)
  end.

(** The [load] listener added by the replacement of
    [XMLHttpRequest.prototype.send].  In the JSON branch the read of
    [responseText] sits in the inner [try]; in the other branch a
    throw leaves through the outer one. *)
Definition xhr_listener (x : Xhr) (c : Capture) : Capture :=
  let u := Text.or_empty (xhr_url x) in
  if json_content_type (xhr_content_type x) then
    match responseText x with
    | None => c
    | Some body =>
        match JSON_parse body None c with
        | (Some b, c') => push_json (mkEntry "xhr" u b) c'
        | (None, c') => c'
        end
    end
  else
    match responseText x with
    | None => c
    | Some txt =>
        if xhr_text_guess txt then
          match JSON_parse txt None c with
          | (Some guess, c') => push_json (mkEntry "xhr-text" u guess) c'
          | (None, c') => c'
          end
        else c
    end.

(** The listeners of an object run one after the other. *)
Fixpoint run_listeners (n : nat) (listener : Capture -> Capture)
         (c : Capture) : Capture :=
  match n with
  | 0 => c
  | S k => run_listeners k listener (listener c)
  end.

(** A [load] event: one run of the listener per [send] so far. *)
Definition xhr_load (x : Xhr) (c : Capture) : Capture :=
  run_listeners (xhr_sends x) (xhr_listener x) c.

End Hooks.

(** The reference decoder in the place of the runtime's. *)
Definition ref_parse (s : string) (_ : option unit) : option JValue :=
  RefJson.decode s.

Definition fresh : Runtime := mkRuntime empty_capture [].

End Page.

(** The source tags the data model enumerates. *)
Definition spec_source_tags : list string :=
  ["fetch"; "fetch-text"; "xhr"; "xhr-text"; "inline"; "network"; "network-text"].

(** "The text contains a balanced brace pair": an opening brace and,
    after it, a closing brace. *)
Definition spec_brace_pair (txt : string) : Prop :=
  exists pre mid post, txt = pre ++ "{" ++ mid ++ "}" ++ post.


(* ================================================================== *)
(** ** The session driver [main] *)

Module Session.

(** *** What a call into the outside world can do *)

Inductive Exn : Type :=
| TimeoutError
| PlaywrightError (msg : string)
| OSError (msg : string).

Inductive Result (A : Type) : Type :=
| Ok (a : A)
| Raise (e : Exn).
Arguments Ok {A} a.
Arguments Raise {A} e.

(** A request as the [request] listener sees it. *)
Record Request : Type := mkRequest {
  rq_method : string;
  rq_url : string;
  rq_resource_type : string
}.

(** A response as the [response] listener sees it; [nr_text = None]
    when [res.text()] raises. *)
Record NetResponse : Type := mkNetResponse {
  nr_url : string;
  nr_content_type : option string;
  nr_text : option string
}.

(** Listeners run while the driver is inside a Playwright call; the
    request event carries the reading of [now_iso()] at that moment. *)
Inductive NetEvent : Type :=
| OnRequest (now : string) (r : Request)
| OnResponse (r : NetResponse).

Record Outcome (A : Type) : Type := mkOutcome {
  events : list NetEvent;
  result : Result A
}.

Definition Dict : Type := list (string * string).

(** The expressions handed to [page.evaluate]. *)
Inductive Expr : Type :=
| EScroll | EResize
| ECharts | EJson | ECanvasText
| ELocalStorage | ESessionStorage.

Record Counts : Type := mkCounts {
  count_req : nat;
  count_json : nat;
  count_chartConfigs : nat;
  count_canvasText : nat;
  count_localStorageKeys : nat;
  count_sessionStorageKeys : nat
}.

Record Summary : Type := mkSummary {
  summary_url : string;
  summary_timestamp : string;
  summary_duration_sec : Z;      (* hundredths of a second *)
  counts : Counts
}.

(** What ends up in a file of [captures/]. *)
Inductive Artifact : Type :=
| FPayload (e : Entry)
| FChart (v : JValue)
| FCanvasText (l : list JValue)
| FStorage (d : Dict)
| FHtml (markup : string)
| FScreenshot
| FTrace
| FSummary (s : Summary).

(** The effects of [main], in program order. *)
Inductive Action : Type :=
| ALaunchBrowser | ALaunchContext | AAddInitScript | ATracingStart
| ANewPage
| AGoto
| APrintLoaded
| ASleep (ms : Z)
| AEvaluate (e : Expr)
| AWaitForTimeout (ms : Z)
| AWriteText (path : string)
| APageContent
| AScreenshot
| ATracingStop
| APrintSummary (s : Summary)
| ACtxClose
| ABrowserClose
| APlaywrightExit.

(** Everything outside the script: the URL argument, and what each call
    answers.  Polling reads and pulses are indexed by their iteration,
    file writes by the file's name. *)
Record Env : Type := mkEnv {
  URL : string;
  env_launch : Result unit;
  env_launch_context : Result unit;
  env_add_init_script : Result unit;
  env_tracing_start : Result unit;
  env_new_page : Result unit;
  env_goto : Outcome unit;
  env_scroll : nat -> Outcome unit;
  env_wait : nat -> Outcome unit;
  env_resize : nat -> Outcome unit;
  env_charts : nat -> Outcome (list JValue);
  env_json : nat -> Outcome (list Entry);
  env_canvas_text : Outcome (list JValue);
  env_local_storage : Outcome Dict;
  env_session_storage : Outcome Dict;
  env_write_text : string -> Result unit;
  env_content : Outcome string;
  env_screenshot : Outcome unit;
  env_tracing_stop : Outcome unit;
  env_ctx_close : Outcome unit;
  env_browser_close : Outcome unit;
  env_duration : Z;
  env_timestamp : string
}.

Record RequestLogEntry : Type := mkRequestLogEntry {
  rl_time : string;
  rl_method : string;
  rl_url : string;
  rl_type : string
}.

(** The driver's mutable state: the two lists the listeners append to,
    and the files written so far, oldest first. *)
Record St : Type := mkSt {
  req_log : list RequestLogEntry;
  json_payloads : list Entry;
  files : list (string * Artifact)
}.

Definition init : St := mkSt [] [] [].

(** *** Computations: state, exceptions and a trace of effects *)

Record Run (A : Type) : Type := mkRun {
  outcome : Result A;
  final : St;
  trace : list Action
}.

Definition M (A : Type) : Type := St -> Run A.

Definition ret {A} (a : A) : M A := fun st => mkRun (Ok a) st [].

Definition bind {A B} (m : M A) (k : A -> M B) : M B :=
  fun st =>
    let r := m st in
    match outcome r with
    | Ok a =>
        let r' := k a (final r) in
        mkRun (outcome r') (final r') (trace r ++ trace r')
    | Raise e => mkRun (Raise e) (final r) (trace r)
    end.

(** [try: m  except Exception: ...]: the exception becomes a value. *)
Definition attempt {A} (m : M A) : M (Result A) :=
  fun st => let r := m st in mkRun (Ok (outcome r)) (final r) (trace r).

Definition raise {A} (e : Exn) : M A := fun st => mkRun (Raise e) st [].

Definition act (a : Action) : M unit := fun st => mkRun (Ok tt) st [a].

(** Reading one of the driver's variables. *)
Definition read {A} (var : St -> A) : M A :=
  fun st => mkRun (Ok (var st)) st [].

Definition add_file (path : string) (content : Artifact) : M unit :=
  fun st =>
    mkRun (Ok tt)
          (mkSt (req_log st) (json_payloads st) (files st ++ [(path, content)]))
          [].

Definition or_else {A} (r : Result A) (default : A) : A :=
  match r with Ok a => a | Raise _ => default end.

Definition nonempty {A} (l : list A) : bool :=
  match l with [] => false | _ :: _ => true end.

Declare Scope session_scope.
Delimit Scope session_scope with session.
Notation "x <- m ;; k" := (bind m (fun x => k))
  (at level 61, m at next level, right associativity) : session_scope.
Notation "m ;; k" := (bind m (fun _ => k))
  (at level 61, right associativity) : session_scope.
Local Open Scope session_scope.

Section Driver.

(** Python's [json.loads]; [None] is a raised [JSONDecodeError]. *)
Variable json_loads : string -> option JValue.

(** *** The listeners *)

(** [_on_request]. *)
Definition _on_request (now : string) (r : Request)
           (log : list RequestLogEntry) : list RequestLogEntry :=
  log ++ [mkRequestLogEntry now (rq_method r) (rq_url r) (rq_resource_type r)].

(** [res.json()]. *)
Definition res_json (res : NetResponse) : option JValue :=
  match nr_text res with
  | Some text => json_loads text
  | None => None
  end.

(** [on_response]: whatever is raised inside is swallowed. *)
Definition on_response (res : NetResponse) (json_payloads : list Entry)
  : list Entry :=
  let url := nr_url res in
  let ct := Text.lower (Text.or_empty (nr_content_type res)) in
  if Text.includes "application/json" ct then
    match res_json res with
    | Some body => json_payloads ++ [mkEntry "network" url body]
    | None => json_payloads
    end
  else if Text.endswith ".json" (Text.lower url)
          || Text.includes ".json?" (Text.lower url) then
    match nr_text res with
    | Some text =>
        let body := match json_loads text with
                    | Some b => b
                    | None => JStr text
                    end in
        json_payloads ++ [mkEntry "network-text" url body]
    | None => json_payloads
    end
  else json_payloads.

Definition deliver (st : St) (ev : NetEvent) : St :=
  match ev with
  | OnRequest now r =>
      mkSt (_on_request now r (req_log st)) (json_payloads st) (files st)
  | OnResponse res =>
      mkSt (req_log st) (on_response res (json_payloads st)) (files st)
  end.

Definition dispatch (evs : list NetEvent) (st : St) : St :=
  fold_left deliver evs st.

(** *** Calls *)

(** A Playwright call made before the listeners are registered. *)
Definition pw0 {A} (a : Action) (r : Result A) : M A :=
  fun st => mkRun r st [a].

(** A Playwright call made once the listeners are registered: the
    events that arrive during the call reach them. *)
Definition pw {A} (a : Action) (o : Outcome A) : M A :=
  fun st => mkRun (result o) (dispatch (events o) st) [a].

Variable env : Env.

(** [(OUT / path).write_text(...)]. *)
Definition write_text (path : string) (content : Artifact) : M unit :=
  act (AWriteText path) ;;
  match env_write_text env path with
  | Ok _ => add_file path content
  | Raise e => raise e
  end.

(** *** The phases of [main] *)

Definition setup : M unit :=
  pw0 ALaunchBrowser (env_launch env) ;;
  pw0 ALaunchContext (env_launch_context env) ;;
  pw0 AAddInitScript (env_add_init_script env) ;;
  pw0 ATracingStart (env_tracing_start env) ;;
  pw0 ANewPage (env_new_page env).

Definition navigate : M unit :=
  pw AGoto (env_goto env) ;;
  act APrintLoaded.

(** [for _ in range(8)]: the gentle pulses; [i] is the iteration. *)
Fixpoint pulses (n i : nat) : M unit :=
  match n with
  | O => ret tt
  | S n' =>
      act (ASleep 1250%Z) ;;
      attempt (pw (AEvaluate EScroll) (env_scroll env i) ;;
               pw (AWaitForTimeout 250%Z) (env_wait env i) ;;
               pw (AEvaluate EResize) (env_resize env i)) ;;
      pulses n' (S i)
  end.

(** [for _ in range(75)]: the polling loop, with the current values
    of [charts] and [injected_json]. *)
Fixpoint poll (n i : nat) (charts : list JValue) (injected_json : list Entry)
  : M (list JValue * list Entry) :=
  match n with
  | O => ret (charts, injected_json)
  | S n' =>
      rc <- attempt (pw (AEvaluate ECharts) (env_charts env i)) ;;
      match rc with
      | Raise _ =>
          act (ASleep 1000%Z) ;; poll n' (S i) charts injected_json
      | Ok charts' =>
          rj <- attempt (pw (AEvaluate EJson) (env_json env i)) ;;
          match rj with
          | Raise _ =>
              act (ASleep 1000%Z) ;; poll n' (S i) charts' injected_json
          | Ok injected_json' =>
              if nonempty charts' || nonempty injected_json'
              then ret (charts', injected_json')
              else act (ASleep 1000%Z) ;;
                   poll n' (S i) charts' injected_json'
          end
      end
  end.

(** The local variables alive after the reads. *)
Record Captured : Type := mkCaptured {
  charts : list JValue;
  injected_json : list Entry;
  canvas_text : list JValue;
  ls : Dict;
  ss : Dict
}.

Definition snapshots (polled : list JValue * list Entry) : M Captured :=
  rt <- attempt (pw (AEvaluate ECanvasText) (env_canvas_text env)) ;;
  rl <- attempt (pw (AEvaluate ELocalStorage) (env_local_storage env)) ;;
  rs <- attempt (pw (AEvaluate ESessionStorage) (env_session_storage env)) ;;
  ret (mkCaptured (fst polled) (snd polled)
                  (or_else rt []) (or_else rl []) (or_else rs [])).

(** The polling loop, then the snapshot reads. *)
Definition collect : M Captured :=
  polled <- poll 75 0 [] [] ;;
  snapshots polled.

Definition capture_phase : M Captured :=
  setup ;;
  navigate ;;
  pulses 8 0 ;;
  collect.

(** [for i, payload in enumerate(...)]: one numbered file each. *)
Fixpoint write_numbered {X} (stem : string) (mk : X -> Artifact)
         (i : nat) (l : list X) : M unit :=
  match l with
  | [] => ret tt
  | x :: r =>
      write_text (stem ++ Text.two_digits i ++ ".json") (mk x) ;;
      write_numbered stem mk (S i) r
  end.

Definition summary_of (req_log : list RequestLogEntry)
           (merged_json : list Entry) (c : Captured) : Summary :=
  mkSummary (URL env) (env_timestamp env) (env_duration env)
    (mkCounts (length req_log)
              (length merged_json)
              (length (charts c))
              (length (canvas_text c))
              (length (ls c))
              (length (ss c))).

(** From stopping the trace to the end of [main]. *)
Definition finish (merged_json : list Entry) (c : Captured) : M unit :=
  pw ATracingStop (env_tracing_stop env) ;;
  add_file "trace.zip" FTrace ;;
  logged <- read req_log ;;
  write_text "summary.json" (FSummary (summary_of logged merged_json c)) ;;
  act (APrintSummary (summary_of logged merged_json c)) ;;
  pw ACtxClose (env_ctx_close env) ;;
  pw ABrowserClose (env_browser_close env).

(** The two guarded artifacts. *)
Definition markup_and_screenshot : M unit :=
  attempt (html <- pw APageContent (env_content env) ;;
           write_text "page.html" (FHtml html)) ;;
  attempt (pw AScreenshot (env_screenshot env) ;;
           add_file "screenshot.png" FScreenshot) ;;
  ret tt.

Definition output_phase (c : Captured) : M unit :=
  payloads <- read json_payloads ;;
  let merged_json := (payloads ++ injected_json c)%list in
  write_numbered "xhr-" FPayload 0 merged_json ;;
  write_numbered "chart-" FChart 0 (charts c) ;;
  (if nonempty (canvas_text c)
   then write_text "canvas-text.json" (FCanvasText (canvas_text c))
   else ret tt) ;;
  write_text "storage-local.json" (FStorage (ls c)) ;;
  write_text "storage-session.json" (FStorage (ss c)) ;;
  markup_and_screenshot ;;
  finish merged_json c.

(** [with sync_playwright() as p: ...]: the manager's exit runs on
    every way out of the block. *)
Definition with_playwright {A} (block : M A) : M A :=
  fun st =>
    let r := block st in
    mkRun (outcome r) (final r) (trace r ++ [APlaywrightExit]).

Definition main : Run unit :=
  with_playwright (c <- capture_phase ;; output_phase c) init.

End Driver.

(** *** Environments that differ in one answer *)

(** [page.goto] answers [v]. *)
Definition with_goto (v : Outcome unit) (e : Env) : Env :=
  mkEnv (URL e) (env_launch e) (env_launch_context e)
        (env_add_init_script e) (env_tracing_start e) (env_new_page e) (v)
        (env_scroll e) (env_wait e) (env_resize e) (env_charts e)
        (env_json e) (env_canvas_text e) (env_local_storage e)
        (env_session_storage e) (env_write_text e) (env_content e)
        (env_screenshot e) (env_tracing_stop e) (env_ctx_close e)
        (env_browser_close e) (env_duration e) (env_timestamp e).

(** The reads of the charts channel answer [v]. *)
Definition with_charts (v : nat -> Outcome (list JValue)) (e : Env) : Env :=
  mkEnv (URL e) (env_launch e) (env_launch_context e)
        (env_add_init_script e) (env_tracing_start e) (env_new_page e)
        (env_goto e) (env_scroll e) (env_wait e) (env_resize e) (v)
        (env_json e) (env_canvas_text e) (env_local_storage e)
        (env_session_storage e) (env_write_text e) (env_content e)
        (env_screenshot e) (env_tracing_stop e) (env_ctx_close e)
        (env_browser_close e) (env_duration e) (env_timestamp e).

(** The reads of the json channel answer [v]. *)
Definition with_json (v : nat -> Outcome (list Entry)) (e : Env) : Env :=
  mkEnv (URL e) (env_launch e) (env_launch_context e)
        (env_add_init_script e) (env_tracing_start e) (env_new_page e)
        (env_goto e) (env_scroll e) (env_wait e) (env_resize e)
        (env_charts e) (v) (env_canvas_text e) (env_local_storage e)
        (env_session_storage e) (env_write_text e) (env_content e)
        (env_screenshot e) (env_tracing_stop e) (env_ctx_close e)
        (env_browser_close e) (env_duration e) (env_timestamp e).

(** The read of the canvasText channel answers [v]. *)
Definition with_canvas_text (v : Outcome (list JValue)) (e : Env) : Env :=
  mkEnv (URL e) (env_launch e) (env_launch_context e)
        (env_add_init_script e) (env_tracing_start e) (env_new_page e)
        (env_goto e) (env_scroll e) (env_wait e) (env_resize e)
        (env_charts e) (env_json e) (v) (env_local_storage e)
        (env_session_storage e) (env_write_text e) (env_content e)
        (env_screenshot e) (env_tracing_stop e) (env_ctx_close e)
        (env_browser_close e) (env_duration e) (env_timestamp e).

(** [write_text] answers [v]. *)
Definition with_write_text (v : string -> Result unit) (e : Env) : Env :=
  mkEnv (URL e) (env_launch e) (env_launch_context e)
        (env_add_init_script e) (env_tracing_start e) (env_new_page e)
        (env_goto e) (env_scroll e) (env_wait e) (env_resize e)
        (env_charts e) (env_json e) (env_canvas_text e)
        (env_local_storage e) (env_session_storage e) (v) (env_content e)
        (env_screenshot e) (env_tracing_stop e) (env_ctx_close e)
        (env_browser_close e) (env_duration e) (env_timestamp e).

(** [page.content()] ends as [v], with the same events. *)
Definition with_content_result (v : Result string) (e : Env) : Env :=
  mkEnv (URL e) (env_launch e) (env_launch_context e)
        (env_add_init_script e) (env_tracing_start e) (env_new_page e)
        (env_goto e) (env_scroll e) (env_wait e) (env_resize e)
        (env_charts e) (env_json e) (env_canvas_text e)
        (env_local_storage e) (env_session_storage e) (env_write_text e)
        (mkOutcome (events (env_content e)) v) (env_screenshot e)
        (env_tracing_stop e) (env_ctx_close e) (env_browser_close e)
        (env_duration e) (env_timestamp e).

(** [page.screenshot()] ends as [v], with the same events. *)
Definition with_screenshot_result (v : Result unit) (e : Env) : Env :=
  mkEnv (URL e) (env_launch e) (env_launch_context e)
        (env_add_init_script e) (env_tracing_start e) (env_new_page e)
        (env_goto e) (env_scroll e) (env_wait e) (env_resize e)
        (env_charts e) (env_json e) (env_canvas_text e)
        (env_local_storage e) (env_session_storage e) (env_write_text e)
        (env_content e) (mkOutcome (events (env_screenshot e)) v)
        (env_tracing_stop e) (env_ctx_close e) (env_browser_close e)
        (env_duration e) (env_timestamp e).

(** [ctx.tracing.stop] answers [v]. *)
Definition with_tracing_stop (v : Outcome unit) (e : Env) : Env :=
  mkEnv (URL e) (env_launch e) (env_launch_context e)
        (env_add_init_script e) (env_tracing_start e) (env_new_page e)
        (env_goto e) (env_scroll e) (env_wait e) (env_resize e)
        (env_charts e) (env_json e) (env_canvas_text e)
        (env_local_storage e) (env_session_storage e) (env_write_text e)
        (env_content e) (env_screenshot e) (v) (env_ctx_close e)
        (env_browser_close e) (env_duration e) (env_timestamp e).

(** The write of [page.html] ends as [v]. *)
Definition with_markup_write (v : Result unit) (e : Env) : Env :=
  mkEnv (URL e) (env_launch e) (env_launch_context e)
        (env_add_init_script e) (env_tracing_start e) (env_new_page e)
        (env_goto e) (env_scroll e) (env_wait e) (env_resize e)
        (env_charts e) (env_json e) (env_canvas_text e)
        (env_local_storage e) (env_session_storage e)
        (fun path => if String.eqb path "page.html" then v else env_write_text e path)
        (env_content e) (env_screenshot e) (env_tracing_stop e)
        (env_ctx_close e) (env_browser_close e) (env_duration e)
        (env_timestamp e).

(** The three ways the guarded artifacts can go: what [page.content()]
    answers, how the write of [page.html] ends, what [page.screenshot()]
    answers. *)
Definition degrade (markup : Result string) (markup_write : Result unit)
           (shot : Result unit) (e : Env) : Env :=
  with_screenshot_result shot
    (with_markup_write markup_write (with_content_result markup e)).

Definition quiet {A} (a : A) : Outcome A := mkOutcome [] (Ok a).

(** A session in which every call succeeds, the network is silent and
    the page never shows anything. *)
Definition calm : Env :=
  mkEnv "https://report.example/#/Report?id=1" (Ok tt) (Ok tt) (Ok tt) (Ok tt) (Ok tt)
        (quiet tt) (fun _ => quiet tt) (fun _ => quiet tt) (fun _ => quiet tt)
        (fun _ => quiet []) (fun _ => quiet []) (quiet []) (quiet []) (quiet [])
        (fun _ => Ok tt) (quiet "<html></html>") (quiet tt) (quiet tt)
        (quiet tt) (quiet tt) 8525%Z "2025-01-01T00:00:00Z".

End Session.

(* ================================================================== *)
(** ** Observations on traces and files *)

Module Observe.
Import Session.

Definition Expr_eqb (a b : Expr) : bool :=
  match a, b with
  | EScroll, EScroll | EResize, EResize | ECharts, ECharts
  | EJson, EJson | ECanvasText, ECanvasText
  | ELocalStorage, ELocalStorage | ESessionStorage, ESessionStorage => true
  | _, _ => false
  end.

(** [page.evaluate] of the expression [e]. *)
Definition is_eval (e : Expr) (a : Action) : bool :=
  match a with
  | AEvaluate e' => Expr_eqb e e'
  | _ => false
  end.

(** The calls that give the session back: stopping the trace, closing
    the context, closing the browser. *)
Definition is_teardown (a : Action) : bool :=
  match a with
  | ATracingStop | ACtxClose | ABrowserClose => true
  | _ => false
  end.


(** The attempt to write the file [path]. *)
Definition is_write (path : string) (a : Action) : bool :=
  match a with
  | AWriteText p => String.eqb p path
  | _ => false
  end.

(** What [main] does before it writes its first file. *)
Definition before_output (a : Action) : bool :=
  match a with
  | ALaunchBrowser | ALaunchContext | AAddInitScript | ATracingStart
  | ANewPage | AGoto | APrintLoaded | ASleep _ | AEvaluate _
  | AWaitForTimeout _ => true
  | _ => false
  end.

Definition count (P : Action -> bool) (t : list Action) : nat :=
  length (filter P t).

(** Milliseconds spent in [time.sleep]. *)
Fixpoint slept (t : list Action) : Z :=
  match t with
  | [] => 0%Z
  | ASleep ms :: r => (ms + slept r)%Z
  | _ :: r => slept r
  end.

(** The files of a given name among those written. *)
Definition named (path : string) (fs : list (string * Artifact))
  : list (string * Artifact) :=
  filter (fun f => String.eqb (fst f) path) fs.

(** The artifacts other than the page markup and the screenshot. *)
Definition unguarded (fs : list (string * Artifact))
  : list (string * Artifact) :=
  filter (fun f => negb (String.eqb (fst f) "page.html"
                         || String.eqb (fst f) "screenshot.png")) fs.

(** The numbered files [stem-ii.json] for the items of [l], from [i]. *)
Fixpoint numbered {X} (stem : string) (mk : X -> Artifact) (i : nat)
         (l : list X) : list (string * Artifact) :=
  match l with
  | [] => []
  | x :: r =>
      (stem ++ Text.two_digits i ++ ".json", mk x) :: numbered stem mk (S i) r
  end.

(** The page markup and the screenshot, as far as they get written. *)
Definition guarded_files (env : Env) : list (string * Artifact) :=
  (match result (env_content env), env_write_text env "page.html" with
   | Ok html, Ok _ => [("page.html", FHtml html)]
   | _, _ => []
   end
   ++ match result (env_screenshot env) with
      | Ok _ => [("screenshot.png", FScreenshot)]
      | Raise _ => []
      end)%list.

(** The state with some more files written. *)
Definition add_files (fs : list (string * Artifact)) (st : St) : St :=
  mkSt (req_log st) (json_payloads st) (files st ++ fs).

(** The request log as [main] finds it when it builds the summary: the
    listeners have also run during [page.content()],
    [page.screenshot()] and [ctx.tracing.stop()]. *)
Definition log_at_summary (json_loads : string -> option JValue)
           (env : Env) (st : St) : list RequestLogEntry :=
  req_log
    (dispatch json_loads (events (env_tracing_stop env))
       (dispatch json_loads (events (env_screenshot env))
          (dispatch json_loads (events (env_content env)) st))).

(** The files of a session that ran to its end, in the order written:
    [c] are the captured values, [merged_json] the merged list and
    [logged] the request log at the time of the summary. *)
Definition session_files (env : Env) (c : Captured)
           (merged_json : list Entry) (logged : list RequestLogEntry)
  : list (string * Artifact) :=
  (numbered "xhr-" FPayload 0 merged_json
   ++ numbered "chart-" FChart 0 (charts c)
   ++ (if nonempty (canvas_text c)
       then [("canvas-text.json", FCanvasText (canvas_text c))]
       else [])
   ++ [("storage-local.json", FStorage (ls c));
       ("storage-session.json", FStorage (ss c))]
   ++ guarded_files env
   ++ [("trace.zip", FTrace);
       ("summary.json", FSummary (summary_of env logged merged_json c))])%list.

End Observe.

(* ================================================================== *)
(** ** Further observations on a session *)

Module Measure.
Import Session.

Definition is_sleep (a : Action) : bool :=
  match a with ASleep _ => true | _ => false end.

(** What [main] does from its first file on. *)
Definition during_output (a : Action) : bool :=
  match a with
  | AWriteText _ | APageContent | AScreenshot | ATracingStop
  | APrintSummary _ | ACtxClose | ABrowserClose => true
  | _ => false
  end.

(** Round [i] of the polling loop ends it: both reads answer and one of
    the two lists is non-empty. *)
Definition signal (env : Env) (i : nat) : bool :=
  match result (env_charts env i), result (env_json env i) with
  | Ok c, Ok j => nonempty c || nonempty j
  | _, _ => false
  end.

(** The rounds, out of [n] starting at round [i], that come before the
    first one that ends the loop. *)
Fixpoint rounds_without_signal (env : Env) (n i : nat) : nat :=
  match n with
  | O => 0
  | S n' =>
      if signal env i then 0
      else S (rounds_without_signal env n' (S i))
  end.



(** The exception of a call that raised. *)
Definition raised {A} (r : Result A) : option Exn :=
  match r with
  | Ok _ => None
  | Raise e => Some e
  end.

(** The exception, if any, that the environment answers to a call
    [main] makes outside any [try]: the set-up calls, the navigation,
    the writes other than that of [page.html], stopping the trace and
    the two closes. *)
Definition failure (env : Env) (a : Action) : option Exn :=
  match a with
  | ALaunchBrowser => raised (env_launch env)
  | ALaunchContext => raised (env_launch_context env)
  | AAddInitScript => raised (env_add_init_script env)
  | ATracingStart => raised (env_tracing_start env)
  | ANewPage => raised (env_new_page env)
  | AGoto => raised (result (env_goto env))
  | AWriteText path =>
      if String.eqb path "page.html" then None
      else raised (env_write_text env path)
  | ATracingStop => raised (result (env_tracing_stop env))
  | ACtxClose => raised (result (env_ctx_close env))
  | ABrowserClose => raised (result (env_browser_close env))
  | _ => None
  end.

(** [ctx.close()] and [browser.close()], the two calls that follow the
    summary. *)
Definition is_close (a : Action) : bool :=
  match a with
  | ACtxClose | ABrowserClose => true
  | _ => false
  end.

(** The exit of the [with] block. *)
Definition is_exit (a : Action) : bool :=
  match a with
  | APlaywrightExit => true
  | _ => false
  end.

(** What the two listeners add for a list of events. *)
Definition requests_of (evs : list NetEvent) : list RequestLogEntry :=
  flat_map (fun ev => match ev with
                      | OnRequest now r =>
                          [mkRequestLogEntry now (rq_method r) (rq_url r)
                                             (rq_resource_type r)]
                      | OnResponse _ => []
                      end) evs.

Definition responses_of (json_loads : string -> option JValue)
           (evs : list NetEvent) : list Entry :=
  flat_map (fun ev => match ev with
                      | OnRequest _ _ => []
                      | OnResponse res => on_response json_loads res []
                      end) evs.

Definition is_goto (a : Action) : bool :=
  match a with AGoto => true | _ => false end.

(** The first two characters of a file name. *)
Definition key (path : string) : string := substring 0 2 path.

(** Reading back the index printed by [f"{i:02d}"]. *)
Definition index_of (digits : string) : option nat :=
  option_map Nat.of_uint (NilEmpty.uint_of_string digits).

End Measure.

(* ================================================================== *)
(** ** The other in-page hooks: charts, canvas text, storage *)

Module Hooked.
Import Page.

(** [window.__CAPTURE__.charts.push(v)] and
    [window.__CAPTURE__.canvasText.push(v)]. *)
Definition push_chart (v : JValue) (c : Capture) : Capture :=
  mkCapture (json c) (charts c ++ [v]) (canvasText c)
            (storage_local c) (storage_session c).

Definition push_canvasText (v : JValue) (c : Capture) : Capture :=
  mkCapture (json c) (charts c) (canvasText c ++ [v])
            (storage_local c) (storage_session c).

(** *** Canvas text *)

Inductive DrawKind : Type := Fill | Stroke.

(** The drawing context at the time of the call: [this.font],
    [this.fillStyle], [this.strokeStyle]. *)
Record Context2D : Type := mkContext2D {
  ctx_font : JValue;
  ctx_fillStyle : JValue;
  ctx_strokeStyle : JValue
}.

(** The arguments of [fillText] / [strokeText]. *)
Record TextCall : Type := mkTextCall {
  tc_text : JValue;
  tc_x : JValue;
  tc_y : JValue;
  tc_rest : list JValue
}.

(** What reaches the real drawing surface: the original methods, called
    with [arguments]. *)
Definition Surface : Type := list (DrawKind * TextCall).

(** *** Storage *)

(** [this === window.localStorage], or any other [Storage]. *)
Inductive StorageObject : Type := LocalStorage | OtherStorage.

(** [obj[k] = v] on a plain object: an own property is replaced in
    place or added at the end; [__proto__] is the inherited accessor,
    which ignores a string. *)
Fixpoint assign_own (k v : string) (obj : list (string * string))
  : list (string * string) :=
  match obj with
  | [] => [(k, v)]
  | (k', v') :: r =>
      if String.eqb k' k then (k, v) :: r else (k', v') :: assign_own k v r
  end.

Definition assign (k v : string) (obj : list (string * string))
  : list (string * string) :=
  if String.eqb k "__proto__" then obj else assign_own k v obj.

(** The own property [k] of a plain object. *)
Fixpoint own (k : string) (obj : list (string * string)) : option string :=
  match obj with
  | [] => None
  | (k', v') :: r => if String.eqb k' k then Some v' else own k r
  end.

Section Hooks.

(** [String(v)]. *)
Variable js_String : JValue -> string.

(** [{ kind, text: String(text), x, y, font, fillStyle }], or
    [strokeStyle] for an outline. *)
Definition canvas_entry (kind : DrawKind) (ctx : Context2D)
           (call : TextCall) : JValue :=
  JObj [("kind", JStr match kind with
                      | Fill => "fill"
                      | Stroke => "stroke"
                      end);
        ("text", JStr (js_String (tc_text call)));
        ("x", tc_x call);
        ("y", tc_y call);
        ("font", ctx_font ctx);
        match kind with
        | Fill => ("fillStyle", ctx_fillStyle ctx)
        | Stroke => ("strokeStyle", ctx_strokeStyle ctx)
        end].

(** The replacements of [fillText] and [strokeText]: record, then
    draw. *)
Definition fillText (ctx : Context2D) (call : TextCall)
           (s : Capture * Surface) : Capture * Surface :=
  (push_canvasText (canvas_entry Fill ctx call) (fst s),
   (snd s ++ [(Fill, call)])%list).

Definition strokeText (ctx : Context2D) (call : TextCall)
           (s : Capture * Surface) : Capture * Surface :=
  (push_canvasText (canvas_entry Stroke ctx call) (fst s),
   (snd s ++ [(Stroke, call)])%list).

Definition draw (d : DrawKind * Context2D * TextCall)
           (s : Capture * Surface) : Capture * Surface :=
  match d with
  | (Fill, ctx, call) => fillText ctx call s
  | (Stroke, ctx, call) => strokeText ctx call s
  end.

(** The replacement of [Storage.prototype.setItem], as far as the
    bucket goes; the original is called afterwards with the same
    arguments. *)
Definition setItem (this : StorageObject) (k : string) (v : JValue)
           (c : Capture) : Capture :=
  match this with
  | LocalStorage =>
      mkCapture (json c) (charts c) (canvasText c)
                (assign k (js_String v) (storage_local c))
                (storage_session c)
  | OtherStorage =>
      mkCapture (json c) (charts c) (canvasText c)
                (storage_local c)
                (assign k (js_String v) (storage_session c))
  end.

(** *** ECharts *)

(** What the library's own [setOption] returns. *)
Variable Ret : Type.

(** A [setOption] method, the chart instances by identity, and an
    [init] function, which returns an instance. *)
Definition Method : Type := JValue -> list JValue -> Capture -> Ret * Capture.
Definition Instances : Type := nat -> Method.
Definition Init : Type := list JValue -> Instances -> nat * Instances.

Definition echarts_entry (opts : JValue) : JValue :=
  JObj [("lib", JStr "echarts"); ("opts", opts)].

(** [inst.setOption = function(opts, ...rest) { push; return
    oset.call(this, opts, ...rest) }]. *)
Definition wrap_setOption (oset : Method) : Method :=
  fun opts rest c => oset opts rest (push_chart (echarts_entry opts) c).

(** A method under [n] such wrappers. *)
Fixpoint wrapped (n : nat) (m : Method) : Method :=
  match n with
  | 0 => m
  | S k => wrap_setOption (wrapped k m)
  end.

Definition replace_method (h : Instances) (inst : nat) (m : Method)
  : Instances :=
  fun i => if i =? inst then m else h i.

(** [v.init = function(...a) { const inst = oinit.apply(this, a);
    ...; return inst }], installed by the setter of
    [window.echarts]. *)
Definition wrap_init (oinit : Init) : Init :=
  fun a h =>
    let (inst, h1) := oinit a h in
    (inst, replace_method h1 inst (wrap_setOption (h1 inst))).

(** The library as the page ships it. *)
Variable native_init : list JValue -> nat.
Variable native_setOption : nat -> JValue -> list JValue -> Ret.

Definition library_init : Init := fun a h => (native_init a, h).

Definition library_instances : Instances :=
  fun i opts rest c => (native_setOption i opts rest, c).

(** The page calls [echarts.init] once per element of [calls]. *)
Definition init_all (init : Init) (calls : list (list JValue))
           (h : Instances) : Instances :=
  fold_left (fun h a => snd (init a h)) calls h.

(** How many of the calls to [init] returned the instance [inst]. *)
Definition returned (inst : nat) (calls : list (list JValue)) : nat :=
  length (filter (fun a => native_init a =? inst) calls).

(** *** Chart.js *)

Definition chartjs_entry (cfg : JValue) : JValue :=
  JObj [("lib", JStr "chartjs"); ("cfg", cfg)].

(** A constructor called with [new Chart(item, cfg, ...rest)], as far
    as the bucket goes. *)
Definition Constructor : Type :=
  JValue -> JValue -> list JValue -> Capture -> Capture.

(** [ProxyChart = function(...args) { push; return
    Reflect.construct(v, args, new.target) }]. *)
Definition ProxyChart (v : Constructor) : Constructor :=
  fun item cfg rest c => v item cfg rest (push_chart (chartjs_entry cfg) c).

Definition library_Chart : Constructor := fun _ _ _ c => c.

(** A constructor under [n] proxies. *)
Fixpoint proxied (n : nat) (v : Constructor) : Constructor :=
  match n with
  | 0 => v
  | S k => ProxyChart (proxied k v)
  end.

(** The setter of [window.Chart]: it keeps [v] as [ChartREF] and
    then, inside a [try], assigns a proxy of [v] to [window.Chart],
    which runs the setter again on that proxy.  The recursion stops
    when the stack is exhausted, and the [catch] around the
    assignment swallows that error.  [room] is the number of
    activations of the setter that still fit on the stack; the result
    is [ChartREF]. *)
Fixpoint set_Chart (room : nat) (v ChartREF : Constructor) : Constructor :=
  match room with
  | 0 => ChartREF
  | S r => set_Chart r (ProxyChart v) v
  end.

(** *** Fetches in flight *)

Variable Reviver : Type.
Variable _parse : string -> option Reviver -> option JValue.

(** What happens around the hooked [fetch], one thing at a time: a
    native call settles and the wrapper resumes; the body of one of
    the clones still being read has arrived and its reaction runs; or
    the reading of one has failed and the trailing [catch] drops it.
    The clones being read are numbered from the oldest. *)
Inductive FetchStep : Type :=
| NativeSettled (native : Settled)
| BodyRead (i : nat)
| BodyLost (i : nat).

(** A list without its element of index [i]. *)
Definition without {X} (i : nat) (l : list X) : list X :=
  (firstn i l ++ skipn (S i) l)%list.

(** A step, on what the wrapper's promises have settled to so far and
    on the runtime. *)
Definition fetch_step (s : FetchStep) (st : list Settled * Runtime)
  : list Settled * Runtime :=
  match s with
  | NativeSettled native =>
      let (res, rt) := fetch _parse native (snd st) in
      ((fst st ++ [res])%list, rt)
  | BodyRead i =>
      match nth_error (pending (snd st)) i with
      | Some job =>
          (fst st,
           mkRuntime (job (capture (snd st))) (without i (pending (snd st))))
      | None => st
      end
  | BodyLost i =>
      (fst st, mkRuntime (capture (snd st)) (without i (pending (snd st))))
  end.

Definition fetch_steps (steps : list FetchStep)
           (st : list Settled * Runtime) : list Settled * Runtime :=
  fold_left (fun st s => fetch_step s st) steps st.

(** The reaction the wrapper queues for a response. *)
Definition reaction_of (res : Response) : Job :=
  if json_content_type (res_content_type res)
  then fetch_json_reaction _parse res
  else fetch_text_reaction _parse res.

(** The same steps, followed on the responses themselves: those whose
    clone is still being read, those read, in the order read, and
    those lost. *)
Record Flight : Type := mkFlight {
  waiting : list Response;
  arrived : list Response;
  lost : list Response
}.

Definition flight_step (s : FetchStep) (f : Flight) : Flight :=
  match s with
  | NativeSettled (Fulfilled res) =>
      mkFlight (waiting f ++ [res]) (arrived f) (lost f)
  | NativeSettled (Rejected _) => f
  | BodyRead i =>
      match nth_error (waiting f) i with
      | Some res =>
          mkFlight (without i (waiting f)) (arrived f ++ [res]) (lost f)
      | None => f
      end
  | BodyLost i =>
      match nth_error (waiting f) i with
      | Some res =>
          mkFlight (without i (waiting f)) (arrived f) (lost f ++ [res])
      | None => f
      end
  end.

Definition flight (steps : list FetchStep) (f : Flight) : Flight :=
  fold_left (fun f s => flight_step s f) steps f.

(** What the native calls of a list of steps settled to, and the
    responses among them. *)
Definition natives_of (steps : list FetchStep) : list Settled :=
  flat_map (fun s => match s with
                     | NativeSettled native => [native]
                     | _ => []
                     end) steps.

Definition fulfilled_of (steps : list FetchStep) : list Response :=
  flat_map (fun s => match s with
                     | NativeSettled (Fulfilled res) => [res]
                     | _ => []
                     end) steps.

(** *** Runs of the hooks, one after the other *)

(** One run of a hook's body: for a fetch, the run of its reaction,
    whenever the clone's body has been read; for [setOption], a call
    on an instance whose method is under [wraps] wrappers; for
    [Chart], a construction that goes through [proxies] proxies. *)
Inductive PageCall : Type :=
| CallParse (s : string) (reviver : option Reviver)
| FetchSettled (res : Response)
| XhrLoaded (x : Xhr)
| CallFillText (ctx : Context2D) (call : TextCall)
| CallStrokeText (ctx : Context2D) (call : TextCall)
| CallSetItem (this : StorageObject) (k : string) (v : JValue)
| CallSetOption (wraps : nat) (inst : nat) (opts : JValue)
                (rest : list JValue)
| CallNewChart (proxies : nat) (item cfg : JValue) (rest : list JValue).

(** What a run does to the bucket. *)
Definition apply_call (call : PageCall) (c : Capture) : Capture :=
  match call with
  | CallParse s reviver => snd (JSON_parse _parse s reviver c)
  | FetchSettled res => reaction_of res c
  | XhrLoaded x => xhr_load _parse x c
  | CallFillText ctx call => fst (fillText ctx call (c, []))
  | CallStrokeText ctx call => fst (strokeText ctx call (c, []))
  | CallSetItem this k v => setItem this k v c
  | CallSetOption wraps inst opts rest =>
      snd (wrapped wraps (library_instances inst) opts rest c)
  | CallNewChart proxies item cfg rest =>
      proxied proxies library_Chart item cfg rest c
  end.

Definition apply_calls (calls : list PageCall) (c : Capture) : Capture :=
  fold_left (fun c call => apply_call call c) calls c.

(** The value last written under [k] through [this] in a list of
    calls, if any. *)
Fixpoint last_written (local : bool) (k : string) (calls : list PageCall)
         (found : option string) : option string :=
  match calls with
  | [] => found
  | CallSetItem this k' v :: r =>
      let same_scope :=
        match this with
        | LocalStorage => local
        | OtherStorage => negb local
        end in
      if same_scope && String.eqb k' k
      then last_written local k r (Some (js_String v))
      else last_written local k r found
  | _ :: r => last_written local k r found
  end.

End Hooks.

End Hooked.
(* ================================================================== *)
(** * Properties *)

(** ** The model on concrete inputs *)

Example decode_object :
  RefJson.decode ("{" ++ Text.dq ++ "a" ++ Text.dq ++ ":1}")
  = Some (JObj [("a", JNum 1%Z)]).
Proof. reflexivity. Qed.

Example decode_nested :
  RefJson.decode ("[1, {" ++ Text.dq ++ "k" ++ Text.dq ++ ": [true, null]}, -20]")
  = Some (JArr [JNum 1%Z; JObj [("k", JArr [JBool true; JNull])]; JNum (-20)%Z]).
Proof. reflexivity. Qed.

Example decode_malformed : RefJson.decode "{oops" = None.
Proof. reflexivity. Qed.

Example decode_empty : RefJson.decode EmptyString = None.
Proof. reflexivity. Qed.

Example two_digits_7 : Text.two_digits 7 = "07".
Proof. reflexivity. Qed.

Example two_digits_123 : Text.two_digits 123 = "123".
Proof. reflexivity. Qed.

Example lower_ct : Text.lower "Application/JSON; charset=UTF-8" = "application/json; charset=utf-8".
Proof. reflexivity. Qed.

Example fetch_json_run :
  Page.json (Page.settle (snd (Page.fetch Page.ref_parse
     (Page.Fulfilled (Page.mkResponse "/api/data" (Some "application/json")
                        ("{" ++ Text.dq ++ "a" ++ Text.dq ++ ":1}")))
     Page.fresh)))
  = [mkEntry "fetch" "/api/data" (JObj [("a", JNum 1%Z)])].
Proof. reflexivity. Qed.

Example fetch_text_run :
  Page.json (Page.settle (snd (Page.fetch Page.ref_parse
     (Page.Fulfilled (Page.mkResponse "/page" (Some "text/html") "[1,{}]"))
     Page.fresh)))
  = [mkEntry "JSON.parse" "inline" (JArr [JNum 1%Z; JObj []]);
     mkEntry "fetch-text" "/page" (JArr [JNum 1%Z; JObj []])].
Proof. reflexivity. Qed.

Example calm_session_summary :
  last (Session.files (Session.final (Session.main RefJson.decode Session.calm)))
       ("none", Session.FTrace)
  = ("summary.json",
     Session.FSummary
       (Session.mkSummary (Session.URL Session.calm)
          (Session.env_timestamp Session.calm) (Session.env_duration Session.calm)
          (Session.mkCounts 0 0 0 0 0 0))).
Proof. vm_compute. reflexivity. Qed.

Example merged_session_files :
  let env := Session.with_goto
               (Session.mkOutcome
                  [Session.OnRequest "t1" (Session.mkRequest "GET" "/api/data" "fetch");
                   Session.OnResponse
                     (Session.mkNetResponse "/api/data" (Some "application/json")
                        (Some "[1]"))]
                  (Session.Ok tt))
               (Session.with_json
                  (fun _ => Session.quiet
                              [mkEntry "fetch" "/api/data" (JArr [JNum 1%Z]);
                               mkEntry "JSON.parse" "inline" (JObj [])])
                  Session.calm) in
  map fst (Session.files (Session.final (Session.main RefJson.decode env)))
  = ["xhr-00.json"; "xhr-01.json"; "xhr-02.json"; "storage-local.json";
     "storage-session.json"; "page.html"; "screenshot.png"; "trace.zip";
     "summary.json"].
Proof. vm_compute. reflexivity. Qed.

Example merged_session_summary :
  let env := Session.with_goto
               (Session.mkOutcome
                  [Session.OnRequest "t1" (Session.mkRequest "GET" "/api/data" "fetch");
                   Session.OnResponse
                     (Session.mkNetResponse "/api/data" (Some "application/json")
                        (Some "[1]"))]
                  (Session.Ok tt))
               (Session.with_json
                  (fun _ => Session.quiet
                              [mkEntry "fetch" "/api/data" (JArr [JNum 1%Z]);
                               mkEntry "JSON.parse" "inline" (JObj [])])
                  Session.calm) in
  last (Session.files (Session.final (Session.main RefJson.decode env)))
       ("none", Session.FTrace)
  = ("summary.json",
     Session.FSummary
       (Session.mkSummary (Session.URL env)
          (Session.env_timestamp env) (Session.env_duration env)
          (Session.mkCounts 1 3 0 0 0 0))).
Proof. vm_compute. reflexivity. Qed.

Example xhr_text_needs_ordered_braces :
  Page.json (Page.xhr_load Page.ref_parse
               (Page.mkXhr (Some "/motd") (Some "text/plain")
                           (Some (Text.dq ++ "}{" ++ Text.dq)) 1)
               Page.empty_capture) = [] /\
  Page.json (Page.xhr_load Page.ref_parse
               (Page.mkXhr (Some "/motd") (Some "text/plain") (Some "{}") 1)
               Page.empty_capture)
  = [mkEntry "JSON.parse" "inline" (JObj []); mkEntry "xhr-text" "/motd" (JObj [])].
Proof. split; reflexivity. Qed.

(** A request object whose [responseType] is [json] has no readable
    [responseText]: nothing is recorded.  One that has been sent twice
    records its second response twice. *)
Example xhr_unreadable_and_resent :
  Page.xhr_load Page.ref_parse
    (Page.mkXhr (Some "/api") (Some "application/json") None 1)
    Page.empty_capture = Page.empty_capture /\
  Page.json (Page.xhr_load Page.ref_parse
               (Page.mkXhr (Some "/api") (Some "application/json") (Some "7") 2)
               Page.empty_capture)
  = [mkEntry "xhr" "/api" (JNum 7%Z); mkEntry "xhr" "/api" (JNum 7%Z)].
Proof. split; reflexivity. Qed.

(** Two fetches whose bodies arrive in the other order are recorded in
    the order of arrival. *)
Example fetch_bodies_out_of_order :
  let first := Page.mkResponse "/big" (Some "application/json") "[1,2,3]" in
  let second := Page.mkResponse "/small" (Some "application/json") "[]" in
  let steps := [Hooked.NativeSettled (Page.Fulfilled first);
                Hooked.NativeSettled (Page.Fulfilled second);
                Hooked.BodyRead 1; Hooked.BodyRead 0] in
  let after := Hooked.fetch_steps Page.ref_parse steps ([], Page.fresh) in
  fst after = [Page.Fulfilled first; Page.Fulfilled second] /\
  map url (Page.json (Page.capture (snd after))) = ["/small"; "/big"] /\
  Page.pending (snd after) = [].
Proof. vm_compute. repeat split. Qed.

(** One call of [setOption] on an instance wrapped twice, and one chart
    built through three proxies. *)
Example charts_recorded_per_wrapper :
  let show := fun _ : JValue => EmptyString in
  let calls := [Hooked.CallSetOption unit 2 0 (JStr "o") [];
                Hooked.CallNewChart unit 3 JNull (JStr "c") []] in
  Page.charts (Hooked.apply_calls show (fun _ _ _ => tt) Page.ref_parse calls
                                  Page.empty_capture)
  = [Hooked.echarts_entry (JStr "o"); Hooked.echarts_entry (JStr "o");
     Hooked.chartjs_entry (JStr "c"); Hooked.chartjs_entry (JStr "c");
     Hooked.chartjs_entry (JStr "c")].
Proof. reflexivity. Qed.

(** An assignment to [window.Chart] with room for four activations of
    the setter leaves the library's constructor under three proxies. *)
Example chart_setter_stacks_proxies :
  Hooked.set_Chart 4 Hooked.library_Chart Hooked.library_Chart JNull (JStr "c") []
                   Page.empty_capture
  = Hooked.proxied 3 Hooked.library_Chart JNull (JStr "c") [] Page.empty_capture.
Proof. reflexivity. Qed.

(* ================================================================== *)
(** ** The in-page hooks *)

Module PageFacts.
Import Page.

Lemma settle_enqueue (j : Job) (rt : Runtime) :
  settle (enqueue j rt) = j (settle rt).
Proof.
  unfold settle, enqueue; simpl.
  now rewrite fold_left_app.
Qed.

Lemma includes_char (c d : ascii) (r : string) :
  Text.includes (String c EmptyString) (String d r)
  = if Ascii.eqb c d then true else Text.includes (String c EmptyString) r.
Proof.
  cbn [Text.includes prefix].
  destruct (ascii_dec c d) as [->|n].
  - rewrite Ascii.eqb_refl. now destruct r.
  - destruct (Ascii.eqb_spec c d) as [e|_]; [now elim n|reflexivity].
Qed.

Lemma includes_after (c : ascii) (a b : string) :
  Text.includes (String c EmptyString) b = true ->
  Text.includes (String c EmptyString) (a ++ b) = true.
Proof.
  intros H. induction a as [|d a IH]; [exact H|].
  change (Text.includes (String c EmptyString) (String d (a ++ b)) = true).
  rewrite includes_char, IH. now destruct (Ascii.eqb c d).
Qed.

(** [includes] of one character: the character occurs in the text. *)
Lemma includes_char_spec (c : ascii) (s : string) :
  Text.includes (String c EmptyString) s = true
  <-> exists a b, s = a ++ String c b.
Proof.
  split.
  - induction s as [|d s IH]; [discriminate|].
    rewrite includes_char.
    destruct (Ascii.eqb_spec c d) as [<-|_].
    + intros _. now exists EmptyString, s.
    + intros H. destruct (IH H) as (a & b & ->).
      now exists (String d a), b.
  - intros (a & b & ->). apply includes_after.
    rewrite includes_char. now rewrite Ascii.eqb_refl.
Qed.

(** The fetch wrapper's test: both characters occur, in any order. *)
Lemma fetch_text_guess_spec (txt : string) :
  fetch_text_guess txt = true
  <-> (exists a b, txt = a ++ "{" ++ b) /\ (exists a b, txt = a ++ "}" ++ b).
Proof.
  unfold fetch_text_guess.
  rewrite !andb_true_iff, !includes_char_spec.
  split; [tauto|].
  intros [H1 H2]. repeat split; try assumption.
  destruct H1 as (a & b & ->). now destruct a.
Qed.

(** The legacy-request heuristic is the ordered one: an opening brace
    and a closing brace after it. *)
Lemma xhr_text_guess_spec (txt : string) :
  xhr_text_guess txt = true <-> spec_brace_pair txt.
Proof.
  split.
  - induction txt as [|c r IH]; simpl; [discriminate|].
    destruct (Ascii.eqb_spec c "{") as [->|_].
    + intros H. apply includes_char_spec in H. destruct H as (a & b & ->).
      now exists EmptyString, a, b.
    + intros H. destruct (IH H) as (pre & mid & post & ->).
      now exists (String c pre), mid, post.
  - intros (pre & mid & post & ->).
    induction pre as [|c pre IH]; simpl.
    + apply includes_char_spec. now exists mid, post.
    + destruct (Ascii.eqb c "{"); [|exact IH].
      apply includes_after.
      change (Text.includes "}" (String "{" (mid ++ "}" ++ post)) = true).
      rewrite includes_char. simpl.
      apply includes_char_spec. now exists mid, post.
Qed.

End PageFacts.

(** C1, as stated, fails: a response served as [application/json] whose
    body does not decode leaves no entry in the json channel — the
    rejection of [cloned.json()] is swallowed by the trailing [catch]. *)
Lemma fetch_json_undecodable_body_leaves_no_entry :
  let res := Page.mkResponse "/api/data" (Some "application/json")
                             "Internal Server Error" in
  Page.json_content_type (Page.res_content_type res) = true /\
  Page.json (Page.settle (snd (Page.fetch Page.ref_parse (Page.Fulfilled res)
                                          Page.fresh))) = [].
Proof. split; reflexivity. Qed.

(** C1, amended: for a fetch whose response has a JSON content-type, the
    wrapper hands the very response back to the caller without having
    touched the bucket (the decode is a reaction still pending at that
    moment).  Whenever that reaction runs it appends exactly one entry,
    tagged [fetch], with the response's URL and the decoded body, when
    the body decodes, and leaves the bucket as it found it when the body
    does not decode; so once the pending reactions have run the json
    channel has gained that one entry, or nothing. *)
Theorem fetch_json_entry_and_original_response
        (Reviver : Type) (_parse : string -> option Reviver -> option JValue)
        (res : Page.Response) (rt : Page.Runtime) :
  Page.json_content_type (Page.res_content_type res) = true ->
  let after := Page.fetch _parse (Page.Fulfilled res) rt in
  let recorded :=
    match _parse (Page.res_text res) None with
    | Some served => [mkEntry "fetch" (Page.res_url res) served]
    | None => []
    end in
  fst after = Page.Fulfilled res /\
  Page.capture (snd after) = Page.capture rt /\
  Page.pending (snd after)
    = (Page.pending rt ++ [Page.fetch_json_reaction _parse res])%list /\
  (forall c : Page.Capture,
     Page.fetch_json_reaction _parse res c
     = Page.mkCapture (Page.json c ++ recorded) (Page.charts c)
                      (Page.canvasText c) (Page.storage_local c)
                      (Page.storage_session c)) /\
  Page.json (Page.settle (snd after))
    = (Page.json (Page.settle rt) ++ recorded)%list /\
  (forall served : JValue,
     _parse (Page.res_text res) None = Some served ->
     Page.json (Page.settle (snd after))
     = (Page.json (Page.settle rt)
          ++ [mkEntry "fetch" (Page.res_url res) served])%list) /\
  (_parse (Page.res_text res) None = None ->
   Page.settle (snd after) = Page.settle rt).
Proof.
  intros Hct after recorded. subst after recorded.
  unfold Page.fetch. rewrite Hct. simpl.
  assert (Hjob : forall c : Page.Capture,
            Page.fetch_json_reaction _parse res c
            = Page.mkCapture
                (Page.json c
                   ++ match _parse (Page.res_text res) None with
                      | Some served => [mkEntry "fetch" (Page.res_url res) served]
                      | None => []
                      end)
                (Page.charts c) (Page.canvasText c) (Page.storage_local c)
                (Page.storage_session c)).
  { intros c. unfold Page.fetch_json_reaction.
    destruct (_parse (Page.res_text res) None).
    - reflexivity.
    - rewrite app_nil_r. now destruct c. }
  repeat split.
  - exact Hjob.
  - rewrite PageFacts.settle_enqueue, Hjob. reflexivity.
  - intros served Hbody. rewrite PageFacts.settle_enqueue, Hjob, Hbody.
    reflexivity.
  - intros Hbody. rewrite PageFacts.settle_enqueue.
    unfold Page.fetch_json_reaction. now rewrite Hbody.
Qed.

Lemma fetch_json_entry_and_original_response_witness :
  let res := Page.mkResponse "/api/data" (Some "Application/JSON; charset=utf-8")
                             ("{" ++ Text.dq ++ "a" ++ Text.dq ++ ":1}") in
  let bad := Page.mkResponse "/api/data" (Some "application/json")
                             "Internal Server Error" in
  let after := Page.fetch Page.ref_parse (Page.Fulfilled res) Page.fresh in
  let after_bad := Page.fetch Page.ref_parse (Page.Fulfilled bad) Page.fresh in
  (fst after = Page.Fulfilled res /\
   Page.capture (snd after) = Page.capture Page.fresh /\
   Page.json (Page.settle (snd after))
   = [mkEntry "fetch" "/api/data" (JObj [("a", JNum 1%Z)])]) /\
  (fst after_bad = Page.Fulfilled bad /\
   Page.settle (snd after_bad) = Page.settle Page.fresh).
Proof.
  intros res bad after after_bad.
  assert (Hres : Page.json_content_type (Page.res_content_type res) = true)
    by reflexivity.
  assert (Hbad : Page.json_content_type (Page.res_content_type bad) = true)
    by reflexivity.
  pose proof (@fetch_json_entry_and_original_response
                unit Page.ref_parse res Page.fresh Hres)
    as (H1 & H2 & _ & _ & _ & H3 & _).
  pose proof (@fetch_json_entry_and_original_response
                unit Page.ref_parse bad Page.fresh Hbad)
    as (B1 & _ & _ & _ & _ & _ & B2).
  split; [split; [exact H1|split; [exact H2|]]|split; [exact B1|exact (B2 eq_refl)]].
  exact (H3 (JObj [("a", JNum 1%Z)]) eq_refl).
Defined.

(** C5, as stated, fails: the entry pushed by the [JSON.parse] hook has
    the source tag [JSON.parse]; [inline] is its [url].  The tag is none
    of the enumerated ones. *)
Lemma JSON_parse_entry_is_not_tagged_inline :
  let text := "{" ++ Text.dq ++ "b" ++ Text.dq ++ ":2}" in
  let after := Page.JSON_parse Page.ref_parse text None Page.empty_capture in
  fst after = Some (JObj [("b", JNum 2%Z)]) /\
  Page.json (snd after)
    = [mkEntry "JSON.parse" "inline" (JObj [("b", JNum 2%Z)])] /\
  (forall e, In e (Page.json (snd after)) ->
             src e <> "inline" /\ ~ In (src e) spec_source_tags).
Proof.
  cbv zeta. split; [reflexivity|]. split; [reflexivity|].
  intros e [<-|[]]. simpl. split; [discriminate|].
  intros H. repeat (destruct H as [H|H]; [discriminate|]). exact H.
Qed.

(** C5, amended: every call of the hooked decoder that succeeds with an
    object-shaped value returns that value unchanged and appends exactly
    one entry to the json channel, whose source tag is [JSON.parse] and
    whose url is [inline]. *)
Theorem JSON_parse_object_is_recorded
        (Reviver : Type) (_parse : string -> option Reviver -> option JValue)
        (s : string) (reviver : option Reviver) (c : Page.Capture) (out : JValue) :
  _parse s reviver = Some out ->
  object_shaped out = true ->
  fst (Page.JSON_parse _parse s reviver c) = Some out /\
  Page.json (snd (Page.JSON_parse _parse s reviver c))
    = (Page.json c ++ [mkEntry "JSON.parse" "inline" out])%list.
Proof.
  intros Hp Ho. unfold Page.JSON_parse. rewrite Hp, Ho. now split.
Qed.

Lemma JSON_parse_object_is_recorded_witness :
  fst (Page.JSON_parse Page.ref_parse "[1, 2]" None Page.empty_capture)
    = Some (JArr [JNum 1%Z; JNum 2%Z]) /\
  Page.json (snd (Page.JSON_parse Page.ref_parse "[1, 2]" None Page.empty_capture))
    = (Page.json Page.empty_capture
         ++ [mkEntry "JSON.parse" "inline" (JArr [JNum 1%Z; JNum 2%Z])])%list.
Proof.
  apply (@JSON_parse_object_is_recorded unit Page.ref_parse "[1, 2]" None
           Page.empty_capture (JArr [JNum 1%Z; JNum 2%Z])); reflexivity.
Defined.

(** C6, as stated, fails: the fetch wrapper's test asks for an opening
    brace and a closing brace anywhere in the text, in any order.  The
    JSON string literal made of a closing brace followed by an opening one
    has no brace pair, yet it is decoded and recorded. *)
Lemma fetch_text_decodes_without_brace_pair :
  let text := Text.dq ++ "}{" ++ Text.dq in
  let res := Page.mkResponse "/motd" (Some "text/plain") text in
  Page.json_content_type (Page.res_content_type res) = false /\
  ~ spec_brace_pair text /\
  Page.json (Page.settle (snd (Page.fetch Page.ref_parse (Page.Fulfilled res)
                                          Page.fresh)))
    = [mkEntry "fetch-text" "/motd" (JStr "}{")].
Proof.
  cbv zeta. split; [reflexivity|]. split; [|reflexivity].
  intros H. apply PageFacts.xhr_text_guess_spec in H. discriminate H.
Qed.

(** C6, amended: for a fetched response whose content-type is not JSON the
    wrapper returns the response and, once its reaction has run, has
    decoded the text exactly when the text holds both an opening-brace
    character and a closing-brace character, in any order.  A text that
    passes the test and decodes adds an entry tagged [fetch-text] (after
    the entry the hooked decoder itself adds for an object-shaped value);
    a text that passes the test and fails to decode, or fails the test,
    adds nothing, and nothing is thrown. *)
Theorem fetch_text_speculative_decode
        (Reviver : Type) (_parse : string -> option Reviver -> option JValue)
        (res : Page.Response) (rt : Page.Runtime) :
  Page.json_content_type (Page.res_content_type res) = false ->
  let after := Page.fetch _parse (Page.Fulfilled res) rt in
  let txt := Page.res_text res in
  fst after = Page.Fulfilled res /\
  Page.json (Page.settle (snd after))
    = (Page.json (Page.settle rt) ++
       if Text.includes "{" txt && Text.includes "}" txt then
         match _parse txt None with
         | Some guess =>
             (if object_shaped guess
              then [mkEntry "JSON.parse" "inline" guess] else [])
             ++ [mkEntry "fetch-text" (Page.res_url res) guess]
         | None => []
         end
       else [])%list.
Proof.
  intros Hct after txt. subst after txt.
  unfold Page.fetch. rewrite Hct. simpl. split; [reflexivity|].
  rewrite PageFacts.settle_enqueue.
  unfold Page.fetch_text_reaction, Page.fetch_text_guess, Page.JSON_parse.
  set (c := Page.settle rt). set (t := Page.res_text res).
  assert (Hne : Text.includes "{" t = true -> Text.nonempty t = true).
  { destruct t; [discriminate|reflexivity]. }
  destruct (Text.includes "{" t) eqn:Ho.
  - rewrite (Hne eq_refl). simpl.
    destruct (Text.includes "}" t); [|now rewrite app_nil_r].
    destruct (_parse t None) as [g|]; [|now rewrite app_nil_r].
    destruct (object_shaped g); simpl.
    + now rewrite <- app_assoc.
    + reflexivity.
  - rewrite andb_false_r. simpl. now rewrite app_nil_r.
Qed.

Lemma fetch_text_speculative_decode_witness :
  let res := Page.mkResponse "/page" (Some "text/html") "{oops}" in
  let after := Page.fetch Page.ref_parse (Page.Fulfilled res) Page.fresh in
  fst after = Page.Fulfilled res /\
  Page.json (Page.settle (snd after)) = [].
Proof.
  intros res.
  exact (@fetch_text_speculative_decode unit Page.ref_parse res Page.fresh
           eq_refl).
Defined.

(* ================================================================== *)
(** ** The network observer *)

(** C10, as stated, fails: when the response is also served as
    [application/json], the first branch decodes with [res.json()], the
    failure is swallowed by the outer handler and nothing is logged, even
    though the URL ends in [.json]. *)
Lemma on_response_json_typed_undecodable_is_dropped :
  let res := Session.mkNetResponse "https://cdn.example/data.json"
                                   (Some "application/json") (Some "oops") in
  Text.endswith ".json" (Text.lower (Session.nr_url res)) = true /\
  RefJson.decode "oops" = None /\
  Session.on_response RefJson.decode res [] = [].
Proof. repeat split. Qed.

(** C10, amended: a response whose content-type is not JSON, whose URL
    ends with [.json] or contains [.json?], and whose text is available
    but fails to decode is kept: one entry tagged [network-text] is
    appended, with the raw text as its body. *)
Theorem on_response_keeps_undecodable_text
        (json_loads : string -> option JValue)
        (res : Session.NetResponse) (log : list Entry) (text : string) :
  Text.includes "application/json"
    (Text.lower (Text.or_empty (Session.nr_content_type res))) = false ->
  Text.endswith ".json" (Text.lower (Session.nr_url res))
    || Text.includes ".json?" (Text.lower (Session.nr_url res)) = true ->
  Session.nr_text res = Some text ->
  json_loads text = None ->
  Session.on_response json_loads res log
    = (log ++ [mkEntry "network-text" (Session.nr_url res) (JStr text)])%list.
Proof.
  intros Hct Hurl Htext Hdec.
  unfold Session.on_response. now rewrite Hct, Hurl, Htext, Hdec.
Qed.

Lemma on_response_keeps_undecodable_text_witness :
  Session.on_response RefJson.decode
    (Session.mkNetResponse "https://cdn.example/Data.JSON?v=3"
                           (Some "text/plain") (Some "<html>"))
    [mkEntry "network" "/a" JNull]
  = [mkEntry "network" "/a" JNull;
     mkEntry "network-text" "https://cdn.example/Data.JSON?v=3" (JStr "<html>")].
Proof.
  apply (@on_response_keeps_undecodable_text RefJson.decode
           (Session.mkNetResponse "https://cdn.example/Data.JSON?v=3"
                                  (Some "text/plain") (Some "<html>"))
           [mkEntry "network" "/a" JNull] "<html>"); reflexivity.
Defined.

(* ================================================================== *)
(** ** The session driver: computations *)

Module RunFacts.
Import Session.
Local Open Scope session_scope.

Lemma bind_ok {A B} (m : M A) (k : A -> M B) (st : St) (a : A) :
  outcome (m st) = Ok a ->
  bind m k st
  = mkRun (outcome (k a (final (m st)))) (final (k a (final (m st))))
          (trace (m st) ++ trace (k a (final (m st)))).
Proof. intros H. unfold bind. now rewrite H. Qed.

Lemma bind_raise {A B} (m : M A) (k : A -> M B) (st : St) (e : Exn) :
  outcome (m st) = Raise e ->
  bind m k st = mkRun (Raise e) (final (m st)) (trace (m st)).
Proof. intros H. unfold bind. now rewrite H. Qed.

(** A computation none of whose effects satisfies [P]. *)
Definition silent {A} (P : Action -> bool) (m : M A) : Prop :=
  forall st, filter P (trace (m st)) = [].

Section Silent.
Variable json_loads : string -> option JValue.
Variable env : Env.
Variable P : Action -> bool.

Lemma silent_ret {A} (a : A) : silent P (ret a).
Proof. intros st. reflexivity. Qed.

Lemma silent_raise {A} (e : Exn) : silent P (@raise A e).
Proof. intros st. reflexivity. Qed.

Lemma silent_read {A} (f : St -> A) : silent P (read f).
Proof. intros st. reflexivity. Qed.

Lemma silent_add_file path content : silent P (add_file path content).
Proof. intros st. reflexivity. Qed.

Lemma silent_act a : P a = false -> silent P (act a).
Proof. intros H st. simpl. now rewrite H. Qed.

Lemma silent_pw0 {A} a (r : Result A) : P a = false -> silent P (pw0 a r).
Proof. intros H st. simpl. now rewrite H. Qed.

Lemma silent_pw {A} a (o : Outcome A) :
  P a = false -> silent P (pw json_loads a o).
Proof. intros H st. simpl. now rewrite H. Qed.

Lemma silent_bind {A B} (m : M A) (k : A -> M B) :
  silent P m -> (forall a, silent P (k a)) -> silent P (bind m k).
Proof.
  intros Hm Hk st. unfold bind.
  destruct (outcome (m st)) as [a|e]; simpl.
  - now rewrite filter_app, Hm, Hk.
  - apply Hm.
Qed.

Lemma silent_attempt {A} (m : M A) : silent P m -> silent P (attempt m).
Proof. intros Hm st. apply Hm. Qed.

Lemma silent_write_text path content :
  P (AWriteText path) = false -> silent P (write_text env path content).
Proof.
  intros H. unfold write_text.
  apply silent_bind; [now apply silent_act|].
  intros _. destruct (env_write_text env path).
  - apply silent_add_file.
  - apply silent_raise.
Qed.

Lemma silent_write_numbered {X} stem (mk : X -> Artifact) l :
  (forall path, P (AWriteText path) = false) ->
  forall i, silent P (write_numbered env stem mk i l).
Proof.
  intros H. induction l as [|x l IH]; intros i; simpl.
  - apply silent_ret.
  - apply silent_bind; [now apply silent_write_text|intros _; apply IH].
Qed.

Lemma silent_setup :
  P ALaunchBrowser = false -> P ALaunchContext = false ->
  P AAddInitScript = false -> P ATracingStart = false ->
  P ANewPage = false -> silent P (setup env).
Proof.
  intros. unfold setup.
  repeat (apply silent_bind; [now apply silent_pw0|intros _]).
  now apply silent_pw0.
Qed.

Lemma silent_navigate :
  P AGoto = false -> P APrintLoaded = false ->
  silent P (navigate json_loads env).
Proof.
  intros. unfold navigate.
  apply silent_bind; [now apply silent_pw|intros _; now apply silent_act].
Qed.

Lemma silent_pulses n :
  P (ASleep 1250%Z) = false -> P (AEvaluate EScroll) = false ->
  P (AWaitForTimeout 250%Z) = false -> P (AEvaluate EResize) = false ->
  forall i, silent P (pulses json_loads env n i).
Proof.
  intros H1 H2 H3 H4. induction n as [|n IH]; intros i; simpl.
  - apply silent_ret.
  - apply silent_bind; [now apply silent_act|intros _].
    apply silent_bind; [|intros _; apply IH].
    apply silent_attempt.
    repeat (apply silent_bind; [now apply silent_pw|intros _]).
    now apply silent_pw.
Qed.

Lemma silent_poll n :
  P (AEvaluate ECharts) = false -> P (AEvaluate EJson) = false ->
  P (ASleep 1000%Z) = false ->
  forall i c j, silent P (poll json_loads env n i c j).
Proof.
  intros H1 H2 H3. induction n as [|n IH]; intros i c j; simpl.
  - apply silent_ret.
  - apply silent_bind; [now apply silent_attempt, silent_pw|].
    intros [c'|e].
    + apply silent_bind; [now apply silent_attempt, silent_pw|].
      intros [j'|e].
      * destruct (nonempty c' || nonempty j'); [apply silent_ret|].
        apply silent_bind; [now apply silent_act|intros _; apply IH].
      * apply silent_bind; [now apply silent_act|intros _; apply IH].
    + apply silent_bind; [now apply silent_act|intros _; apply IH].
Qed.

Lemma silent_snapshots polled :
  P (AEvaluate ECanvasText) = false ->
  P (AEvaluate ELocalStorage) = false ->
  P (AEvaluate ESessionStorage) = false ->
  silent P (snapshots json_loads env polled).
Proof.
  intros. unfold snapshots.
  repeat (apply silent_bind; [now apply silent_attempt, silent_pw|intros ?]).
  apply silent_ret.
Qed.

Lemma silent_markup_and_screenshot :
  P APageContent = false -> P AScreenshot = false ->
  P (AWriteText "page.html") = false ->
  silent P (markup_and_screenshot json_loads env).
Proof.
  intros H1 H2 H3. unfold markup_and_screenshot.
  apply silent_bind.
  { apply silent_attempt, silent_bind; [now apply silent_pw|].
    intros html. now apply silent_write_text. }
  intros _. apply silent_bind; [|intros _; apply silent_ret].
  apply silent_attempt, silent_bind; [now apply silent_pw|].
  intros _. apply silent_add_file.
Qed.

Lemma silent_capture_phase :
  (forall a, Observe.before_output a = true -> P a = false) ->
  silent P (capture_phase json_loads env).
Proof.
  intros H. unfold capture_phase, collect.
  apply silent_bind; [apply silent_setup; now apply H|intros _].
  apply silent_bind; [apply silent_navigate; now apply H|intros _].
  apply silent_bind; [apply silent_pulses; now apply H|intros _].
  apply silent_bind; [apply silent_poll; now apply H|intros polled].
  apply silent_snapshots; now apply H.
Qed.

End Silent.

Lemma no_teardown_before_output a :
  Observe.before_output a = true -> Observe.is_teardown a = false.
Proof. now destruct a. Qed.

(** *** Teardown calls *)

Definition full_teardown : list Action :=
  [ATracingStop; ACtxClose; ABrowserClose].

(** The teardown calls made so far are the first ones of the full
    sequence, and all of it when the computation completes. *)
Definition released {A} (r : Run A) : Prop :=
  (forall a, outcome r = Ok a ->
             filter Observe.is_teardown (trace r) = full_teardown) /\
  exists rest, (filter Observe.is_teardown (trace r) ++ rest)%list
               = full_teardown.

Lemma released_bind_silent {A B} (m : M A) (k : A -> M B) (st : St) :
  silent Observe.is_teardown m ->
  (forall a s, released (k a s)) ->
  released (bind m k st).
Proof.
  intros Hm Hk. unfold bind.
  destruct (outcome (m st)) as [a|e]; simpl.
  - destruct (Hk a (final (m st))) as [Hok Hpre].
    split; simpl; rewrite filter_app, Hm; simpl; assumption.
  - split; simpl; [discriminate|].
    rewrite Hm. now exists full_teardown.
Qed.

Lemma released_finish json_loads env merged c st :
  released (finish json_loads env merged c st).
Proof.
  unfold finish, write_text, bind, pw, add_file, read, act, raise. simpl.
  destruct (result (env_tracing_stop env)); simpl;
    [|split; [discriminate|now exists [ACtxClose; ABrowserClose]]].
  destruct (env_write_text env "summary.json"); simpl;
    [|split; [discriminate|now exists [ACtxClose; ABrowserClose]]].
  destruct (result (env_ctx_close env)); simpl;
    [|split; [discriminate|now exists [ABrowserClose]]].
  destruct (result (env_browser_close env)); simpl;
    (split; [try discriminate; reflexivity|now exists []]).
Qed.

Lemma released_output_phase json_loads env c st :
  released (output_phase json_loads env c st).
Proof.
  unfold output_phase.
  apply released_bind_silent; [apply silent_read|intros payloads s0].
  apply released_bind_silent; [now apply silent_write_numbered|intros _ s1].
  apply released_bind_silent; [now apply silent_write_numbered|intros _ s2].
  apply released_bind_silent.
  { destruct (nonempty (canvas_text c));
      [now apply silent_write_text|apply silent_ret]. }
  intros _ s3.
  apply released_bind_silent; [now apply silent_write_text|intros _ s4].
  apply released_bind_silent; [now apply silent_write_text|intros _ s5].
  apply released_bind_silent;
    [now apply silent_markup_and_screenshot|intros _ s6].
  apply released_finish.
Qed.

(** *** The listeners leave the files alone *)

Lemma files_dispatch json_loads evs st :
  files (dispatch json_loads evs st) = files st.
Proof.
  unfold dispatch. revert st.
  induction evs as [|ev evs IH]; intros st; simpl; [reflexivity|].
  rewrite IH. now destruct ev.
Qed.

(** *** Set-up and navigation *)

Lemma setup_ok env st :
  outcome (setup env st) = Ok tt ->
  final (setup env st) = st /\
  trace (setup env st)
  = [ALaunchBrowser; ALaunchContext; AAddInitScript; ATracingStart; ANewPage].
Proof.
  unfold setup, bind, pw0. cbn.
  destruct (env_launch env); cbn; [|discriminate].
  destruct (env_launch_context env); cbn; [|discriminate].
  destruct (env_add_init_script env); cbn; [|discriminate].
  destruct (env_tracing_start env); cbn; [|discriminate].
  destruct (env_new_page env); cbn; [|discriminate].
  now split.
Qed.

Lemma navigate_raises json_loads env e st :
  result (env_goto env) = Raise e ->
  navigate json_loads env st
  = mkRun (Raise e) (dispatch json_loads (events (env_goto env)) st) [AGoto].
Proof.
  intros H. unfold navigate, bind, pw. cbn. now rewrite H.
Qed.

End RunFacts.

(* ================================================================== *)
(** ** The session driver: navigation *)

(** C3, as stated, fails: [page.goto] is not guarded.  When it times out
    the exception leaves [main]: no pulse, no read of any channel, no file
    is written. *)
Lemma navigation_timeout_ends_the_run :
  let env := Session.with_goto
               (Session.mkOutcome [] (Session.Raise Session.TimeoutError))
               Session.calm in
  let r := Session.main RefJson.decode env in
  Session.outcome r = Session.Raise Session.TimeoutError /\
  Observe.count (fun a => match a with
                          | Session.AEvaluate _ | Session.AWriteText _ => true
                          | _ => false
                          end) (Session.trace r) = 0 /\
  Session.files (Session.final r) = [].
Proof. vm_compute. repeat split. Qed.

(** C3, amended: when the session was set up and [page.goto] raises (a
    navigation timeout, for one), [main] ends with that same exception
    right after the call: its effects are the set-up calls, the
    navigation and the exit of the [with] block, and no file is written. *)
Theorem navigation_failure_is_fatal
        (json_loads : string -> option JValue) (env : Session.Env)
        (e : Session.Exn) :
  Session.outcome (Session.setup env Session.init) = Session.Ok tt ->
  Session.result (Session.env_goto env) = Session.Raise e ->
  let r := Session.main json_loads env in
  Session.outcome r = Session.Raise e /\
  Session.trace r
  = [Session.ALaunchBrowser; Session.ALaunchContext; Session.AAddInitScript;
     Session.ATracingStart; Session.ANewPage; Session.AGoto;
     Session.APlaywrightExit] /\
  Session.files (Session.final r) = [].
Proof.
  intros Hsetup Hgoto r. subst r.
  destruct (RunFacts.setup_ok _ _ Hsetup) as [Hst Htr].
  assert (Hcap : Session.capture_phase json_loads env Session.init
                 = Session.mkRun (Session.Raise e)
                     (Session.dispatch json_loads
                        (Session.events (Session.env_goto env)) Session.init)
                     [Session.ALaunchBrowser; Session.ALaunchContext;
                      Session.AAddInitScript; Session.ATracingStart;
                      Session.ANewPage; Session.AGoto]).
  { unfold Session.capture_phase.
    rewrite (RunFacts.bind_ok _ _ _ Hsetup), Hst, Htr.
    rewrite RunFacts.bind_raise with (e := e);
      rewrite (RunFacts.navigate_raises json_loads env _ Hgoto); reflexivity. }
  unfold Session.main, Session.with_playwright.
  rewrite RunFacts.bind_raise with (e := e); rewrite Hcap; cbn.
  - repeat split. apply RunFacts.files_dispatch.
  - reflexivity.
Qed.

Lemma navigation_failure_is_fatal_witness :
  let env := Session.with_goto
               (Session.mkOutcome
                  [Session.OnRequest "t0" (Session.mkRequest "GET" "https://x/" "document")]
                  (Session.Raise (Session.PlaywrightError "net::ERR_ABORTED")))
               Session.calm in
  Session.outcome (Session.main RefJson.decode env)
  = Session.Raise (Session.PlaywrightError "net::ERR_ABORTED").
Proof.
  intros env.
  apply (proj1 (@navigation_failure_is_fatal RefJson.decode env
                  (Session.PlaywrightError "net::ERR_ABORTED")
                  eq_refl eq_refl)).
Defined.

Module PollFacts.
Import Session.

Section Poll.
Variable json_loads : string -> option JValue.
Variable env : Env.

(** One round of the loop, by cases on what the two reads answer. *)
Ltac round IH :=
  cbn [poll]; unfold bind, attempt, pw, act, ret; cbn -[Z.add Z.mul Z.of_nat];
  destruct (result (env_charts env _)) as [?c|?e]; cbn -[Z.add Z.mul Z.of_nat];
  [ destruct (result (env_json env _)) as [?j|?e]; cbn -[Z.add Z.mul Z.of_nat];
    [ destruct (nonempty _ || nonempty _); cbn -[Z.add Z.mul Z.of_nat] | ] | ];
  try match goal with
      | |- context [poll _ _ ?n ?i ?c ?j ?st] =>
          let H := fresh "H" in
          pose proof (IH i c j st) as H; cbn -[Z.add Z.mul Z.of_nat] in H;
          destruct (outcome (poll json_loads env n i c j st));
          cbn -[Z.add Z.mul Z.of_nat] in *
      end.

Lemma poll_returns n : forall i c j st,
  exists v, outcome (poll json_loads env n i c j st) = Ok v.
Proof.
  induction n as [|n IH]; intros i c j st.
  - now exists (c, j).
  - round IH; try (destruct H as [v Hv]; try discriminate);
      eexists; reflexivity.
Qed.






Lemma collect_trace st :
  trace (collect json_loads env st)
  = (trace (poll json_loads env 75 0 [] [] st)
       ++ [AEvaluate ECanvasText; AEvaluate ELocalStorage;
           AEvaluate ESessionStorage])%list.
Proof.
  unfold collect.
  destruct (poll_returns 75 0 [] [] st) as [v Hv].
  rewrite (RunFacts.bind_ok _ _ _ Hv). reflexivity.
Qed.

Lemma collect_returns st :
  exists c, outcome (collect json_loads env st) = Ok c.
Proof.
  unfold collect.
  destruct (poll_returns 75 0 [] [] st) as [v Hv].
  rewrite (RunFacts.bind_ok _ _ _ Hv). eexists. reflexivity.
Qed.

End Poll.

End PollFacts.


(* ================================================================== *)
(** ** The session driver: files *)

Module FileFacts.
Import Session.
Local Open Scope session_scope.

Lemma outcome_bind {A B} (m : M A) (k : A -> M B) (st : St) :
  outcome (bind m k st)
  = match outcome (m st) with
    | Ok a => outcome (k a (final (m st)))
    | Raise e => Raise e
    end.
Proof. unfold bind. now destruct (outcome (m st)). Qed.

Lemma final_bind {A B} (m : M A) (k : A -> M B) (st : St) :
  final (bind m k st)
  = match outcome (m st) with
    | Ok a => final (k a (final (m st)))
    | Raise e => final (m st)
    end.
Proof. unfold bind. now destruct (outcome (m st)). Qed.

(** A computation that writes no file. *)
Definition keeps_files {A} (m : M A) : Prop :=
  forall st, files (final (m st)) = files st.

Section Keeps.
Variable json_loads : string -> option JValue.
Variable env : Env.

Lemma keeps_ret {A} (a : A) : keeps_files (ret a).
Proof. intros st. reflexivity. Qed.

Lemma keeps_act a : keeps_files (act a).
Proof. intros st. reflexivity. Qed.

Lemma keeps_pw0 {A} a (r : Result A) : keeps_files (pw0 a r).
Proof. intros st. reflexivity. Qed.

Lemma keeps_pw {A} a (o : Outcome A) : keeps_files (pw json_loads a o).
Proof. intros st. apply RunFacts.files_dispatch. Qed.

Lemma keeps_bind {A B} (m : M A) (k : A -> M B) :
  keeps_files m -> (forall a, keeps_files (k a)) -> keeps_files (bind m k).
Proof.
  intros Hm Hk st. rewrite final_bind.
  destruct (outcome (m st)); [rewrite Hk|]; apply Hm.
Qed.

Lemma keeps_attempt {A} (m : M A) : keeps_files m -> keeps_files (attempt m).
Proof. intros Hm st. apply Hm. Qed.

Lemma keeps_pulses n : forall i, keeps_files (pulses json_loads env n i).
Proof.
  induction n as [|n IH]; intros i; cbn [pulses]; [apply keeps_ret|].
  apply keeps_bind; [apply keeps_act|intros _].
  apply keeps_bind; [|intros _; apply IH].
  apply keeps_attempt.
  repeat (apply keeps_bind; [apply keeps_pw|intros _]).
  apply keeps_pw.
Qed.

Lemma keeps_poll n : forall i c j, keeps_files (poll json_loads env n i c j).
Proof.
  induction n as [|n IH]; intros i c j; cbn [poll]; [apply keeps_ret|].
  apply keeps_bind; [apply keeps_attempt, keeps_pw|].
  intros [c'|e].
  - apply keeps_bind; [apply keeps_attempt, keeps_pw|].
    intros [j'|e].
    + destruct (nonempty c' || nonempty j'); [apply keeps_ret|].
      apply keeps_bind; [apply keeps_act|intros _; apply IH].
    + apply keeps_bind; [apply keeps_act|intros _; apply IH].
  - apply keeps_bind; [apply keeps_act|intros _; apply IH].
Qed.

Lemma keeps_capture_phase : keeps_files (capture_phase json_loads env).
Proof.
  unfold capture_phase, collect.
  apply keeps_bind.
  { unfold setup.
    repeat (apply keeps_bind; [apply keeps_pw0|intros _]).
    apply keeps_pw0. }
  intros _. apply keeps_bind.
  { apply keeps_bind; [apply keeps_pw|intros _; apply keeps_act]. }
  intros _. apply keeps_bind; [apply keeps_pulses|intros _].
  apply keeps_bind; [apply keeps_poll|intros polled].
  unfold snapshots.
  repeat (apply keeps_bind; [apply keeps_attempt, keeps_pw|intros ?]).
  apply keeps_ret.
Qed.

(** *** What the writes leave behind *)

Lemma write_text_ok path content st :
  outcome (write_text env path content st) = Ok tt ->
  final (write_text env path content st)
  = Observe.add_files [(path, content)] st.
Proof.
  unfold write_text, bind, act, add_file, raise. cbn.
  destruct (env_write_text env path); cbn; [reflexivity|discriminate].
Qed.

Lemma add_files_app fs gs st :
  Observe.add_files gs (Observe.add_files fs st)
  = Observe.add_files (fs ++ gs) st.
Proof. unfold Observe.add_files. cbn. now rewrite <- app_assoc. Qed.

Lemma write_numbered_ok {X} stem (mk : X -> Artifact) l : forall i st,
  outcome (write_numbered env stem mk i l st) = Ok tt ->
  final (write_numbered env stem mk i l st)
  = Observe.add_files (Observe.numbered stem mk i l) st.
Proof.
  induction l as [|x l IH]; intros i st; cbn [write_numbered Observe.numbered].
  - intros _. unfold Observe.add_files. cbn. rewrite app_nil_r.
    now destruct st.
  - rewrite outcome_bind, final_bind.
    destruct (outcome (write_text env _ (mk x) st)) as [[]|e] eqn:E;
      [|discriminate].
    intros H. rewrite (IH _ _ H), (write_text_ok _ _ _ E).
    apply add_files_app.
Qed.

Lemma add_files_nil st : Observe.add_files [] st = st.
Proof. unfold Observe.add_files. rewrite app_nil_r. now destruct st. Qed.

Lemma dispatch_add_files evs : forall fs st,
  dispatch json_loads evs (Observe.add_files fs st)
  = Observe.add_files fs (dispatch json_loads evs st).
Proof.
  unfold dispatch.
  induction evs as [|ev evs IH]; intros fs st; cbn [fold_left];
    [reflexivity|].
  rewrite <- IH. f_equal. now destruct ev.
Qed.

Lemma markup_and_screenshot_run st :
  outcome (markup_and_screenshot json_loads env st) = Ok tt /\
  final (markup_and_screenshot json_loads env st)
  = Observe.add_files (Observe.guarded_files env)
      (dispatch json_loads (events (env_screenshot env))
         (dispatch json_loads (events (env_content env)) st)).
Proof.
  split; [reflexivity|].
  unfold markup_and_screenshot, write_text, bind, attempt, pw, act,
    add_file, raise, ret, Observe.guarded_files.
  cbn.
  set (d := dispatch json_loads (events (env_content env)) st).
  destruct (result (env_content env)) as [html|e]; cbn.
  - destruct (env_write_text env "page.html") as [[]|e]; cbn.
    + change (mkSt (req_log d) (json_payloads d)
                   (files d ++ [("page.html", FHtml html)]))
        with (Observe.add_files [("page.html", FHtml html)] d).
      rewrite dispatch_add_files.
      destruct (result (env_screenshot env)) as [[]|e]; cbn.
      * unfold Observe.add_files. cbn. now rewrite <- app_assoc.
      * reflexivity.
    + destruct (result (env_screenshot env)) as [[]|e']; cbn.
      * reflexivity.
      * now rewrite add_files_nil.
  - destruct (result (env_screenshot env)) as [[]|e']; cbn.
    + reflexivity.
    + now rewrite add_files_nil.
Qed.

Lemma req_log_add_files fs st :
  req_log (Observe.add_files fs st) = req_log st.
Proof. reflexivity. Qed.

Lemma files_add_files fs st :
  files (Observe.add_files fs st) = (files st ++ fs)%list.
Proof. reflexivity. Qed.

(** Peel the first step of a computation known to end well. *)
Ltac step H E :=
  rewrite outcome_bind in H; rewrite final_bind;
  match type of H with
  | context [outcome (?m ?s)] =>
      destruct (outcome (m s)) as [[]|?e] eqn:E; [|discriminate H]
  end.

(** The same for a step that reads a variable. *)
Ltac step_read H :=
  rewrite outcome_bind in H; rewrite final_bind;
  cbn [read outcome final] in H |- *.

Lemma finish_ok merged c st :
  outcome (finish json_loads env merged c st) = Ok tt ->
  files (final (finish json_loads env merged c st))
  = (files st
       ++ [("trace.zip", FTrace);
           ("summary.json",
            FSummary (summary_of env
                        (req_log (dispatch json_loads
                                    (events (env_tracing_stop env)) st))
                        merged c))])%list.
Proof.
  intros H. unfold finish in *.
  step H E1. clear E1.
  change (final (pw json_loads ATracingStop (env_tracing_stop env) st))
    with (dispatch json_loads (events (env_tracing_stop env)) st) in *.
  set (d := dispatch json_loads (events (env_tracing_stop env)) st) in *.
  step H E2. clear E2.
  change (final (add_file "trace.zip" FTrace d))
    with (Observe.add_files [("trace.zip", FTrace)] d) in *.
  set (d1 := Observe.add_files [("trace.zip", FTrace)] d) in *.
  step_read H.
  change (req_log d1) with (req_log d) in *.
  step H E4.
  rewrite (write_text_ok _ _ _ E4) in *. clear E4.
  step H E5. clear E5.
  change (final (act ?a ?s)) with s in *.
  step H E6. clear E6.
  rewrite !keeps_pw. subst d1.
  rewrite !files_add_files. subst d.
  rewrite RunFacts.files_dispatch, <- app_assoc. reflexivity.
Qed.

Lemma output_phase_ok c st :
  outcome (output_phase json_loads env c st) = Ok tt ->
  files (final (output_phase json_loads env c st))
  = (files st
       ++ Observe.session_files env c
            (json_payloads st ++ injected_json c)
            (Observe.log_at_summary json_loads env st))%list.
Proof.
  intros H. unfold output_phase in *.
  step_read H.
  set (merged := (json_payloads st ++ injected_json c)%list) in *.
  step H E1. rewrite (write_numbered_ok _ _ _ _ _ E1) in *.
  clear E1.
  step H E2. rewrite (write_numbered_ok _ _ _ _ _ E2) in *.
  clear E2. rewrite add_files_app in *.
  step H E3.
  assert (E3' :
    final ((if nonempty (canvas_text c)
            then write_text env "canvas-text.json"
                   (FCanvasText (canvas_text c))
            else ret tt)
             (Observe.add_files
                (Observe.numbered "xhr-" FPayload 0 merged
                 ++ Observe.numbered "chart-" FChart 0 (charts c)) st))
    = Observe.add_files
        (if nonempty (canvas_text c)
         then [("canvas-text.json", FCanvasText (canvas_text c))]
         else [])
        (Observe.add_files
           (Observe.numbered "xhr-" FPayload 0 merged
            ++ Observe.numbered "chart-" FChart 0 (charts c)) st)).
  { destruct (nonempty (canvas_text c)).
    - apply write_text_ok, E3.
    - now rewrite add_files_nil. }
  rewrite E3' in *. clear E3 E3'. rewrite add_files_app in *.
  step H E4. rewrite (write_text_ok _ _ _ E4) in *. clear E4.
  rewrite add_files_app in *.
  step H E5. rewrite (write_text_ok _ _ _ E5) in *. clear E5.
  rewrite add_files_app in *.
  step H E6. clear E6.
  rewrite (proj2 (markup_and_screenshot_run _)) in *.
  rewrite !dispatch_add_files, add_files_app in *.
  rewrite (finish_ok _ _ _ H).
  rewrite dispatch_add_files, req_log_add_files, files_add_files.
  rewrite !RunFacts.files_dispatch.
  unfold Observe.session_files, Observe.log_at_summary.
  rewrite <- !app_assoc. reflexivity.
Qed.

End Keeps.

(** The files of a session that ran to its end. *)
Lemma files_on_success json_loads env :
  outcome (main json_loads env) = Ok tt ->
  exists c,
    outcome (capture_phase json_loads env init) = Ok c /\
    files (final (main json_loads env))
    = Observe.session_files env c
        (json_payloads (final (capture_phase json_loads env init))
           ++ injected_json c)
        (Observe.log_at_summary json_loads env
           (final (capture_phase json_loads env init))).
Proof.
  unfold main, with_playwright. cbn [outcome final].
  intros H. rewrite outcome_bind in H. rewrite final_bind.
  destruct (outcome (capture_phase json_loads env init)) as [c|e] eqn:E;
    [|discriminate H].
  exists c. split; [reflexivity|].
  rewrite (output_phase_ok _ _ _ _ H), keeps_capture_phase. reflexivity.
Qed.

(** *** Files by name *)

Lemma named_app path fs gs :
  Observe.named path (fs ++ gs)
  = (Observe.named path fs ++ Observe.named path gs)%list.
Proof. apply filter_app. Qed.

Lemma named_numbered {X} path stem (mk : X -> Artifact) l :
  (forall s, String.eqb (stem ++ s) path = false) ->
  forall i, Observe.named path (Observe.numbered stem mk i l) = [].
Proof.
  intros H. induction l as [|x l IH]; intros i; [reflexivity|].
  cbn [Observe.numbered]. unfold Observe.named in *.
  cbn [filter fst]. now rewrite H, IH.
Qed.

Lemma named_guarded path env :
  String.eqb "page.html" path = false ->
  String.eqb "screenshot.png" path = false ->
  Observe.named path (Observe.guarded_files env) = [].
Proof.
  intros H1 H2. unfold Observe.guarded_files, Observe.named.
  rewrite filter_app.
  destruct (result (env_content env));
    destruct (env_write_text env "page.html");
    destruct (result (env_screenshot env));
    cbn [filter fst app]; rewrite ?H1, ?H2; reflexivity.
Qed.

Lemma numbered_contents {X} stem (mk : X -> Artifact) l : forall i,
  map snd (Observe.numbered stem mk i l) = map mk l.
Proof.
  induction l as [|x l IH]; intros i; [reflexivity|].
  cbn [Observe.numbered map snd]. now rewrite IH.
Qed.

End FileFacts.

(** C9, as stated, fails: the canvas-text file is written only when the
    captured list is non-empty.  A session in which nothing was drawn
    ends well, with both storage files and no canvas-text file. *)
Lemma no_canvas_text_file_without_events :
  let r := Session.main RefJson.decode Session.calm in
  Session.outcome r = Session.Ok tt /\
  Observe.named "canvas-text.json" (Session.files (Session.final r)) = [] /\
  length (Observe.named "storage-local.json" (Session.files (Session.final r))) = 1 /\
  length (Observe.named "storage-session.json" (Session.files (Session.final r))) = 1.
Proof. vm_compute. repeat split. Qed.

(** C9, amended: a session that runs to its end has written the
    canvas-text file once when the captured canvas-text list is non-empty
    and not at all when it is empty, and each of the two storage files
    exactly once. *)
Theorem canvas_text_file_only_when_captured
        (json_loads : string -> option JValue) (env : Session.Env) :
  Session.outcome (Session.main json_loads env) = Session.Ok tt ->
  exists c,
    Session.outcome (Session.capture_phase json_loads env Session.init)
    = Session.Ok c /\
    let written := Session.files (Session.final (Session.main json_loads env)) in
    length (Observe.named "canvas-text.json" written)
    = (if Session.nonempty (Session.canvas_text c) then 1 else 0) /\
    length (Observe.named "storage-local.json" written) = 1 /\
    length (Observe.named "storage-session.json" written) = 1.
Proof.
  intros H.
  destruct (FileFacts.files_on_success _ _ H) as (c & Hc & Hf).
  exists c. split; [exact Hc|]. cbv zeta. rewrite Hf.
  unfold Observe.session_files.
  rewrite !FileFacts.named_app.
  rewrite !FileFacts.named_numbered by (intros s; reflexivity).
  rewrite !FileFacts.named_guarded by reflexivity.
  destruct (Session.nonempty (Session.canvas_text c)); repeat split.
Qed.

Lemma canvas_text_file_only_when_captured_witness :
  let env := Session.with_canvas_text
               (Session.quiet [JObj [("kind", JStr "fill"); ("text", JStr "42")]])
               Session.calm in
  exists c,
    Session.outcome (Session.capture_phase RefJson.decode env Session.init)
    = Session.Ok c /\
    let written := Session.files (Session.final (Session.main RefJson.decode env)) in
    length (Observe.named "canvas-text.json" written)
    = (if Session.nonempty (Session.canvas_text c) then 1 else 0) /\
    length (Observe.named "storage-local.json" written) = 1 /\
    length (Observe.named "storage-session.json" written) = 1.
Proof.
  intros env.
  apply (@canvas_text_file_only_when_captured RefJson.decode env).
  vm_compute. reflexivity.
Defined.

(* ================================================================== *)
(** ** The session driver: which failures stay local *)

Module Isolation.
Import Session.
Local Open Scope session_scope.

(** Two states that differ at most in the page markup and the
    screenshot. *)
Definition alike (s1 s2 : St) : Prop :=
  req_log s1 = req_log s2 /\
  json_payloads s1 = json_payloads s2 /\
  Observe.unguarded (files s1) = Observe.unguarded (files s2).

(** Two computations that end the same way from such states, in such
    states. *)
Definition similar {A} (m1 m2 : M A) : Prop :=
  forall s1 s2, alike s1 s2 ->
    outcome (m1 s1) = outcome (m2 s2) /\
    alike (final (m1 s1)) (final (m2 s2)).

Lemma alike_refl s : alike s s.
Proof. now repeat split. Qed.

Lemma alike_deliver json_loads ev s1 s2 :
  alike s1 s2 -> alike (deliver json_loads s1 ev) (deliver json_loads s2 ev).
Proof.
  intros (H1 & H2 & H3).
  destruct ev; unfold alike; cbn [deliver req_log json_payloads files];
    rewrite ?H1, ?H2; now repeat split.
Qed.

Lemma alike_dispatch json_loads evs : forall s1 s2,
  alike s1 s2 ->
  alike (dispatch json_loads evs s1) (dispatch json_loads evs s2).
Proof.
  unfold dispatch.
  induction evs as [|ev evs IH]; intros s1 s2 H; cbn [fold_left];
    [exact H|].
  now apply IH, alike_deliver.
Qed.

Lemma alike_add_files fs gs s1 s2 :
  alike s1 s2 ->
  Observe.unguarded fs = Observe.unguarded gs ->
  alike (Observe.add_files fs s1) (Observe.add_files gs s2).
Proof.
  intros (H1 & H2 & H3) H. repeat split; cbn; try assumption.
  unfold Observe.unguarded in *. rewrite !filter_app. congruence.
Qed.

Lemma unguarded_guarded_files env :
  Observe.unguarded (Observe.guarded_files env) = [].
Proof.
  unfold Observe.guarded_files, Observe.unguarded.
  destruct (result (env_content env));
    destruct (env_write_text env "page.html");
    destruct (result (env_screenshot env)); reflexivity.
Qed.

Section Similar.
Variable json_loads : string -> option JValue.

(** Up to the first file written, the guarded answers play no part. *)
Section Degraded.
Variable env : Env.
Variable markup : Result string.
Variable markup_write shot : Result unit.
Let env' := degrade markup markup_write shot env.

Lemma pulses_degrade n : forall i st,
  pulses json_loads env' n i st = pulses json_loads env n i st.
Proof.
  induction n as [|n IH]; intros i st; [reflexivity|].
  cbn [pulses]. unfold bind at 1 3. cbn [act outcome final trace].
  unfold bind at 1 3.
  change (env_scroll env') with (env_scroll env).
  change (env_wait env') with (env_wait env).
  change (env_resize env') with (env_resize env).
  cbn [attempt outcome final trace]. now rewrite IH.
Qed.

Lemma poll_degrade n : forall i c j st,
  poll json_loads env' n i c j st = poll json_loads env n i c j st.
Proof.
  induction n as [|n IH]; intros i c j st; [reflexivity|].
  cbn [poll].
  change (env_charts env') with (env_charts env).
  change (env_json env') with (env_json env).
  unfold bind, attempt, pw, act, ret. cbn [outcome final trace].
  destruct (result (env_charts env i)) as [c'|e]; [|now rewrite IH].
  destruct (result (env_json env i)) as [j'|e]; [|now rewrite IH].
  destruct (nonempty c' || nonempty j'); [reflexivity|now rewrite IH].
Qed.

Lemma capture_phase_degrade st :
  capture_phase json_loads env' st = capture_phase json_loads env st.
Proof.
  unfold capture_phase, collect.
  change (setup env') with (setup env).
  change (navigate json_loads env') with (navigate json_loads env).
  unfold bind.
  destruct (outcome (setup env st)); [|reflexivity].
  destruct (outcome (navigate json_loads env (final (setup env st))));
    [|reflexivity].
  rewrite pulses_degrade.
  destruct (outcome (pulses json_loads env 8 0 _)); [|reflexivity].
  rewrite poll_degrade.
  destruct (outcome (poll json_loads env 75 0 [] [] _)); reflexivity.
Qed.

End Degraded.

Lemma similar_ret {A} (a : A) : similar (ret a) (ret a).
Proof. intros s1 s2 H. now split. Qed.

Lemma similar_raise {A} e : similar (@raise A e) (raise e).
Proof. intros s1 s2 H. now split. Qed.

Lemma similar_act a : similar (act a) (act a).
Proof. intros s1 s2 H. now split. Qed.

Lemma similar_pw {A} a (o : Outcome A) :
  similar (pw json_loads a o) (pw json_loads a o).
Proof.
  intros s1 s2 H. split; [reflexivity|]. now apply alike_dispatch.
Qed.

Lemma similar_add_file path content :
  similar (add_file path content) (add_file path content).
Proof.
  intros s1 s2 H. split; [reflexivity|].
  now apply (alike_add_files [(path, content)] [(path, content)]).
Qed.

Lemma similar_read_req_log : similar (read req_log) (read req_log).
Proof. intros s1 s2 H. split; [|exact H]. cbn. f_equal. apply H. Qed.

Lemma similar_read_json_payloads :
  similar (read json_payloads) (read json_payloads).
Proof. intros s1 s2 H. split; [|exact H]. cbn. f_equal. apply H. Qed.

Lemma similar_bind {A B} (m1 m2 : M A) (k1 k2 : A -> M B) :
  similar m1 m2 -> (forall a, similar (k1 a) (k2 a)) ->
  similar (bind m1 k1) (bind m2 k2).
Proof.
  intros Hm Hk s1 s2 H.
  rewrite !FileFacts.outcome_bind, !FileFacts.final_bind.
  destruct (Hm s1 s2 H) as [Ho Hf]. rewrite Ho.
  destruct (outcome (m2 s2)) as [a|e]; [now apply Hk|now split].
Qed.

Lemma similar_write_text e1 e2 path content :
  env_write_text e1 path = env_write_text e2 path ->
  similar (write_text e1 path content) (write_text e2 path content).
Proof.
  intros E. unfold write_text. rewrite E.
  apply similar_bind; [apply similar_act|intros _].
  destruct (env_write_text e2 path);
    [apply similar_add_file|apply similar_raise].
Qed.

Lemma similar_write_numbered {X} e1 e2 stem (mk : X -> Artifact) l :
  (forall s, env_write_text e1 (stem ++ s) = env_write_text e2 (stem ++ s)) ->
  forall i, similar (write_numbered e1 stem mk i l)
                    (write_numbered e2 stem mk i l).
Proof.
  intros E. induction l as [|x l IH]; intros i; cbn [write_numbered].
  - apply similar_ret.
  - apply similar_bind; [now apply similar_write_text|intros _; apply IH].
Qed.

Lemma similar_finish env merged c :
  similar (finish json_loads env merged c) (finish json_loads env merged c).
Proof.
  unfold finish.
  apply similar_bind; [apply similar_pw|intros _].
  apply similar_bind; [apply similar_add_file|intros _].
  apply similar_bind; [apply similar_read_req_log|intros logged].
  apply similar_bind; [now apply similar_write_text|intros _].
  apply similar_bind; [apply similar_act|intros _].
  apply similar_bind; [apply similar_pw|intros _].
  apply similar_pw.
Qed.

(** The guarded block ends well whatever happens inside, and what
    happens inside shows only in the two guarded files. *)
Lemma similar_markup_and_screenshot env markup markup_write shot :
  similar (markup_and_screenshot json_loads
             (degrade markup markup_write shot env))
          (markup_and_screenshot json_loads env).
Proof.
  intros s1 s2 H.
  destruct (FileFacts.markup_and_screenshot_run json_loads
              (degrade markup markup_write shot env) s1) as [O1 F1].
  destruct (FileFacts.markup_and_screenshot_run json_loads env s2)
    as [O2 F2].
  rewrite O1, O2, F1, F2. split; [reflexivity|].
  apply alike_add_files.
  - cbn [degrade with_screenshot_result with_markup_write
           with_content_result env_screenshot env_content events].
    now apply alike_dispatch, alike_dispatch.
  - now rewrite !unguarded_guarded_files.
Qed.

Lemma similar_output_phase env markup markup_write shot c :
  similar (output_phase json_loads (degrade markup markup_write shot env) c)
          (output_phase json_loads env c).
Proof.
  unfold output_phase.
  apply similar_bind; [apply similar_read_json_payloads|intros payloads].
  apply similar_bind;
    [apply similar_write_numbered; intros s; reflexivity|intros _].
  apply similar_bind;
    [apply similar_write_numbered; intros s; reflexivity|intros _].
  apply similar_bind.
  { destruct (nonempty (canvas_text c));
      [now apply similar_write_text|apply similar_ret]. }
  intros _.
  apply similar_bind; [now apply similar_write_text|intros _].
  apply similar_bind; [now apply similar_write_text|intros _].
  apply similar_bind; [apply similar_markup_and_screenshot|intros _].
  exact (similar_finish env _ c).
Qed.

End Similar.

(** *** An unguarded write that fails is the last thing done *)

Definition stops_at {A} (path : string) (e : Exn) (r : Run A) : Prop :=
  In (AWriteText path) (trace r) ->
  outcome r = Raise e /\
  exists before, trace r = (before ++ [AWriteText path])%list.

Section Stops.
Variable json_loads : string -> option JValue.
Variable env : Env.
Variable path : string.
Variable e : Exn.
Hypothesis fails : env_write_text env path = Raise e.
Hypothesis unguarded : path <> "page.html".

Lemma stops_silent {A} (m : M A) st :
  RunFacts.silent (Observe.is_write path) m -> stops_at path e (m st).
Proof.
  intros Hm Hin. exfalso.
  assert (H : In (AWriteText path)
                 (filter (Observe.is_write path) (trace (m st)))).
  { apply filter_In. split; [exact Hin|]. cbn. apply String.eqb_refl. }
  now rewrite Hm in H.
Qed.

Lemma stops_bind {A B} (m : M A) (k : A -> M B) st :
  stops_at path e (m st) ->
  (forall a s, stops_at path e (k a s)) ->
  stops_at path e (bind m k st).
Proof.
  intros Hm Hk. unfold stops_at, bind.
  destruct (outcome (m st)) as [a|e'] eqn:E; cbn [trace outcome].
  - intros Hin. apply in_app_or in Hin. destruct Hin as [Hin|Hin].
    + destruct (Hm Hin) as [Hr _]. congruence.
    + destruct (Hk a (final (m st)) Hin) as [Hr [before Ht]].
      split; [exact Hr|]. exists (trace (m st) ++ before)%list.
      now rewrite Ht, app_assoc.
  - intros Hin. destruct (Hm Hin) as [Hr Ht]. split; [congruence|exact Ht].
Qed.

Lemma is_write_other p :
  p <> path -> Observe.is_write path (AWriteText p) = false.
Proof. intros H. cbn. now apply String.eqb_neq. Qed.

Lemma stops_write_text p content st :
  stops_at path e (write_text env p content st).
Proof.
  destruct (string_dec p path) as [->|Hp].
  - intros _. unfold write_text, bind, act, raise. cbn. rewrite fails. cbn.
    split; [reflexivity|now exists []].
  - apply stops_silent, RunFacts.silent_write_text.
    now apply is_write_other.
Qed.

Lemma stops_write_numbered {X} stem (mk : X -> Artifact) l : forall i st,
  stops_at path e (write_numbered env stem mk i l st).
Proof.
  induction l as [|x l IH]; intros i st; cbn [write_numbered].
  - apply stops_silent, RunFacts.silent_ret.
  - apply stops_bind; [apply stops_write_text|intros _ s; apply IH].
Qed.

Lemma stops_finish merged c st :
  stops_at path e (finish json_loads env merged c st).
Proof.
  unfold finish.
  apply stops_bind; [now apply stops_silent, RunFacts.silent_pw|intros _ s1].
  apply stops_bind; [apply stops_silent, RunFacts.silent_add_file|intros _ s2].
  apply stops_bind; [apply stops_silent, RunFacts.silent_read|intros logged s3].
  apply stops_bind; [apply stops_write_text|intros _ s4].
  apply stops_bind; [now apply stops_silent, RunFacts.silent_act|intros _ s5].
  apply stops_bind; [now apply stops_silent, RunFacts.silent_pw|intros _ s6].
  now apply stops_silent, RunFacts.silent_pw.
Qed.

Lemma stops_output_phase c st :
  stops_at path e (output_phase json_loads env c st).
Proof.
  unfold output_phase.
  apply stops_bind; [apply stops_silent, RunFacts.silent_read|intros payloads s0].
  apply stops_bind; [apply stops_write_numbered|intros _ s1].
  apply stops_bind; [apply stops_write_numbered|intros _ s2].
  apply stops_bind.
  { destruct (nonempty (canvas_text c));
      [apply stops_write_text|apply stops_silent, RunFacts.silent_ret]. }
  intros _ s3.
  apply stops_bind; [apply stops_write_text|intros _ s4].
  apply stops_bind; [apply stops_write_text|intros _ s5].
  apply stops_bind; [|intros _ s6; apply stops_finish].
  apply stops_silent, RunFacts.silent_markup_and_screenshot;
    try reflexivity.
  apply is_write_other. congruence.
Qed.

Lemma stops_main :
  In (AWriteText path) (trace (main json_loads env)) ->
  outcome (main json_loads env) = Raise e /\
  exists before,
    trace (main json_loads env)
    = (before ++ [AWriteText path; APlaywrightExit])%list.
Proof.
  unfold main, with_playwright. cbn [outcome trace].
  intros Hin. apply in_app_or in Hin.
  destruct Hin as [Hin|[Hin|[]]]; [|discriminate Hin].
  assert (H : stops_at path e
                (bind (capture_phase json_loads env)
                      (fun c => output_phase json_loads env c) init)).
  { apply stops_bind.
    - apply stops_silent, RunFacts.silent_capture_phase.
      intros a Ha. now destruct a.
    - intros c s. apply stops_output_phase. }
  destruct (H Hin) as [Hr [before Ht]].
  split; [exact Hr|]. exists before.
  now rewrite Ht, <- app_assoc.
Qed.

End Stops.

End Isolation.

(** C7, as stated, fails: only the page markup and the screenshot are
    written under a guard.  Here one payload was captured and the write of
    its file fails: [main] ends there, and neither the storage snapshots
    nor the summary are written, although nothing stood in their way. *)
Lemma failed_payload_write_blocks_the_rest :
  let env :=
    Session.with_write_text
      (fun path => if String.eqb path "xhr-00.json"
                   then Session.Raise (Session.OSError "permission denied")
                   else Session.Ok tt)
      (Session.with_json
         (fun _ => Session.quiet [mkEntry "fetch" "/api/data" (JObj [])])
         Session.calm) in
  let r := Session.main RefJson.decode env in
  Session.env_write_text env "summary.json" = Session.Ok tt /\
  Session.outcome r = Session.Raise (Session.OSError "permission denied") /\
  Session.files (Session.final r) = [].
Proof. vm_compute. repeat split. Qed.

(** C7, amended: the page-markup and the screenshot artifacts are
    isolated from the rest: whatever [page.content()] answers, however
    the write of [page.html] ends and whatever [page.screenshot()]
    answers, the session ends the same way and every other artifact is
    written with the same content, in the same order.  The other writes
    are not isolated from each other: when [main] attempts to write a file
    other than [page.html] and that write fails, [main] ends with that
    exception, and the attempt is the last thing it did before leaving the
    [with] block. *)
Theorem guarded_artifacts_are_isolated
        (json_loads : string -> option JValue) (env : Session.Env) :
  (forall (markup : Session.Result string)
          (markup_write shot : Session.Result unit),
      let env' := Session.degrade markup markup_write shot env in
      Session.outcome (Session.main json_loads env')
      = Session.outcome (Session.main json_loads env) /\
      Observe.unguarded
        (Session.files (Session.final (Session.main json_loads env')))
      = Observe.unguarded
          (Session.files (Session.final (Session.main json_loads env)))) /\
  (forall path e,
      path <> "page.html" ->
      Session.env_write_text env path = Session.Raise e ->
      In (Session.AWriteText path) (Session.trace (Session.main json_loads env)) ->
      Session.outcome (Session.main json_loads env) = Session.Raise e /\
      exists before,
        Session.trace (Session.main json_loads env)
        = (before ++ [Session.AWriteText path; Session.APlaywrightExit])%list).
Proof.
  split.
  - intros markup markup_write shot env'. subst env'.
    unfold Session.main, Session.with_playwright.
    cbn [Session.outcome Session.final].
    rewrite !FileFacts.outcome_bind, !FileFacts.final_bind.
    rewrite Isolation.capture_phase_degrade.
    destruct (Session.outcome (Session.capture_phase json_loads env Session.init))
      as [c|e]; [|now split].
    set (st := Session.final (Session.capture_phase json_loads env Session.init)).
    destruct (@Isolation.similar_output_phase json_loads env markup markup_write
                shot c st st (Isolation.alike_refl st)) as [Ho (_ & _ & Hf)].
    now split.
  - intros path e Hp He Hin. now apply Isolation.stops_main.
Qed.

Lemma guarded_artifacts_are_isolated_witness :
  let env :=
    Session.with_write_text
      (fun path => if String.eqb path "storage-session.json"
                   then Session.Raise (Session.OSError "disk full")
                   else Session.Ok tt)
      Session.calm in
  Session.outcome (Session.main RefJson.decode env)
  = Session.Raise (Session.OSError "disk full") /\
  exists before,
    Session.trace (Session.main RefJson.decode env)
    = (before ++ [Session.AWriteText "storage-session.json";
                  Session.APlaywrightExit])%list.
Proof.
  intros env.
  apply (proj2 (guarded_artifacts_are_isolated RefJson.decode env)
               "storage-session.json" (Session.OSError "disk full")).
  - discriminate.
  - reflexivity.
  - vm_compute. repeat (try (left; reflexivity); right).
Defined.

Example screenshot_failure_changes_nothing_else :
  let env := Session.with_canvas_text (Session.quiet [JStr "42"]) Session.calm in
  let env' := Session.degrade (Session.Ok "<html></html>") (Session.Ok tt)
                (Session.Raise (Session.PlaywrightError "screenshot")) env in
  map fst (Session.files (Session.final (Session.main RefJson.decode env')))
  = ["canvas-text.json"; "storage-local.json"; "storage-session.json";
     "page.html"; "trace.zip"; "summary.json"].
Proof. vm_compute. reflexivity. Qed.

(* ================================================================== *)
(** ** The session driver: time spent waiting *)

Module TimingFacts.
Import Session.

Lemma slept_app t u :
  Observe.slept (t ++ u) = (Observe.slept t + Observe.slept u)%Z.
Proof.
  induction t as [|a t IH]; [reflexivity|].
  cbn [app Observe.slept]. destruct a; rewrite ?IH; lia.
Qed.

Lemma slept_silent t :
  filter Measure.is_sleep t = [] -> Observe.slept t = 0%Z.
Proof.
  induction t as [|a t IH]; [reflexivity|].
  destruct a; cbn [filter Measure.is_sleep Observe.slept];
    try exact IH; discriminate.
Qed.

Section Phases.
Variable json_loads : string -> option JValue.
Variable env : Env.

Lemma pulses_run n : forall i st,
  outcome (pulses json_loads env n i st) = Ok tt /\
  Observe.slept (trace (pulses json_loads env n i st))
  = (Z.of_nat n * 1250)%Z /\
  Observe.count (Observe.is_eval EScroll)
                (trace (pulses json_loads env n i st)) = n /\
  Observe.count (Observe.is_eval EResize)
                (trace (pulses json_loads env n i st)) <= n.
Proof.
  unfold Observe.count.
  induction n as [|n IH]; intros i st; [now repeat split|].
  cbn [pulses]. unfold bind, attempt, pw, act.
  cbn -[Z.add Z.mul Z.of_nat].
  destruct (result (env_scroll env i)); cbn -[Z.add Z.mul Z.of_nat];
    [destruct (result (env_wait env i)); cbn -[Z.add Z.mul Z.of_nat];
     [destruct (result (env_resize env i)); cbn -[Z.add Z.mul Z.of_nat]|]|];
    match goal with
    | |- context [pulses _ _ n (S i) ?s] =>
        destruct (IH (S i) s) as (H1 & H2 & H3 & H4)
    end;
    rewrite H1; cbn -[Z.add Z.mul Z.of_nat];
    (split; [reflexivity|]); (split; [lia|]); split; lia.
Qed.

Lemma poll_wait n : forall i c j st,
  Observe.slept (trace (poll json_loads env n i c j st))
  = (1000 * Z.of_nat (Measure.rounds_without_signal env n i))%Z /\
  Observe.count (Observe.is_eval ECharts)
                (trace (poll json_loads env n i c j st))
  = Nat.min n (S (Measure.rounds_without_signal env n i)).
Proof.
  unfold Observe.count.
  induction n as [|n IH]; intros i c j st; [now split|].
  cbn [poll Measure.rounds_without_signal]. unfold Measure.signal.
  unfold bind, attempt, pw, act, ret. cbn -[Z.add Z.mul Z.of_nat Nat.min].
  destruct (result (env_charts env i)) as [c'|e];
    cbn -[Z.add Z.mul Z.of_nat Nat.min];
    [destruct (result (env_json env i)) as [j'|e];
     cbn -[Z.add Z.mul Z.of_nat Nat.min];
     [destruct (nonempty c' || nonempty j');
      cbn -[Z.add Z.mul Z.of_nat Nat.min]|]|];
    try match goal with
    | |- context [poll _ _ n (S i) ?c0 ?j0 ?s] =>
        destruct (IH (S i) c0 j0 s) as (H1 & H2);
        destruct (outcome (poll json_loads env n (S i) c0 j0 s));
        cbn -[Z.add Z.mul Z.of_nat Nat.min] in *
    end;
    split; lia.
Qed.

Lemma trace_bind {A B} (m : M A) (k : A -> M B) (st : St) :
  trace (bind m k st)
  = (trace (m st)
       ++ match outcome (m st) with
          | Ok a => trace (k a (final (m st)))
          | Raise _ => []
          end)%list.
Proof.
  unfold bind. destruct (outcome (m st)); cbn [trace];
    [reflexivity|now rewrite app_nil_r].
Qed.

Lemma silent_finish P merged c :
  (forall a, Measure.during_output a = true -> P a = false) ->
  RunFacts.silent P (finish json_loads env merged c).
Proof.
  intros H. unfold finish.
  apply RunFacts.silent_bind; [now apply RunFacts.silent_pw, H|intros _].
  apply RunFacts.silent_bind; [apply RunFacts.silent_add_file|intros _].
  apply RunFacts.silent_bind; [apply RunFacts.silent_read|intros logged].
  apply RunFacts.silent_bind;
    [now apply RunFacts.silent_write_text, H|intros _].
  apply RunFacts.silent_bind; [now apply RunFacts.silent_act, H|intros _].
  apply RunFacts.silent_bind; [now apply RunFacts.silent_pw, H|intros _].
  now apply RunFacts.silent_pw, H.
Qed.

Lemma silent_output_phase P c :
  (forall a, Measure.during_output a = true -> P a = false) ->
  RunFacts.silent P (output_phase json_loads env c).
Proof.
  intros H. unfold output_phase.
  apply RunFacts.silent_bind; [apply RunFacts.silent_read|intros payloads].
  apply RunFacts.silent_bind;
    [apply RunFacts.silent_write_numbered; intros p; now apply H|intros _].
  apply RunFacts.silent_bind;
    [apply RunFacts.silent_write_numbered; intros p; now apply H|intros _].
  apply RunFacts.silent_bind.
  { destruct (nonempty (canvas_text c));
      [now apply RunFacts.silent_write_text, H|apply RunFacts.silent_ret]. }
  intros _.
  apply RunFacts.silent_bind;
    [now apply RunFacts.silent_write_text, H|intros _].
  apply RunFacts.silent_bind;
    [now apply RunFacts.silent_write_text, H|intros _].
  apply RunFacts.silent_bind;
    [apply RunFacts.silent_markup_and_screenshot; now apply H|intros _].
  now apply silent_finish.
Qed.

Lemma no_sleep_before_pulses a :
  Measure.is_sleep a = true -> Measure.during_output a = false.
Proof. now destruct a. Qed.

Lemma collect_slept st :
  Observe.slept (trace (collect json_loads env st))
  = (1000 * Z.of_nat (Measure.rounds_without_signal env 75 0))%Z.
Proof.
  rewrite PollFacts.collect_trace, slept_app.
  rewrite (proj1 (poll_wait 75 0 [] [] st)). cbn [Observe.slept]. lia.
Qed.

Lemma rounds_without_signal_le n : forall i,
  Measure.rounds_without_signal env n i <= n.
Proof.
  induction n as [|n IH]; intros i; [apply Nat.le_refl|].
  cbn [Measure.rounds_without_signal].
  destruct (Measure.signal env i); [lia|]. specialize (IH (S i)). lia.
Qed.

(** The sleeps of everything before the first file. *)
Lemma capture_phase_slept st :
  (Observe.slept (trace (capture_phase json_loads env st)) <= 85000)%Z /\
  (forall c,
      outcome (capture_phase json_loads env st) = Ok c ->
      Observe.slept (trace (capture_phase json_loads env st))
      = (10000 + 1000 * Z.of_nat (Measure.rounds_without_signal env 75 0))%Z).
Proof.
  pose proof (rounds_without_signal_le 75 0) as Hle.
  assert (Hs : Observe.slept (trace (setup env st)) = 0%Z).
  { apply slept_silent, RunFacts.silent_setup; reflexivity. }
  unfold capture_phase.
  rewrite trace_bind, slept_app, Hs, FileFacts.outcome_bind.
  destruct (outcome (setup env st)) as [[]|e];
    [|cbn [Observe.slept]; split; [lia|discriminate]].
  set (s1 := final (setup env st)).
  assert (Hn : Observe.slept (trace (navigate json_loads env s1)) = 0%Z).
  { apply slept_silent, RunFacts.silent_navigate; reflexivity. }
  rewrite trace_bind, slept_app, Hn, FileFacts.outcome_bind.
  destruct (outcome (navigate json_loads env s1)) as [[]|e];
    [|cbn [Observe.slept]; split; [lia|discriminate]].
  set (s2 := final (navigate json_loads env s1)).
  destruct (pulses_run 8 0 s2) as (E3 & Hp & _).
  rewrite trace_bind, slept_app, Hp, FileFacts.outcome_bind, E3.
  rewrite collect_slept.
  split; [lia|intros c _; lia].
Qed.

End Phases.

End TimingFacts.

(** X1: the eight pulses always take place.  Whatever the page answers to
    the scroll, the pause and the resize, the pulse loop ends normally,
    has slept 8 times 1.25 s, has attempted the scroll in every pulse and
    the resize at most once per pulse. *)
Theorem pulses_always_complete
        (json_loads : string -> option JValue) (env : Session.Env)
        (st : Session.St) :
  let r := Session.pulses json_loads env 8 0 st in
  Session.outcome r = Session.Ok tt /\
  Observe.slept (Session.trace r) = 10000%Z /\
  Observe.count (Observe.is_eval Session.EScroll) (Session.trace r) = 8 /\
  Observe.count (Observe.is_eval Session.EResize) (Session.trace r) <= 8.
Proof. exact (TimingFacts.pulses_run json_loads env 8 0 st). Qed.

(** X2: the polling loop waits exactly until the first round that ends
    it.  With [k] the number of rounds before the first round whose two
    reads both answer with one of them non-empty (all [n] rounds when
    there is none), the loop sleeps [k] seconds and reads the charts
    channel [k + 1] times, or [n] times when it runs out of rounds. *)
Theorem polling_waits_until_first_signal
        (json_loads : string -> option JValue) (env : Session.Env)
        (n i : nat) (c : list JValue) (j : list Entry) (st : Session.St) :
  let r := Session.poll json_loads env n i c j st in
  let k := Measure.rounds_without_signal env n i in
  k <= n /\
  Observe.slept (Session.trace r) = (1000 * Z.of_nat k)%Z /\
  Observe.count (Observe.is_eval Session.ECharts) (Session.trace r)
  = Nat.min n (S k).
Proof.
  split; [apply TimingFacts.rounds_without_signal_le|].
  apply TimingFacts.poll_wait.
Qed.

(** X3: a session never sleeps more than 85 seconds in all, and one that
    reaches the output phase has slept 10 seconds in pulses plus one
    second per polling round that did not end the loop; the output phase
    itself never sleeps. *)
Theorem session_sleep_is_bounded
        (json_loads : string -> option JValue) (env : Session.Env) :
  let r := Session.main json_loads env in
  (Observe.slept (Session.trace r) <= 85000)%Z /\
  (forall c,
      Session.outcome (Session.capture_phase json_loads env Session.init)
      = Session.Ok c ->
      Observe.slept (Session.trace r)
      = (10000 + 1000 * Z.of_nat (Measure.rounds_without_signal env 75 0))%Z).
Proof.
  intros r. subst r. unfold Session.main, Session.with_playwright.
  cbn [Session.trace].
  rewrite TimingFacts.slept_app, TimingFacts.trace_bind, TimingFacts.slept_app.
  cbn [Observe.slept].
  destruct (TimingFacts.capture_phase_slept json_loads env Session.init)
    as [Hle Heq].
  destruct (Session.outcome (Session.capture_phase json_loads env Session.init))
    as [c|e].
  - rewrite (TimingFacts.slept_silent
               (Session.trace (Session.output_phase json_loads env c _))).
    + rewrite (Heq c eq_refl) in *. split; [lia|intros c' _; lia].
    + apply TimingFacts.silent_output_phase.
      intros a Ha. now destruct a.
  - cbn [Observe.slept]. split; [lia|discriminate].
Qed.

Lemma session_sleep_is_bounded_witness :
  Observe.slept (Session.trace (Session.main RefJson.decode Session.calm))
  = (10000 + 1000 * Z.of_nat (Measure.rounds_without_signal Session.calm 75 0))%Z.
Proof.
  apply (proj2 (session_sleep_is_bounded RefJson.decode Session.calm)
               (Session.mkCaptured [] [] [] [] [])).
  vm_compute. reflexivity.
Defined.

(* ================================================================== *)
(** ** The session driver: listeners, order of effects, file names *)

Module ListenFacts.
Import Session.

Section Listen.
Variable json_loads : string -> option JValue.

Lemma on_response_appends res log :
  on_response json_loads res log
  = (log ++ on_response json_loads res [])%list.
Proof.
  unfold on_response.
  destruct (Text.includes "application/json" _).
  - destruct (res_json json_loads res); [reflexivity|now rewrite app_nil_r].
  - destruct (_ || _); [|now rewrite app_nil_r].
    destruct (nr_text res); [reflexivity|now rewrite app_nil_r].
Qed.

Lemma on_response_one res :
  length (on_response json_loads res []) <= 1 /\
  Forall (fun e => url e = nr_url res /\
                   (src e = "network" \/ src e = "network-text"))
         (on_response json_loads res []).
Proof.
  unfold on_response.
  destruct (Text.includes "application/json" _).
  - destruct (res_json json_loads res); cbn; split; auto.
  - destruct (_ || _); [|cbn; split; auto].
    destruct (nr_text res); cbn; split; auto.
Qed.

Lemma dispatch_logs evs : forall st,
  req_log (dispatch json_loads evs st)
  = (req_log st ++ Measure.requests_of evs)%list /\
  json_payloads (dispatch json_loads evs st)
  = (json_payloads st ++ Measure.responses_of json_loads evs)%list.
Proof.
  unfold dispatch.
  induction evs as [|ev evs IH]; intros st; cbn [fold_left].
  - cbn. now rewrite !app_nil_r.
  - destruct (IH (deliver json_loads st ev)) as [H1 H2].
    rewrite H1, H2. clear.
    destruct ev as [now r|res];
      cbn [deliver req_log json_payloads Measure.requests_of
             Measure.responses_of flat_map].
    + unfold _on_request. now rewrite <- app_assoc.
    + rewrite (on_response_appends res (json_payloads st)).
      now rewrite <- app_assoc.
Qed.

Lemma responses_of_bound evs :
  length (Measure.responses_of json_loads evs) <= length evs /\
  Forall (fun e => src e = "network" \/ src e = "network-text")
         (Measure.responses_of json_loads evs).
Proof.
  induction evs as [|ev evs [IH1 IH2]]; [now split|].
  cbn [Measure.responses_of flat_map length].
  destruct ev as [now r|res].
  - cbn [app]. split; [|exact IH2].
    fold (Measure.responses_of json_loads evs). lia.
  - destruct (on_response_one res) as [H1 H2].
    fold (Measure.responses_of json_loads evs).
    rewrite length_app. split; [lia|].
    apply Forall_app. split; [|exact IH2].
    eapply Forall_impl; [|exact H2]. now intros e [_ H].
Qed.

End Listen.

End ListenFacts.

(** X4: the two listeners only append.  After any list of events
    delivered during a Playwright call, the request log is the old log
    followed by one entry per request event, in order, and the network
    log is the old log followed by what the responses contributed, at
    most one entry per response, each tagged [network] or
    [network-text]; nothing already logged is dropped or reordered. *)
Theorem listeners_only_append
        (json_loads : string -> option JValue)
        (evs : list Session.NetEvent) (st : Session.St) :
  Session.req_log (Session.dispatch json_loads evs st)
  = (Session.req_log st ++ Measure.requests_of evs)%list /\
  Session.json_payloads (Session.dispatch json_loads evs st)
  = (Session.json_payloads st ++ Measure.responses_of json_loads evs)%list /\
  Session.files (Session.dispatch json_loads evs st) = Session.files st /\
  length (Measure.responses_of json_loads evs) <= length evs /\
  Forall (fun e => src e = "network" \/ src e = "network-text")
         (Measure.responses_of json_loads evs).
Proof.
  destruct (ListenFacts.dispatch_logs json_loads evs st) as [H1 H2].
  destruct (ListenFacts.responses_of_bound json_loads evs) as [H3 H4].
  repeat split; try assumption. apply RunFacts.files_dispatch.
Qed.

Module OrderFacts.
Import Session.

Lemma silent_not_in (P : Action -> bool) (a : Action) (t : list Action) :
  filter P t = [] -> P a = true -> ~ In a t.
Proof.
  intros Hf Ha Hin.
  assert (H : In a (filter P t)) by (apply filter_In; now split).
  now rewrite Hf in H.
Qed.

Section Order.
Variable json_loads : string -> option JValue.
Variable env : Env.

Lemma collect_silent P :
  (forall a, Observe.before_output a = true -> P a = false) ->
  RunFacts.silent P (collect json_loads env).
Proof.
  intros H. unfold collect.
  apply RunFacts.silent_bind;
    [apply RunFacts.silent_poll; now apply H|intros polled].
  apply RunFacts.silent_snapshots; now apply H.
Qed.

(** What follows the navigation never navigates. *)
Lemma after_goto_silent st :
  filter Measure.is_goto
    (trace (bind (pulses json_loads env 8 0)
                 (fun _ => collect json_loads env) st)) = [].
Proof.
  apply RunFacts.silent_bind.
  - now apply RunFacts.silent_pulses.
  - intros _. unfold collect.
    apply RunFacts.silent_bind; [now apply RunFacts.silent_poll|].
    intros polled. now apply RunFacts.silent_snapshots.
Qed.

Lemma navigate_trace st :
  exists rest,
    trace (navigate json_loads env st) = AGoto :: rest /\
    filter Measure.is_goto rest = [].
Proof.
  unfold navigate. rewrite TimingFacts.trace_bind.
  cbn [pw trace outcome final app].
  eexists. split; [reflexivity|].
  now destruct (result (env_goto env)).
Qed.

Lemma capture_phase_trace st :
  outcome (setup env st) = Ok tt ->
  exists rest,
    trace (capture_phase json_loads env st)
    = ([ALaunchBrowser; ALaunchContext; AAddInitScript; ATracingStart;
        ANewPage; AGoto] ++ rest)%list /\
    filter Measure.is_goto rest = [].
Proof.
  intros E. destruct (RunFacts.setup_ok _ _ E) as [Hst Htr].
  unfold capture_phase.
  rewrite TimingFacts.trace_bind, E, Htr, Hst.
  rewrite TimingFacts.trace_bind.
  destruct (navigate_trace st) as (rest & Hn & Hr). rewrite Hn.
  eexists. split; [cbn [app]; reflexivity|].
  rewrite filter_app, Hr. cbn [app].
  destruct (outcome (navigate json_loads env st)); [|reflexivity].
  apply after_goto_silent.
Qed.

Lemma capture_phase_raises st e :
  outcome (capture_phase json_loads env st) = Raise e <->
  outcome (setup env st) = Raise e \/
  outcome (setup env st) = Ok tt /\ result (env_goto env) = Raise e.
Proof.
  unfold capture_phase.
  rewrite FileFacts.outcome_bind.
  destruct (outcome (setup env st)) as [[]|e0]; cbv beta iota.
  2:{ split; [intros [= ->]; now left|].
      intros [[= ->]|[H _]]; [reflexivity|discriminate H]. }
  rewrite FileFacts.outcome_bind.
  set (s1 := final (setup env st)).
  assert (Hn : outcome (navigate json_loads env s1)
               = match result (env_goto env) with
                 | Ok _ => Ok tt
                 | Raise e1 => Raise e1
                 end).
  { unfold navigate, bind, pw, act. cbn.
    now destruct (result (env_goto env)). }
  rewrite Hn.
  destruct (result (env_goto env)) as [[]|e1]; cbv beta iota.
  - rewrite FileFacts.outcome_bind.
    rewrite (proj1 (TimingFacts.pulses_run json_loads env 8 0 _)).
    destruct (PollFacts.collect_returns json_loads env
                (final (pulses json_loads env 8 0
                          (final (navigate json_loads env s1)))))
      as [c Hc].
    rewrite Hc. split; [discriminate|].
    intros [H|[_ H]]; discriminate H.
  - split; [intros [= ->]; right; now split|].
    intros [H|[_ [= ->]]]; [discriminate H|reflexivity].
Qed.

End Order.

End OrderFacts.

(** X5: navigation comes right after the set-up and happens once.  In
    every run in which [page.goto] is called, the effects before it are
    exactly: launch the browser, launch the context, add the init script,
    start the trace, open the page; hooks and trace recording are in
    place before the page loads, and [page.goto] is not called again. *)
Theorem navigation_follows_setup
        (json_loads : string -> option JValue) (env : Session.Env) :
  In Session.AGoto (Session.trace (Session.main json_loads env)) ->
  exists rest,
    Session.trace (Session.main json_loads env)
    = ([Session.ALaunchBrowser; Session.ALaunchContext;
        Session.AAddInitScript; Session.ATracingStart; Session.ANewPage;
        Session.AGoto] ++ rest)%list /\
    ~ In Session.AGoto rest.
Proof.
  unfold Session.main, Session.with_playwright. cbn [Session.trace].
  rewrite TimingFacts.trace_bind.
  destruct (Session.outcome (Session.setup env Session.init)) as [[]|e] eqn:E1.
  - intros _.
    destruct (OrderFacts.capture_phase_trace json_loads env Session.init E1)
      as (rest & Ht & Hr).
    rewrite Ht. eexists. split.
    + rewrite <- !app_assoc. reflexivity.
    + apply OrderFacts.silent_not_in with (P := Measure.is_goto);
        [|reflexivity].
      rewrite !filter_app, Hr. cbn [app filter Measure.is_goto].
      rewrite app_nil_r.
      destruct (Session.outcome
                  (Session.capture_phase json_loads env Session.init))
        as [c|e]; [|reflexivity].
      apply TimingFacts.silent_output_phase. intros a Ha. now destruct a.
  - intros H. exfalso.
    assert (Hc : Session.trace (Session.capture_phase json_loads env Session.init)
                 = Session.trace (Session.setup env Session.init)
                 /\ exists e', Session.outcome
                      (Session.capture_phase json_loads env Session.init)
                    = Session.Raise e').
    { unfold Session.capture_phase.
      rewrite TimingFacts.trace_bind, FileFacts.outcome_bind, E1.
      split; [apply app_nil_r|now exists e]. }
    destruct Hc as [Ht [e' He]]. rewrite Ht, He in H.
    cbn [app] in H. rewrite app_nil_r in H.
    apply in_app_or in H. destruct H as [H|[H|[]]]; [|discriminate H].
    revert H. apply OrderFacts.silent_not_in with (P := Measure.is_goto);
      [|reflexivity].
    now apply RunFacts.silent_setup.
Qed.

Lemma navigation_follows_setup_witness :
  exists rest,
    Session.trace (Session.main RefJson.decode Session.calm)
    = ([Session.ALaunchBrowser; Session.ALaunchContext;
        Session.AAddInitScript; Session.ATracingStart; Session.ANewPage;
        Session.AGoto] ++ rest)%list /\
    ~ In Session.AGoto rest.
Proof.
  apply (@navigation_follows_setup RefJson.decode Session.calm).
  vm_compute. repeat (try (left; reflexivity); right).
Defined.

(** X6: before the first file, only the five set-up calls and
    [page.goto] can end the session: the pulses, the polling loop and the
    snapshot reads swallow every failure.  When one of those six calls
    raises, [main] ends with that exception and no file is written. *)
Theorem only_setup_and_navigation_are_fatal
        (json_loads : string -> option JValue) (env : Session.Env)
        (e : Session.Exn) :
  (Session.outcome (Session.capture_phase json_loads env Session.init)
   = Session.Raise e <->
   Session.outcome (Session.setup env Session.init) = Session.Raise e \/
   Session.outcome (Session.setup env Session.init) = Session.Ok tt /\
   Session.result (Session.env_goto env) = Session.Raise e) /\
  (Session.outcome (Session.capture_phase json_loads env Session.init)
   = Session.Raise e ->
   Session.outcome (Session.main json_loads env) = Session.Raise e /\
   Session.files (Session.final (Session.main json_loads env)) = []).
Proof.
  split; [apply OrderFacts.capture_phase_raises|].
  intros H. unfold Session.main, Session.with_playwright.
  cbn [Session.outcome Session.final].
  rewrite FileFacts.outcome_bind, FileFacts.final_bind, H.
  split; [reflexivity|]. apply FileFacts.keeps_capture_phase.
Qed.

Lemma only_setup_and_navigation_are_fatal_witness :
  let env := Session.with_goto
               (Session.mkOutcome [] (Session.Raise Session.TimeoutError))
               Session.calm in
  Session.outcome (Session.main RefJson.decode env)
  = Session.Raise Session.TimeoutError /\
  Session.files (Session.final (Session.main RefJson.decode env)) = [].
Proof.
  intros env.
  apply (proj2 (only_setup_and_navigation_are_fatal RefJson.decode env
                  Session.TimeoutError)).
  vm_compute. reflexivity.
Defined.

Module NameFacts.
Import Session.

Lemma index_of_two_digits (i : nat) :
  Measure.index_of (Text.two_digits i) = Some i.
Proof.
  unfold Measure.index_of, Text.two_digits, Text.decimal.
  destruct (i <? 10).
  - change ("0" ++ NilEmpty.string_of_uint (Nat.to_uint i))%string
      with (String "0" (NilEmpty.string_of_uint (Nat.to_uint i))).
    cbn [NilEmpty.uint_of_string]. rewrite NilEmpty.usu.
    cbn [uint_of_char option_map]. f_equal.
    change (Nat.of_uint (Decimal.D0 (Nat.to_uint i)))
      with (Nat.of_uint (Nat.to_uint i)).
    apply DecimalNat.Unsigned.of_to.
  - rewrite NilEmpty.usu. cbn [option_map]. f_equal.
    apply DecimalNat.Unsigned.of_to.
Qed.

Lemma two_digits_inj (a b : nat) :
  Text.two_digits a = Text.two_digits b -> a = b.
Proof.
  intros H. apply (f_equal Measure.index_of) in H.
  rewrite !index_of_two_digits in H. now injection H.
Qed.

Lemma length_append (a b : string) :
  String.length (a ++ b) = String.length a + String.length b.
Proof. induction a as [|c a IH]; cbn; [reflexivity|now rewrite IH]. Qed.

Lemma append_inj_l (s a b : string) : (s ++ a = s ++ b)%string -> a = b.
Proof.
  induction s as [|c s IH]; cbn; [trivial|].
  intros [= H]. now apply IH.
Qed.

Lemma append_inj_r (t : string) : forall a b : string,
  (a ++ t = b ++ t)%string -> a = b.
Proof.
  induction a as [|c a IH]; intros [|d b] H; cbn in H.
  - reflexivity.
  - apply (f_equal String.length) in H. cbn in H.
    rewrite length_append in H. lia.
  - apply (f_equal String.length) in H. cbn in H.
    rewrite length_append in H. lia.
  - injection H as -> H. f_equal. now apply IH.
Qed.

Lemma numbered_name_inj (stem : string) (a b : nat) :
  (stem ++ Text.two_digits a ++ ".json" = stem ++ Text.two_digits b ++ ".json")%string ->
  a = b.
Proof.
  intros H. apply append_inj_l, append_inj_r in H.
  now apply two_digits_inj.
Qed.

Lemma numbered_names {X} stem (mk : X -> Artifact) l : forall i p,
  In p (map fst (Observe.numbered stem mk i l)) ->
  exists k, i <= k /\ p = (stem ++ Text.two_digits k ++ ".json")%string.
Proof.
  induction l as [|x l IH]; intros i p; cbn [Observe.numbered map fst In];
    [contradiction|].
  intros [<-|H]; [now exists i|].
  destruct (IH _ _ H) as (k & Hk & ->). exists k. split; [lia|reflexivity].
Qed.

Lemma numbered_NoDup {X} stem (mk : X -> Artifact) l : forall i,
  NoDup (map fst (Observe.numbered stem mk i l)).
Proof.
  induction l as [|x l IH]; intros i; cbn [Observe.numbered map fst];
    constructor; [|apply IH].
  intros H. destruct (numbered_names _ _ _ _ _ H) as (k & Hk & E).
  apply numbered_name_inj in E. lia.
Qed.

Lemma numbered_key {X} stem (mk : X -> Artifact) l k :
  (forall s, Measure.key (stem ++ s) = k) ->
  forall i, Forall (fun p => Measure.key p = k)
                   (map fst (Observe.numbered stem mk i l)).
Proof.
  intros H. induction l as [|x l IH]; intros i;
    cbn [Observe.numbered map fst]; constructor; auto.
Qed.

(** Lists of names whose keys are all [k] and a list whose keys all
    differ from [k] have no name in common. *)
Lemma NoDup_keyed (k : string) (l1 l2 : list string) :
  NoDup l1 -> NoDup l2 ->
  Forall (fun p => Measure.key p = k) l1 ->
  Forall (fun p => Measure.key p <> k) l2 ->
  NoDup (l1 ++ l2).
Proof.
  intros N1 N2 F1 F2. apply NoDup_app; try assumption.
  intros a H1 H2.
  rewrite Forall_forall in F1, F2. exact (F2 a H2 (F1 a H1)).
Qed.

Lemma guarded_names env :
  let names := map fst (Observe.guarded_files env) in
  NoDup names /\
  Forall (fun p => p = "page.html" \/ p = "screenshot.png") names.
Proof.
  unfold Observe.guarded_files.
  destruct (result (env_content env));
    destruct (env_write_text env "page.html");
    destruct (result (env_screenshot env)); cbn; split;
    repeat constructor; cbn; auto; intros [H|[]]; discriminate H.
Qed.

Lemma session_files_NoDup env c merged logged :
  NoDup (map fst (Observe.session_files env c merged logged)).
Proof.
  unfold Observe.session_files. rewrite !map_app.
  destruct (guarded_names env) as [Ng Fg]. cbv zeta in Ng, Fg.
  assert (Hg : forall k, k <> "pa" -> k <> "sc" ->
               Forall (fun p => Measure.key p <> k)
                      (map fst (Observe.guarded_files env))).
  { intros k H1 H2. eapply Forall_impl; [|exact Fg].
    intros p [-> | ->]; cbn; congruence. }
  assert (Hc : forall k, k <> "ca" ->
               Forall (fun p => Measure.key p <> k)
                      (map fst (if nonempty (canvas_text c)
                                then [("canvas-text.json",
                                       FCanvasText (canvas_text c))]
                                else []))).
  { intros k H. destruct (nonempty (canvas_text c)); repeat constructor.
    cbn. congruence. }
  apply NoDup_keyed with (k := "xh").
  { apply numbered_NoDup. }
  2:{ apply numbered_key. reflexivity. }
  2:{ repeat (apply Forall_app; split);
        [eapply Forall_impl; [|apply (numbered_key "chart-" FChart
                                        (charts c) (k := "ch"));
                               reflexivity];
         cbn beta; intros p ->; discriminate
        |apply Hc; discriminate
        |repeat constructor; cbn; discriminate
        |apply Hg; discriminate
        |repeat constructor; cbn; discriminate]. }
  apply NoDup_keyed with (k := "ch").
  { apply numbered_NoDup. }
  2:{ apply numbered_key. reflexivity. }
  2:{ repeat (apply Forall_app; split);
        [apply Hc; discriminate
        |repeat constructor; cbn; discriminate
        |apply Hg; discriminate
        |repeat constructor; cbn; discriminate]. }
  apply NoDup_keyed with (k := "ca").
  { destruct (nonempty (canvas_text c)); repeat constructor. intros []. }
  2:{ destruct (nonempty (canvas_text c)); repeat constructor. }
  2:{ repeat (apply Forall_app; split);
        [repeat constructor; cbn; discriminate
        |apply Hg; discriminate
        |repeat constructor; cbn; discriminate]. }
  apply NoDup_keyed with (k := "st").
  { repeat constructor; cbn; [intros [H|[]]; discriminate H|intros []]. }
  2:{ repeat constructor. }
  2:{ repeat (apply Forall_app; split);
        [apply Hg; discriminate
        |repeat constructor; cbn; discriminate]. }
  apply NoDup_app; [exact Ng| |].
  { repeat constructor; cbn; [intros [H|[]]; discriminate H|intros []]. }
  intros a Ha Hb. rewrite Forall_forall in Fg.
  destruct (Fg a Ha) as [-> | ->];
    cbn in Hb; destruct Hb as [H|[H|[]]]; discriminate H.
Qed.

End NameFacts.

(** X7: within a session no artifact overwrites another.  The index
    printed into a numbered file name reads back as that index, so the
    numbered names are pairwise distinct, beyond 99 as well; and the files
    of a session that ran to its end all have different names. *)
Theorem artifact_names_are_distinct
        (json_loads : string -> option JValue) (env : Session.Env) :
  (forall i, Measure.index_of (Text.two_digits i) = Some i) /\
  (forall (stem : string) (a b : nat),
      (stem ++ Text.two_digits a ++ ".json")%string
      = (stem ++ Text.two_digits b ++ ".json")%string -> a = b) /\
  (Session.outcome (Session.main json_loads env) = Session.Ok tt ->
   NoDup (map fst (Session.files (Session.final (Session.main json_loads env))))).
Proof.
  split; [apply NameFacts.index_of_two_digits|].
  split; [apply NameFacts.numbered_name_inj|].
  intros H. destruct (FileFacts.files_on_success _ _ H) as (c & _ & Hf).
  rewrite Hf. apply NameFacts.session_files_NoDup.
Qed.

Lemma artifact_names_are_distinct_witness :
  NoDup (map fst (Session.files
                    (Session.final (Session.main RefJson.decode Session.calm)))).
Proof.
  apply (proj2 (proj2 (artifact_names_are_distinct RefJson.decode Session.calm))).
  vm_compute. reflexivity.
Defined.

(* ================================================================== *)
(** ** The other in-page hooks *)

Module XhrFacts.
Import Page.

Section Xhr.
Variable Reviver : Type.
Variable _parse : string -> option Reviver -> option JValue.

(** What a text adds when it goes through the hooked decoder and is
    then pushed under [tag]. *)
Lemma decode_and_push tag u txt c :
  match JSON_parse _parse txt None c with
  | (Some b, c') => push_json (mkEntry tag u b) c'
  | (None, c') => c'
  end
  = mkCapture
      (json c
         ++ match _parse txt None with
            | Some b =>
                (if object_shaped b
                 then [mkEntry "JSON.parse" "inline" b] else [])
                ++ [mkEntry tag u b]
            | None => []
            end)
      (charts c) (canvasText c) (storage_local c) (storage_session c).
Proof.
  unfold JSON_parse.
  destruct (_parse txt None) as [b|].
  - destruct (object_shaped b); unfold push_json; cbn;
      rewrite <- ?app_assoc; reflexivity.
  - rewrite app_nil_r. now destruct c.
Qed.

Lemma run_listeners_fixed n (f : Capture -> Capture) c :
  (forall c0, f c0 = c0) -> run_listeners n f c = c.
Proof.
  intros H. revert c.
  induction n as [|n IH]; intros c; cbn [run_listeners];
    [reflexivity|now rewrite H, IH].
Qed.

Lemma run_listeners_appends n (f : Capture -> Capture) (l : list Entry) :
  (forall c0,
      f c0 = mkCapture (json c0 ++ l) (charts c0) (canvasText c0)
                       (storage_local c0) (storage_session c0)) ->
  forall c,
    run_listeners n f c
    = mkCapture (json c ++ concat (repeat l n)) (charts c) (canvasText c)
                (storage_local c) (storage_session c).
Proof.
  intros H.
  induction n as [|n IH]; intros c; cbn [run_listeners repeat concat].
  - rewrite app_nil_r. now destruct c.
  - rewrite IH, H. cbn. now rewrite <- app_assoc.
Qed.

(** A [load] event adds the same entries once per listener and
    touches nothing else. *)
Lemma xhr_load_appends x c :
  xhr_load _parse x c
  = mkCapture
      (json c
         ++ concat (repeat (json (xhr_listener _parse x empty_capture))
                           (xhr_sends x)))
      (charts c) (canvasText c) (storage_local c) (storage_session c).
Proof.
  unfold xhr_load. apply run_listeners_appends.
  intros c0. unfold xhr_listener.
  destruct (json_content_type (xhr_content_type x)).
  - destruct (responseText x) as [body|].
    + now rewrite !decode_and_push.
    + cbn. rewrite app_nil_r. now destruct c0.
  - destruct (responseText x) as [txt|].
    + destruct (xhr_text_guess txt).
      * now rewrite !decode_and_push.
      * cbn. rewrite app_nil_r. now destruct c0.
    + cbn. rewrite app_nil_r. now destruct c0.
Qed.

End Xhr.

End XhrFacts.

(** X8: a legacy request served as JSON is decoded through the hooked
    decoder.  One run of the [load] listener on a readable body that
    decodes appends an entry tagged [xhr], with the URL given to [open]
    (the empty string when there was none) and the decoded body, preceded
    by a [JSON.parse] entry when the body is an object or an array, so
    that such a response is recorded twice; a body that does not decode,
    or a [responseText] that cannot be read (a [responseType] other than
    text), records nothing.  A [load] event runs one listener per call of
    [send] made on the object so far, so it adds those entries that many
    times.  The other channels are left alone. *)
Theorem xhr_json_is_recorded
        (Reviver : Type) (_parse : string -> option Reviver -> option JValue)
        (x : Page.Xhr) (c : Page.Capture) :
  Page.json_content_type (Page.xhr_content_type x) = true ->
  let once :=
    match Page.responseText x with
    | Some body =>
        match _parse body None with
        | Some b =>
            ((if object_shaped b then [mkEntry "JSON.parse" "inline" b] else [])
               ++ [mkEntry "xhr" (Text.or_empty (Page.xhr_url x)) b])%list
        | None => []
        end
    | None => []
    end in
  let c' := Page.xhr_load _parse x c in
  Page.json (Page.xhr_listener _parse x c) = (Page.json c ++ once)%list /\
  Page.json c' = (Page.json c ++ concat (repeat once (Page.xhr_sends x)))%list /\
  Page.charts c' = Page.charts c /\
  Page.canvasText c' = Page.canvasText c.
Proof.
  intros Hct once c'. subst c'.
  assert (Hl : forall c0, Page.json (Page.xhr_listener _parse x c0)
                          = (Page.json c0 ++ once)%list).
  { intros c0. subst once. unfold Page.xhr_listener. rewrite Hct.
    destruct (Page.responseText x) as [body|].
    - now rewrite XhrFacts.decode_and_push.
    - now rewrite app_nil_r. }
  split; [apply Hl|].
  rewrite XhrFacts.xhr_load_appends. cbn [Page.json Page.charts Page.canvasText].
  repeat split.
  specialize (Hl Page.empty_capture). cbn [Page.json Page.empty_capture app] in Hl.
  now rewrite Hl.
Qed.

Lemma xhr_json_is_recorded_witness :
  Page.json (Page.xhr_load Page.ref_parse
               (Page.mkXhr None (Some "application/json") (Some "[1]") 1)
               Page.empty_capture)
  = [mkEntry "JSON.parse" "inline" (JArr [JNum 1%Z]);
     mkEntry "xhr" EmptyString (JArr [JNum 1%Z])] /\
  Page.json (Page.xhr_load Page.ref_parse
               (Page.mkXhr (Some "/api") (Some "application/json") None 1)
               Page.empty_capture)
  = [].
Proof.
  split.
  - exact (proj1 (proj2 (@xhr_json_is_recorded unit Page.ref_parse
                           (Page.mkXhr None (Some "application/json") (Some "[1]") 1)
                           Page.empty_capture eq_refl))).
  - exact (proj1 (proj2 (@xhr_json_is_recorded unit Page.ref_parse
                           (Page.mkXhr (Some "/api") (Some "application/json") None 1)
                           Page.empty_capture eq_refl))).
Defined.

(** X9: for a legacy request not served as JSON, a readable text is
    decoded exactly when it holds an opening brace with a closing brace
    somewhere after it.  Such a text that decodes adds, once per listener
    of the object, an entry tagged [xhr-text] (after the [JSON.parse]
    entry of an object-shaped value); a text without such a pair, one
    that does not decode, or a [responseText] that cannot be read, leaves
    the bucket as it was. *)
Theorem xhr_text_needs_a_brace_pair
        (Reviver : Type) (_parse : string -> option Reviver -> option JValue)
        (x : Page.Xhr) (c : Page.Capture) :
  Page.json_content_type (Page.xhr_content_type x) = false ->
  (Page.responseText x = None -> Page.xhr_load _parse x c = c) /\
  (forall txt,
      Page.responseText x = Some txt ->
      (forall guess,
          spec_brace_pair txt -> _parse txt None = Some guess ->
          Page.json (Page.xhr_load _parse x c)
          = (Page.json c
               ++ concat
                    (repeat
                       ((if object_shaped guess
                         then [mkEntry "JSON.parse" "inline" guess] else [])
                          ++ [mkEntry "xhr-text" (Text.or_empty (Page.xhr_url x))
                                      guess])
                       (Page.xhr_sends x)))%list) /\
      (~ spec_brace_pair txt -> Page.xhr_load _parse x c = c) /\
      (_parse txt None = None -> Page.xhr_load _parse x c = c)).
Proof.
  intros Hct. split.
  - intros Hno. unfold Page.xhr_load. apply XhrFacts.run_listeners_fixed.
    intros c0. unfold Page.xhr_listener. now rewrite Hct, Hno.
  - intros txt Htxt. repeat split.
    + intros guess Hpair Hdec.
      apply PageFacts.xhr_text_guess_spec in Hpair.
      rewrite XhrFacts.xhr_load_appends. cbn [Page.json].
      unfold Page.xhr_listener. rewrite Hct, Htxt, Hpair.
      rewrite XhrFacts.decode_and_push, Hdec. reflexivity.
    + intros Hno. unfold Page.xhr_load. apply XhrFacts.run_listeners_fixed.
      intros c0. unfold Page.xhr_listener. rewrite Hct, Htxt.
      destruct (Page.xhr_text_guess txt) eqn:E; [|reflexivity].
      elim Hno. now apply PageFacts.xhr_text_guess_spec.
    + intros Hdec. unfold Page.xhr_load. apply XhrFacts.run_listeners_fixed.
      intros c0. unfold Page.xhr_listener, Page.JSON_parse.
      rewrite Hct, Htxt, Hdec. now destruct (Page.xhr_text_guess txt).
Qed.

Lemma xhr_text_needs_a_brace_pair_witness :
  Page.json (Page.xhr_load Page.ref_parse
               (Page.mkXhr (Some "/cfg") (Some "text/html") (Some " {} ") 1)
               Page.empty_capture)
  = [mkEntry "JSON.parse" "inline" (JObj []);
     mkEntry "xhr-text" "/cfg" (JObj [])].
Proof.
  apply (proj1 (proj2 (@xhr_text_needs_a_brace_pair unit Page.ref_parse
                         (Page.mkXhr (Some "/cfg") (Some "text/html")
                                     (Some " {} ") 1)
                         Page.empty_capture eq_refl) " {} " eq_refl) (JObj [])).
  - now exists " ", EmptyString, " ".
  - reflexivity.
Defined.

Module HookedFacts.
Import Page Hooked.

Section Facts.
Variable js_String : JValue -> string.

Lemma draw_all draws : forall s,
  let s' := fold_left (fun s d => draw js_String d s) draws s in
  canvasText (fst s')
  = (canvasText (fst s)
       ++ map (fun d => canvas_entry js_String (fst (fst d)) (snd (fst d))
                                     (snd d)) draws)%list /\
  snd s' = (snd s ++ map (fun d => (fst (fst d), snd d)) draws)%list /\
  json (fst s') = json (fst s) /\
  charts (fst s') = charts (fst s).
Proof.
  induction draws as [|[[kind ctx] call] draws IH]; intros s; cbn zeta.
  - cbn. now rewrite !app_nil_r.
  - cbn [fold_left map].
    destruct (IH (draw js_String (kind, ctx, call) s))
      as (H1 & H2 & H3 & H4).
    cbn zeta in H1, H2, H3, H4. rewrite H1, H2, H3, H4. clear.
    destruct kind; cbn; rewrite <- !app_assoc; now repeat split.
Qed.

Lemma own_assign_own k k' v obj :
  own k (assign_own k' v obj)
  = if String.eqb k' k then Some v else own k obj.
Proof.
  induction obj as [|[k0 v0] obj IH]; cbn [assign_own own].
  - reflexivity.
  - destruct (String.eqb_spec k0 k') as [->|Hn]; cbn [own].
    + now destruct (String.eqb k' k).
    + rewrite IH.
      destruct (String.eqb_spec k0 k) as [->|_]; [|reflexivity].
      destruct (String.eqb_spec k' k) as [->|_]; [now elim Hn|reflexivity].
Qed.

Lemma own_assign k k' v obj :
  k <> "__proto__" ->
  own k (assign k' v obj)
  = if String.eqb k' k then Some v else own k obj.
Proof.
  intros Hk. unfold assign.
  destruct (String.eqb_spec k' "__proto__") as [->|_].
  - destruct (String.eqb_spec "__proto__" k) as [<-|_];
      [now elim Hk|reflexivity].
  - apply own_assign_own.
Qed.

Variable Ret : Type.
Variable native_init : list JValue -> nat.
Variable native_setOption : nat -> JValue -> list JValue -> Ret.

(** The bucket after [n] more records of [opts]. *)
Fixpoint recorded (n : nat) (opts : JValue) (c : Capture) : Capture :=
  match n with
  | O => c
  | S n' => push_chart (echarts_entry opts) (recorded n' opts c)
  end.

Lemma recorded_push n opts c :
  recorded n opts (push_chart (echarts_entry opts) c)
  = recorded (S n) opts c.
Proof.
  induction n as [|n IH]; [reflexivity|].
  cbn [recorded] in *. now rewrite IH.
Qed.

Lemma recorded_channels n opts c :
  charts (recorded n opts c)
  = (charts c ++ repeat (echarts_entry opts) n)%list /\
  json (recorded n opts c) = json c /\
  canvasText (recorded n opts c) = canvasText c /\
  storage_local (recorded n opts c) = storage_local c /\
  storage_session (recorded n opts c) = storage_session c.
Proof.
  induction n as [|n (H1 & H2 & H3 & H4 & H5)];
    cbn [recorded push_chart charts json canvasText storage_local
           storage_session repeat].
  - now rewrite app_nil_r.
  - rewrite H1, H2, H3, H4, H5. repeat split.
    rewrite <- app_assoc. f_equal.
    symmetry. apply repeat_cons.
Qed.

(** Every instance records [n i] times, then does what the library
    does. *)
Definition tally (h : Hooked.Instances Ret) (n : nat -> nat) : Prop :=
  forall i opts rest c,
    h i opts rest c = (native_setOption i opts rest, recorded (n i) opts c).

(** An [init] that returns the library's instance and makes it record
    [k] more times. *)
Definition adds (init : Hooked.Init Ret) (k : nat) : Prop :=
  forall a h n,
    tally h n ->
    fst (init a h) = native_init a /\
    tally (snd (init a h))
          (fun i => if i =? native_init a then n i + k else n i).

Lemma adds_library : adds (library_init native_init) 0.
Proof.
  intros a h n H. split; [reflexivity|].
  intros i opts rest c. cbn. rewrite H.
  destruct (i =? native_init a); [now rewrite Nat.add_0_r|reflexivity].
Qed.

Lemma adds_wrap init k : adds init k -> adds (wrap_init init) (S k).
Proof.
  intros Hi a h n H. destruct (Hi a h n H) as [Hf Ht].
  unfold wrap_init. destruct (init a h) as [inst h1]. cbn in Hf, Ht |- *.
  subst inst. split; [reflexivity|].
  intros i opts rest c. unfold replace_method.
  destruct (Nat.eqb_spec i (native_init a)) as [->|E].
  - unfold wrap_setOption. rewrite Ht. cbv beta. rewrite Nat.eqb_refl.
    rewrite recorded_push.
    replace (n (native_init a) + S k) with (S (n (native_init a) + k))
      by lia.
    reflexivity.
  - specialize (Ht i opts rest c). cbv beta in Ht.
    apply Nat.eqb_neq in E. now rewrite E in Ht.
Qed.

Lemma adds_iter k : adds (Nat.iter k (@wrap_init Ret) (library_init native_init)) k.
Proof.
  induction k as [|k IH]; [apply adds_library|].
  cbn [Nat.iter]. now apply adds_wrap.
Qed.

Lemma init_all_tally init k calls : forall h n,
  adds init k -> tally h n ->
  tally (init_all init calls h)
        (fun i => n i + k * returned native_init i calls).
Proof.
  unfold init_all, returned.
  induction calls as [|a calls IH]; intros h n Hi Ht; cbn [fold_left].
  - intros i opts rest c. rewrite Ht. cbn. f_equal. f_equal. lia.
  - destruct (Hi a h n Ht) as [_ Ht'].
    specialize (IH _ _ Hi Ht').
    intros i opts rest c. rewrite IH. f_equal. f_equal.
    cbn [filter]. rewrite (Nat.eqb_sym (native_init a) i).
    destruct (i =? native_init a); cbn [length]; lia.
Qed.

Lemma tally_library :
  tally (library_instances native_setOption) (fun _ => 0).
Proof. intros i opts rest c. reflexivity. Qed.

(** A method under [n] wrappers records [n] times. *)
Lemma wrapped_recorded n inst opts rest : forall c,
  wrapped n (library_instances native_setOption inst) opts rest c
  = (native_setOption inst opts rest, recorded n opts c).
Proof.
  induction n as [|n IH]; intros c; [reflexivity|].
  cbn [wrapped]. unfold wrap_setOption. rewrite IH.
  now rewrite recorded_push.
Qed.

(** After any history of assignments and calls of [init], the method
    of an instance is the library's under as many wrappers as the
    instance records. *)
Lemma tally_wrapped h n :
  tally h n ->
  forall i opts rest c,
    h i opts rest c
    = wrapped (n i) (library_instances native_setOption i) opts rest c.
Proof. intros H i opts rest c. now rewrite H, wrapped_recorded. Qed.

(** The method of an instance after [k] assignments of the library
    to [window.echarts] and a list of calls of [init]. *)
Lemma init_all_wrapped k calls inst opts rest c :
  init_all (Nat.iter k (@wrap_init Ret) (library_init native_init)) calls
           (library_instances native_setOption) inst opts rest c
  = wrapped (k * returned native_init inst calls)
            (library_instances native_setOption inst) opts rest c.
Proof.
  apply (@tally_wrapped _ (fun i => 0 + k * returned native_init i calls)).
  apply init_all_tally; [apply adds_iter|apply tally_library].
Qed.

Lemma proxied_shift n (v : Constructor) :
  proxied n (ProxyChart v) = ProxyChart (proxied n v).
Proof.
  induction n as [|n IH]; [reflexivity|].
  cbn [proxied]. now rewrite IH.
Qed.

(** What an assignment to [window.Chart] leaves as [ChartREF]: the
    constructor assigned, under one proxy per further activation of
    the setter. *)
Lemma set_Chart_proxied n : forall v ref : Constructor,
  set_Chart (S n) v ref = proxied n v.
Proof.
  induction n as [|n IH]; intros v ref; [reflexivity|].
  change (set_Chart (S (S n)) v ref) with (set_Chart (S n) (ProxyChart v) v).
  rewrite IH. apply proxied_shift.
Qed.

(** A constructor under [n] proxies records [n] times. *)
Lemma proxied_library n item cfg rest : forall c,
  proxied n library_Chart item cfg rest c
  = mkCapture (json c) (charts c ++ repeat (chartjs_entry cfg) n)
              (canvasText c) (storage_local c) (storage_session c).
Proof.
  induction n as [|n IH]; intros c; cbn [proxied repeat].
  - unfold library_Chart. rewrite app_nil_r. now destruct c.
  - unfold ProxyChart. rewrite IH. cbn. now rewrite <- app_assoc.
Qed.

End Facts.

End HookedFacts.

(** X10: every text draw is recorded and performed.  After any sequence
    of [fillText] and [strokeText] calls the canvasText channel has gained
    one entry per call, in drawing order, each with its kind, the text as
    a string, the coordinates and the context's font and matching style;
    the real surface has received every call with its arguments
    unchanged; the json and charts channels are untouched. *)
Theorem canvas_draws_are_recorded_in_order
        (js_String : JValue -> string)
        (draws : list (Hooked.DrawKind * Hooked.Context2D * Hooked.TextCall))
        (c : Page.Capture) (surface : Hooked.Surface) :
  let s' := fold_left (fun s d => Hooked.draw js_String d s) draws (c, surface) in
  Page.canvasText (fst s')
  = (Page.canvasText c
       ++ map (fun d => Hooked.canvas_entry js_String (fst (fst d))
                                            (snd (fst d)) (snd d)) draws)%list /\
  snd s' = (surface ++ map (fun d => (fst (fst d), snd d)) draws)%list /\
  Page.json (fst s') = Page.json c /\
  Page.charts (fst s') = Page.charts c.
Proof. exact (HookedFacts.draw_all js_String draws (c, surface)). Qed.

(** X11: a chart configuration is recorded once per wrapping of the
    instance.  When the same library object has been assigned to
    [window.echarts] [k] times and the page has then called [init] any
    number of times, a call of [setOption] on an instance returns what
    the library returns and appends the options to the charts channel
    [k] times for every call of [init] that returned that instance: once
    in the usual case, more when an instance is handed out again. *)
Theorem echarts_setOption_is_recorded
        (Ret : Type) (native_init : list JValue -> nat)
        (native_setOption : nat -> JValue -> list JValue -> Ret)
        (k : nat) (calls : list (list JValue))
        (inst : nat) (opts : JValue) (rest : list JValue) (c : Page.Capture) :
  let init := Nat.iter k (@Hooked.wrap_init Ret)
                       (Hooked.library_init native_init) in
  let instances :=
    Hooked.init_all init calls (Hooked.library_instances native_setOption) in
  let n := k * Hooked.returned native_init inst calls in
  fst (instances inst opts rest c) = native_setOption inst opts rest /\
  Page.charts (snd (instances inst opts rest c))
  = (Page.charts c ++ repeat (Hooked.echarts_entry opts) n)%list /\
  Page.json (snd (instances inst opts rest c)) = Page.json c /\
  Page.canvasText (snd (instances inst opts rest c)) = Page.canvasText c.
Proof.
  intros init instances n. subst init instances n.
  assert (H : HookedFacts.tally native_setOption
                (Hooked.init_all
                   (Nat.iter k (@Hooked.wrap_init Ret)
                             (Hooked.library_init native_init))
                   calls (Hooked.library_instances native_setOption))
                (fun i => 0 + k * Hooked.returned native_init i calls)).
  { apply HookedFacts.init_all_tally.
    - apply HookedFacts.adds_iter.
    - apply HookedFacts.tally_library. }
  rewrite (H inst opts rest c). cbn [fst snd plus].
  destruct (HookedFacts.recorded_channels
              (k * Hooked.returned native_init inst calls) opts c)
    as (H1 & H2 & H3 & _).
  now repeat split.
Qed.

Module CallFacts.
Import Page Hooked.

Section Calls.
Variable js_String : JValue -> string.
Variable Ret : Type.
Variable native_setOption : nat -> JValue -> list JValue -> Ret.
Variable Reviver : Type.
Variable _parse : string -> option Reviver -> option JValue.

Let apply := apply_call js_String native_setOption _parse.

(** A call adds to each list channel what it would add to an empty
    bucket. *)
Lemma apply_call_appends call c :
  json (apply call c)
  = (json c ++ json (apply call empty_capture))%list /\
  charts (apply call c)
  = (charts c ++ charts (apply call empty_capture))%list /\
  canvasText (apply call c)
  = (canvasText c ++ canvasText (apply call empty_capture))%list.
Proof.
  subst apply.
  destruct call as [s reviver|res|x|ctx call|ctx call|this k v
                   |wraps inst opts rest|proxies item cfg rest];
    cbn [apply_call].
  - unfold JSON_parse. destruct (_parse s reviver) as [out|];
      [destruct (object_shaped out)|]; cbn; now rewrite ?app_nil_r.
  - unfold reaction_of, fetch_json_reaction, fetch_text_reaction, JSON_parse.
    destruct (json_content_type (res_content_type res)).
    + destruct (_parse (res_text res) None); cbn; now rewrite ?app_nil_r.
    + destruct (fetch_text_guess (res_text res));
        [destruct (_parse (res_text res) None) as [g|];
         [destruct (object_shaped g)|]|];
        cbn; rewrite <- ?app_assoc, ?app_nil_r; now repeat split.
  - rewrite !XhrFacts.xhr_load_appends. cbn. now rewrite !app_nil_r.
  - cbn. now rewrite !app_nil_r.
  - cbn. now rewrite !app_nil_r.
  - destruct this; cbn; now rewrite !app_nil_r.
  - rewrite !HookedFacts.wrapped_recorded. cbn [snd].
    destruct (HookedFacts.recorded_channels wraps opts c)
      as (H1 & H2 & H3 & _).
    destruct (HookedFacts.recorded_channels wraps opts empty_capture)
      as (E1 & E2 & E3 & _).
    rewrite H1, H2, H3, E1, E2, E3. cbn. now rewrite !app_nil_r.
  - rewrite !HookedFacts.proxied_library. cbn. now rewrite !app_nil_r.
Qed.

Lemma length_concat_repeat {X} (l : list X) n :
  length (concat (repeat l n)) = n * length l.
Proof.
  induction n as [|n IH]; [reflexivity|].
  cbn [repeat concat]. rewrite length_app, IH. reflexivity.
Qed.

(** How much a call adds: at most two json entries per listener run,
    one chart entry per wrapper or proxy, at most one canvas-text
    entry. *)
Lemma apply_call_amounts call :
  length (json (apply call empty_capture))
  <= 2 * match call with
         | XhrLoaded _ x => xhr_sends x
         | _ => 1
         end /\
  charts (apply call empty_capture)
  = match call with
    | CallSetOption _ wraps _ opts _ => repeat (echarts_entry opts) wraps
    | CallNewChart _ proxies _ cfg _ => repeat (chartjs_entry cfg) proxies
    | _ => []
    end /\
  length (canvasText (apply call empty_capture)) <= 1.
Proof.
  subst apply.
  destruct call as [s reviver|res|x|ctx call|ctx call|this k v
                   |wraps inst opts rest|proxies item cfg rest];
    cbn [apply_call].
  - unfold JSON_parse. destruct (_parse s reviver) as [out|];
      [destruct (object_shaped out)|]; cbn; repeat split; lia.
  - unfold reaction_of, fetch_json_reaction, fetch_text_reaction, JSON_parse.
    destruct (json_content_type (res_content_type res)).
    + destruct (_parse (res_text res) None); cbn; repeat split; lia.
    + destruct (fetch_text_guess (res_text res));
        [destruct (_parse (res_text res) None) as [g|];
         [destruct (object_shaped g)|]|]; cbn; repeat split; lia.
  - rewrite XhrFacts.xhr_load_appends.
    cbn [json charts canvasText empty_capture app length].
    rewrite length_concat_repeat.
    assert (H : length (json (xhr_listener _parse x empty_capture)) <= 2).
    { unfold xhr_listener.
      destruct (json_content_type (xhr_content_type x));
        destruct (responseText x) as [txt|]; cbn [json empty_capture length];
        try lia.
      - rewrite XhrFacts.decode_and_push. cbn [json empty_capture app].
        destruct (_parse txt None) as [g|];
          [destruct (object_shaped g)|]; cbn; lia.
      - destruct (xhr_text_guess txt); cbn [json empty_capture length];
          try lia.
        rewrite XhrFacts.decode_and_push. cbn [json empty_capture app].
        destruct (_parse txt None) as [g|];
          [destruct (object_shaped g)|]; cbn; lia. }
    repeat split; nia.
  - cbn. repeat split; lia.
  - cbn. repeat split; lia.
  - destruct this; cbn; repeat split; lia.
  - rewrite HookedFacts.wrapped_recorded. cbn [snd].
    destruct (HookedFacts.recorded_channels wraps opts empty_capture)
      as (E1 & E2 & E3 & _).
    rewrite E1, E2, E3. cbn. repeat split; lia.
  - rewrite HookedFacts.proxied_library. cbn. repeat split; lia.
Qed.

Lemma apply_calls_append calls : forall c,
  let c' := apply_calls js_String native_setOption _parse calls c in
  json c'
  = (json c ++ flat_map (fun call => json (apply call empty_capture)) calls)%list /\
  charts c'
  = (charts c ++ flat_map (fun call => charts (apply call empty_capture)) calls)%list /\
  canvasText c'
  = (canvasText c
       ++ flat_map (fun call => canvasText (apply call empty_capture)) calls)%list.
Proof.
  unfold apply_calls.
  induction calls as [|call calls IH]; intros c; cbn zeta;
    cbn [fold_left flat_map].
  - now rewrite !app_nil_r.
  - destruct (IH (apply_call js_String native_setOption _parse call c))
      as (H1 & H2 & H3).
    cbn zeta in H1, H2, H3. rewrite H1, H2, H3.
    destruct (apply_call_appends call c) as (A1 & A2 & A3).
    subst apply. rewrite A1, A2, A3, <- !app_assoc. now repeat split.
Qed.

(** Only [setItem] touches the storage mirrors. *)
Lemma apply_call_storage call c :
  storage_local (apply call c)
  = match call with
    | CallSetItem _ LocalStorage k v =>
        assign k (js_String v) (storage_local c)
    | _ => storage_local c
    end /\
  storage_session (apply call c)
  = match call with
    | CallSetItem _ OtherStorage k v =>
        assign k (js_String v) (storage_session c)
    | _ => storage_session c
    end.
Proof.
  subst apply.
  destruct call as [s reviver|res|x|ctx call|ctx call|this k v
                   |wraps inst opts rest|proxies item cfg rest];
    cbn [apply_call].
  - unfold JSON_parse. destruct (_parse s reviver) as [out|];
      [destruct (object_shaped out)|]; now cbn.
  - unfold reaction_of, fetch_json_reaction, fetch_text_reaction, JSON_parse.
    destruct (json_content_type (res_content_type res)).
    + destruct (_parse (res_text res) None); now cbn.
    + destruct (fetch_text_guess (res_text res));
        [destruct (_parse (res_text res) None) as [g|];
         [destruct (object_shaped g)|]|]; now cbn.
  - rewrite XhrFacts.xhr_load_appends. now cbn.
  - now cbn.
  - now cbn.
  - destruct this; now cbn.
  - rewrite HookedFacts.wrapped_recorded. cbn [snd].
    destruct (HookedFacts.recorded_channels wraps opts c)
      as (_ & _ & _ & H4 & H5).
    now rewrite H4, H5.
  - rewrite HookedFacts.proxied_library. now cbn.
Qed.

Lemma own_proto k v obj :
  own "__proto__" (assign k v obj) = own "__proto__" obj.
Proof.
  unfold assign.
  destruct (String.eqb_spec k "__proto__") as [->|Hn]; [reflexivity|].
  rewrite HookedFacts.own_assign_own.
  destruct (String.eqb_spec k "__proto__"); [contradiction|reflexivity].
Qed.

Lemma mirror_after calls k : forall c,
  k <> "__proto__" ->
  let c' := apply_calls js_String native_setOption _parse calls c in
  own k (storage_local c')
  = last_written js_String true k calls (own k (storage_local c)) /\
  own k (storage_session c')
  = last_written js_String false k calls (own k (storage_session c)).
Proof.
  unfold apply_calls.
  induction calls as [|call calls IH]; intros c Hk; cbn zeta;
    cbn [fold_left last_written]; [now split|].
  destruct (IH (apply_call js_String native_setOption _parse call c) Hk)
    as [H1 H2].
  cbn zeta in H1, H2. rewrite H1, H2.
  destruct (apply_call_storage call c) as [S1 S2]. subst apply.
  rewrite S1, S2.
  destruct call as [s reviver|res|x|ctx call|ctx call|this k' v
                   |wraps inst opts rest|proxies item cfg rest];
    try now split.
  destruct this; cbn [andb negb];
    rewrite (HookedFacts.own_assign _ _ _ Hk);
    destruct (String.eqb k' k); now split.
Qed.

Lemma proto_after calls : forall c,
  let c' := apply_calls js_String native_setOption _parse calls c in
  own "__proto__" (storage_local c') = own "__proto__" (storage_local c) /\
  own "__proto__" (storage_session c') = own "__proto__" (storage_session c).
Proof.
  unfold apply_calls.
  induction calls as [|call calls IH]; intros c; cbn zeta;
    cbn [fold_left]; [now split|].
  destruct (IH (apply_call js_String native_setOption _parse call c))
    as [H1 H2].
  cbn zeta in H1, H2. rewrite H1, H2.
  destruct (apply_call_storage call c) as [S1 S2]. subst apply.
  rewrite S1, S2.
  destruct call as [s reviver|res|x|ctx call|ctx call|this k' v
                   |wraps inst opts rest|proxies item cfg rest];
    try now split.
  destruct this; now rewrite own_proto.
Qed.

End Calls.

End CallFacts.

(** X12: the list channels only grow, each in the order in which the
    hooks run.  After any sequence of runs of the hooks (decodes, fetch
    reactions, load events of legacy requests, text draws, storage
    writes, chart configurations, chart constructions) each of the json,
    charts and canvasText channels is what it was, followed by what every
    run adds, in that order; what a run adds does not depend on what is
    already recorded.  A run adds at most two json entries, or twice the
    number of its listeners for a load event; to the charts channel it
    adds the options once per wrapper of the method, or the configuration
    once per proxy of the constructor, and nothing otherwise; and at most
    one canvas-text entry. *)
Theorem channels_grow_in_call_order
        (js_String : JValue -> string) (Ret : Type)
        (native_setOption : nat -> JValue -> list JValue -> Ret)
        (Reviver : Type) (_parse : string -> option Reviver -> option JValue)
        (calls : list (Hooked.PageCall Reviver)) (c : Page.Capture) :
  let added call :=
    Hooked.apply_call js_String native_setOption _parse call Page.empty_capture in
  let c' := Hooked.apply_calls js_String native_setOption _parse calls c in
  Page.json c'
  = (Page.json c ++ flat_map (fun call => Page.json (added call)) calls)%list /\
  Page.charts c'
  = (Page.charts c ++ flat_map (fun call => Page.charts (added call)) calls)%list /\
  Page.canvasText c'
  = (Page.canvasText c
       ++ flat_map (fun call => Page.canvasText (added call)) calls)%list /\
  (forall call,
      length (Page.json (added call))
      <= 2 * match call with
             | Hooked.XhrLoaded _ x => Page.xhr_sends x
             | _ => 1
             end /\
      Page.charts (added call)
      = match call with
        | Hooked.CallSetOption _ wraps _ opts _ =>
            repeat (Hooked.echarts_entry opts) wraps
        | Hooked.CallNewChart _ proxies _ cfg _ =>
            repeat (Hooked.chartjs_entry cfg) proxies
        | _ => []
        end /\
      length (Page.canvasText (added call)) <= 1).
Proof.
  intros added c'. subst added c'.
  destruct (CallFacts.apply_calls_append js_String native_setOption _parse
              calls c) as (H1 & H2 & H3).
  split; [exact H1|]. split; [exact H2|]. split; [exact H3|].
  intros call. apply CallFacts.apply_call_amounts.
Qed.

(** X13: the storage mirror keeps the last value written under each key.
    After any sequence of calls into the hooks, the mirror of
    [localStorage] holds under a key the string form of the value last
    passed to [setItem] on [localStorage] for that key, or what it held
    before if there was no such call; the same goes for the session
    mirror with writes on any other storage; a write in one scope never
    shows in the other, and nothing else touches the mirrors.  The key
    [__proto__] is never mirrored. *)
Theorem storage_mirror_keeps_last_write
        (js_String : JValue -> string) (Ret : Type)
        (native_setOption : nat -> JValue -> list JValue -> Ret)
        (Reviver : Type) (_parse : string -> option Reviver -> option JValue)
        (calls : list (Hooked.PageCall Reviver)) (c : Page.Capture) :
  let c' := Hooked.apply_calls js_String native_setOption _parse calls c in
  (forall k,
      k <> "__proto__" ->
      Hooked.own k (Page.storage_local c')
      = Hooked.last_written js_String true k calls
                            (Hooked.own k (Page.storage_local c)) /\
      Hooked.own k (Page.storage_session c')
      = Hooked.last_written js_String false k calls
                            (Hooked.own k (Page.storage_session c))) /\
  Hooked.own "__proto__" (Page.storage_local c')
  = Hooked.own "__proto__" (Page.storage_local c) /\
  Hooked.own "__proto__" (Page.storage_session c')
  = Hooked.own "__proto__" (Page.storage_session c).
Proof.
  intros c'. subst c'. split.
  - intros k Hk. now apply CallFacts.mirror_after.
  - apply CallFacts.proto_after.
Qed.

Lemma storage_mirror_keeps_last_write_witness :
  let show := fun v => match v with JStr s => s | _ => "null" end in
  let calls :=
    [Hooked.CallSetItem unit Hooked.LocalStorage "token" (JStr "a");
     Hooked.CallSetItem unit Hooked.OtherStorage "token" (JStr "s");
     Hooked.CallSetItem unit Hooked.LocalStorage "token" (JStr "b")] in
  let c' := Hooked.apply_calls show (fun _ _ _ => tt) Page.ref_parse calls
                               Page.empty_capture in
  Hooked.own "token" (Page.storage_local c') = Some "b" /\
  Hooked.own "token" (Page.storage_session c') = Some "s".
Proof.
  intros show calls c'.
  apply (proj1 (@storage_mirror_keeps_last_write show unit (fun _ _ _ => tt)
                  unit Page.ref_parse calls Page.empty_capture) "token").
  discriminate.
Defined.


Module FetchFacts.
Import Page Hooked.

Lemma without_split {X} (l1 l2 : list X) (x : X) :
  without (length l1) (l1 ++ x :: l2) = (l1 ++ l2)%list.
Proof.
  unfold without.
  rewrite firstn_app, Nat.sub_diag, firstn_all, app_nil_r.
  replace (S (length l1)) with (length l1 + 1) by lia.
  rewrite skipn_app, skipn_all2 by lia.
  replace (length l1 + 1 - length l1) with 1 by lia.
  reflexivity.
Qed.

Lemma without_taken {X} (l : list X) (i : nat) (x : X) :
  nth_error l i = Some x -> Permutation l (x :: without i l).
Proof.
  intros H. destruct (nth_error_split l i H) as (l1 & l2 & -> & <-).
  rewrite without_split. symmetry. apply Permutation_middle.
Qed.

Lemma without_map {X Y} (g : X -> Y) (i : nat) (l : list X) :
  without i (map g l) = map g (without i l).
Proof.
  unfold without. now rewrite map_app, firstn_map, skipn_map.
Qed.

Section Fetch.
Variable Reviver : Type.
Variable _parse : string -> option Reviver -> option JValue.

(** Whenever it runs, the reaction queued for a response appends to
    the json channel what it would add to an empty bucket, and
    touches nothing else. *)
Lemma reaction_appends res c :
  reaction_of _parse res c
  = mkCapture (json c ++ json (reaction_of _parse res empty_capture))
              (charts c) (canvasText c) (storage_local c)
              (storage_session c).
Proof.
  unfold reaction_of.
  destruct (json_content_type (res_content_type res)).
  - unfold fetch_json_reaction.
    destruct (_parse (res_text res) None); cbn;
      [reflexivity|rewrite app_nil_r; now destruct c].
  - unfold fetch_text_reaction.
    destruct (fetch_text_guess (res_text res)).
    + now rewrite !XhrFacts.decode_and_push.
    + cbn. rewrite app_nil_r. now destruct c.
Qed.

(** The runtime follows the responses in flight: the reactions
    pending are those of the responses waiting, and the bucket is the
    first one followed by what the responses read so far add. *)
Definition tracks (c0 : Capture) (st : list Settled * Runtime)
           (f : Flight) : Prop :=
  pending (snd st) = map (reaction_of _parse) (waiting f) /\
  capture (snd st)
  = mkCapture
      (json c0
         ++ flat_map (fun res => json (reaction_of _parse res empty_capture))
                     (arrived f))
      (charts c0) (canvasText c0) (storage_local c0) (storage_session c0).

Lemma tracks_step c0 s st f :
  tracks c0 st f ->
  tracks c0 (fetch_step _parse s st) (flight_step s f) /\
  fst (fetch_step _parse s st) = (fst st ++ natives_of [s])%list.
Proof.
  intros [Hp Hc]. destruct s as [[res|reason]|i|i];
    cbn [fetch_step flight_step natives_of flat_map app].
  - assert (E : fetch _parse (Fulfilled res) (snd st)
                = (Fulfilled res, enqueue (reaction_of _parse res) (snd st))).
    { unfold fetch, reaction_of.
      now destruct (json_content_type (res_content_type res)). }
    rewrite E. cbn [fst snd]. split; [|reflexivity].
    split; cbn [snd enqueue pending capture waiting arrived].
    + now rewrite Hp, map_app.
    + exact Hc.
  - cbn [fetch fst snd]. split; [|reflexivity]. now split.
  - rewrite Hp, nth_error_map.
    destruct (nth_error (waiting f) i) as [res|]; cbn [option_map].
    + split; [|cbn [fst]; now rewrite app_nil_r].
      split; cbn [snd pending capture waiting arrived].
      * apply without_map.
      * rewrite reaction_appends, Hc. cbn [json charts canvasText
                                           storage_local storage_session].
        rewrite flat_map_app. cbn [flat_map].
        now rewrite app_nil_r, <- app_assoc.
    + split; [now split|now rewrite app_nil_r].
  - split; [|cbn [fst]; now rewrite app_nil_r].
    destruct (nth_error (waiting f) i) as [res|] eqn:E;
      split; cbn [snd pending capture waiting arrived]; try exact Hc.
    + rewrite Hp. apply without_map.
    + rewrite Hp. unfold without.
      apply nth_error_None in E.
      rewrite firstn_all2, skipn_all2 by (rewrite length_map; lia).
      now rewrite app_nil_r.
Qed.

Lemma tracks_steps c0 steps : forall st f,
  tracks c0 st f ->
  tracks c0 (fetch_steps _parse steps st) (flight steps f) /\
  fst (fetch_steps _parse steps st) = (fst st ++ natives_of steps)%list.
Proof.
  unfold fetch_steps, flight, natives_of.
  induction steps as [|s steps IH]; intros st f H;
    cbn [fold_left flat_map].
  - split; [exact H|now rewrite app_nil_r].
  - destruct (tracks_step s H) as [H1 H2].
    destruct (IH _ _ H1) as [H3 H4].
    split; [exact H3|]. rewrite H4, H2.
    unfold natives_of. cbn [flat_map]. now rewrite app_nil_r, <- app_assoc.
Qed.

(** Every response is waiting, read or lost, and only one of them. *)
Lemma flight_step_accounts s f base :
  Permutation (arrived f ++ lost f ++ waiting f) base ->
  Permutation (arrived (flight_step s f) ++ lost (flight_step s f)
                 ++ waiting (flight_step s f))
              (base ++ fulfilled_of [s]).
Proof.
  intros H. destruct s as [[res|reason]|i|i];
    cbn [flight_step fulfilled_of flat_map app];
    rewrite ?app_nil_r; try exact H.
  - cbn [arrived lost waiting]. rewrite !app_assoc.
    apply Permutation_app_tail. now rewrite <- !app_assoc.
  - destruct (nth_error (waiting f) i) as [res|] eqn:E; [|exact H].
    cbn [arrived lost waiting]. rewrite <- H.
    rewrite (without_taken _ _ E) at 2.
    rewrite <- app_assoc. apply Permutation_app_head.
    cbn [app]. rewrite <- Permutation_middle. reflexivity.
  - destruct (nth_error (waiting f) i) as [res|] eqn:E; [|exact H].
    cbn [arrived lost waiting]. rewrite <- H.
    rewrite (without_taken _ _ E) at 2.
    apply Permutation_app_head.
    rewrite <- app_assoc. apply Permutation_app_head. reflexivity.
Qed.

Lemma flight_accounts steps : forall f base,
  Permutation (arrived f ++ lost f ++ waiting f) base ->
  Permutation (arrived (flight steps f) ++ lost (flight steps f)
                 ++ waiting (flight steps f))
              (base ++ fulfilled_of steps).
Proof.
  unfold flight, fulfilled_of.
  induction steps as [|s steps IH]; intros f base H;
    cbn [fold_left flat_map].
  - now rewrite app_nil_r.
  - pose proof H as H1. apply (flight_step_accounts s) in H1.
    unfold fulfilled_of in H1. cbn [flat_map] in H1.
    rewrite app_nil_r in H1.
    specialize (IH _ _ H1). now rewrite <- app_assoc in IH.
Qed.

End Fetch.

End FetchFacts.

(** X14: the fetch wrapper hands every result through and records only
    when a body has been read.  Follow any interleaving of native calls
    settling, bodies arriving and body reads failing, from a bucket with
    no reaction pending.  The wrapper's promises have settled to exactly
    what the native calls settled to, rejections included; the wrapper
    itself never touches the bucket, and queues one reaction per
    fulfilled call and none per rejected one; the reactions still pending
    are those of the responses whose body is still being read; the json
    channel is what it was, followed by what each response read so far
    records on its own, in the order in which the bodies arrived, which
    need not be the order of the calls; the other list channels are
    untouched; and every fulfilled response is exactly one of read, lost
    or still waiting. *)
Theorem fetch_results_pass_through
        (Reviver : Type) (_parse : string -> option Reviver -> option JValue)
        (steps : list Hooked.FetchStep) (c : Page.Capture) :
  let after := Hooked.fetch_steps _parse steps ([], Page.mkRuntime c []) in
  let f := Hooked.flight steps (Hooked.mkFlight [] [] []) in
  let adds res := Page.json (Hooked.reaction_of _parse res Page.empty_capture) in
  fst after = Hooked.natives_of steps /\
  (forall native st,
      let st' := Hooked.fetch_step _parse (Hooked.NativeSettled native) st in
      Page.capture (snd st') = Page.capture (snd st) /\
      Page.pending (snd st')
      = (Page.pending (snd st)
           ++ match native with
              | Page.Fulfilled res => [Hooked.reaction_of _parse res]
              | Page.Rejected _ => []
              end)%list) /\
  Page.pending (snd after)
  = map (Hooked.reaction_of _parse) (Hooked.waiting f) /\
  Page.json (Page.capture (snd after))
  = (Page.json c ++ flat_map adds (Hooked.arrived f))%list /\
  Page.charts (Page.capture (snd after)) = Page.charts c /\
  Page.canvasText (Page.capture (snd after)) = Page.canvasText c /\
  Permutation (Hooked.arrived f ++ Hooked.lost f ++ Hooked.waiting f)
              (Hooked.fulfilled_of steps).
Proof.
  intros after f adds. subst after f adds.
  assert (H0 : FetchFacts.tracks _parse c ([], Page.mkRuntime c [])
                                 (Hooked.mkFlight [] [] [])).
  { split; cbn; [reflexivity|]. rewrite app_nil_r. now destruct c. }
  destruct (FetchFacts.tracks_steps steps H0) as [[Hp Hc] Hr].
  split; [exact Hr|]. split.
  { intros native st. cbv zeta. destruct native as [res|reason];
      cbn [Hooked.fetch_step Page.fetch].
    - unfold Hooked.reaction_of.
      destruct (Page.json_content_type (Page.res_content_type res));
        now split.
    - cbn. now rewrite app_nil_r. }
  split; [exact Hp|]. rewrite Hc. cbn [Page.json Page.charts Page.canvasText].
  repeat split.
  apply (FetchFacts.flight_accounts steps (Hooked.mkFlight [] [] [])
           (base := [])).
  reflexivity.
Qed.

Module ResultFacts.
Import Session.

Section Result.
Variable json_loads : string -> option JValue.
Variable env : Env.

Lemma poll_signal_result n : forall i c j st,
  Measure.rounds_without_signal env n i < n ->
  exists c' j',
    result (env_charts env (i + Measure.rounds_without_signal env n i))
    = Ok c' /\
    result (env_json env (i + Measure.rounds_without_signal env n i))
    = Ok j' /\
    nonempty c' || nonempty j' = true /\
    outcome (poll json_loads env n i c j st) = Ok (c', j').
Proof.
  induction n as [|n IH]; intros i c j st; [cbn; lia|].
  cbn [Measure.rounds_without_signal poll]. unfold Measure.signal.
  unfold bind, attempt, pw, act, ret. cbn [outcome final trace].
  destruct (result (env_charts env i)) as [c1|e] eqn:Ec;
    [destruct (result (env_json env i)) as [j1|e] eqn:Ej;
     [destruct (nonempty c1 || nonempty j1) eqn:Ene|]|].
  - intros _. exists c1, j1. rewrite Nat.add_0_r. now repeat split.
  - intros H. apply Nat.succ_lt_mono in H.
    destruct (IH (S i) c1 j1
                 (dispatch json_loads (events (env_json env i))
                    (dispatch json_loads (events (env_charts env i)) st)) H)
      as (c' & j' & H1 & H2 & H3 & H4).
    exists c', j'. rewrite Nat.add_succ_r. cbn [plus] in H1, H2.
    repeat split; try assumption; try now rewrite H4.
  - intros H. apply Nat.succ_lt_mono in H.
    destruct (IH (S i) c1 j
                 (dispatch json_loads (events (env_json env i))
                    (dispatch json_loads (events (env_charts env i)) st)) H)
      as (c' & j' & H1 & H2 & H3 & H4).
    exists c', j'. rewrite Nat.add_succ_r. cbn [plus] in H1, H2.
    repeat split; try assumption; try now rewrite H4.
  - intros H. apply Nat.succ_lt_mono in H.
    destruct (IH (S i) c j
                 (dispatch json_loads (events (env_charts env i)) st) H)
      as (c' & j' & H1 & H2 & H3 & H4).
    exists c', j'. rewrite Nat.add_succ_r. cbn [plus] in H1, H2.
    repeat split; try assumption; try now rewrite H4.
Qed.

Lemma poll_quiet_result n : forall i st,
  (forall r, r < n ->
             exists c' j', result (env_charts env (i + r)) = Ok c' /\
                           result (env_json env (i + r)) = Ok j') ->
  Measure.rounds_without_signal env n i = n ->
  outcome (poll json_loads env n i [] [] st) = Ok ([], []).
Proof.
  induction n as [|n IH]; intros i st Hall; [reflexivity|].
  cbn [Measure.rounds_without_signal poll]. unfold Measure.signal.
  unfold bind, attempt, pw, act, ret. cbn [outcome final trace].
  destruct (Hall 0 (Nat.lt_0_succ n)) as (c1 & j1 & Ec & Ej).
  rewrite Nat.add_0_r in Ec, Ej. rewrite Ec, Ej.
  destruct (nonempty c1 || nonempty j1) eqn:Ene; [discriminate|].
  intros H. injection H as H.
  destruct c1; [|discriminate Ene]. destruct j1; [|discriminate Ene].
  rewrite IH; [reflexivity| |exact H].
  intros r Hr. destruct (Hall (S r)) as (c' & j' & H1 & H2); [lia|].
  exists c', j'. rewrite Nat.add_succ_r in H1, H2. now split.
Qed.

End Result.

End ResultFacts.

(** X15: what the polling loop hands on.  When some round ends the loop,
    the pair returned is the pair read in that round, and one of the two
    lists is non-empty.  When no round ends it and no read raises, the
    loop, started as [main] starts it, returns two empty lists: the
    payload files are then the network log alone. *)
Theorem polling_returns_the_signalling_reads
        (json_loads : string -> option JValue) (env : Session.Env)
        (n i : nat) (st : Session.St) :
  let k := Measure.rounds_without_signal env n i in
  (forall c j,
      k < n ->
      exists c' j',
        Session.result (Session.env_charts env (i + k)) = Session.Ok c' /\
        Session.result (Session.env_json env (i + k)) = Session.Ok j' /\
        Session.nonempty c' || Session.nonempty j' = true /\
        Session.outcome (Session.poll json_loads env n i c j st)
        = Session.Ok (c', j')) /\
  ((forall r, r < n ->
              exists c' j',
                Session.result (Session.env_charts env (i + r)) = Session.Ok c' /\
                Session.result (Session.env_json env (i + r)) = Session.Ok j') ->
   k = n ->
   Session.outcome (Session.poll json_loads env n i [] [] st)
   = Session.Ok ([], [])).
Proof.
  intros k. subst k. split.
  - intros c j H. now apply ResultFacts.poll_signal_result.
  - intros Hall Hk. now apply ResultFacts.poll_quiet_result.
Qed.

Lemma polling_returns_the_signalling_reads_witness :
  let env := Session.with_charts
               (fun i => if i =? 3 then Session.quiet [JObj []]
                         else Session.quiet [])
               Session.calm in
  exists c' j',
    Session.result
      (Session.env_charts env (0 + Measure.rounds_without_signal env 75 0))
    = Session.Ok c' /\
    Session.result
      (Session.env_json env (0 + Measure.rounds_without_signal env 75 0))
    = Session.Ok j' /\
    Session.nonempty c' || Session.nonempty j' = true /\
    Session.outcome (Session.poll RefJson.decode env 75 0 [] [] Session.init)
    = Session.Ok (c', j').
Proof.
  intros env.
  apply (proj1 (polling_returns_the_signalling_reads RefJson.decode env 75 0
                  Session.init) [] []).
  apply Nat.ltb_lt. vm_compute. reflexivity.
Defined.

(** X16: what a complete session leaves on disk.  A session that runs to
    its end has written, in this order and nothing else: one numbered
    payload file per merged entry; one numbered file per chart
    configuration polled, in order; the canvas-text list, if non-empty;
    the two storage snapshots; the page markup if [page.content()]
    answered and its write succeeded; the screenshot if it was taken; the
    trace; the summary. *)
Theorem files_of_a_complete_session
        (json_loads : string -> option JValue) (env : Session.Env) :
  Session.outcome (Session.main json_loads env) = Session.Ok tt ->
  let cap := Session.capture_phase json_loads env Session.init in
  exists c,
    Session.outcome cap = Session.Ok c /\
    let merged_json :=
      (Session.json_payloads (Session.final cap) ++ Session.injected_json c)%list in
    Session.files (Session.final (Session.main json_loads env))
    = (Observe.numbered "xhr-" Session.FPayload 0 merged_json
       ++ Observe.numbered "chart-" Session.FChart 0 (Session.charts c)
       ++ (if Session.nonempty (Session.canvas_text c)
           then [("canvas-text.json", Session.FCanvasText (Session.canvas_text c))]
           else [])
       ++ [("storage-local.json", Session.FStorage (Session.ls c));
           ("storage-session.json", Session.FStorage (Session.ss c))]
       ++ match Session.result (Session.env_content env),
                Session.env_write_text env "page.html" with
          | Session.Ok html, Session.Ok _ => [("page.html", Session.FHtml html)]
          | _, _ => []
          end
       ++ match Session.result (Session.env_screenshot env) with
          | Session.Ok _ => [("screenshot.png", Session.FScreenshot)]
          | Session.Raise _ => []
          end
       ++ [("trace.zip", Session.FTrace);
           ("summary.json",
            Session.FSummary
              (Session.summary_of env
                 (Observe.log_at_summary json_loads env (Session.final cap))
                 merged_json c))])%list.
Proof.
  intros H cap.
  destruct (FileFacts.files_on_success _ _ H) as (c & Hc & Hf).
  exists c. split; [exact Hc|]. cbv zeta. rewrite Hf.
  unfold Observe.session_files, Observe.guarded_files.
  now rewrite <- !app_assoc.
Qed.

Lemma files_of_a_complete_session_witness :
  let cap := Session.capture_phase RefJson.decode Session.calm Session.init in
  exists c,
    Session.outcome cap = Session.Ok c /\
    let merged_json :=
      (Session.json_payloads (Session.final cap) ++ Session.injected_json c)%list in
    Session.files (Session.final (Session.main RefJson.decode Session.calm))
    = (Observe.numbered "xhr-" Session.FPayload 0 merged_json
       ++ Observe.numbered "chart-" Session.FChart 0 (Session.charts c)
       ++ (if Session.nonempty (Session.canvas_text c)
           then [("canvas-text.json", Session.FCanvasText (Session.canvas_text c))]
           else [])
       ++ [("storage-local.json", Session.FStorage (Session.ls c));
           ("storage-session.json", Session.FStorage (Session.ss c))]
       ++ match Session.result (Session.env_content Session.calm),
                Session.env_write_text Session.calm "page.html" with
          | Session.Ok html, Session.Ok _ => [("page.html", Session.FHtml html)]
          | _, _ => []
          end
       ++ match Session.result (Session.env_screenshot Session.calm) with
          | Session.Ok _ => [("screenshot.png", Session.FScreenshot)]
          | Session.Raise _ => []
          end
       ++ [("trace.zip", Session.FTrace);
           ("summary.json",
            Session.FSummary
              (Session.summary_of Session.calm
                 (Observe.log_at_summary RefJson.decode Session.calm (Session.final cap))
                 merged_json c))])%list.
Proof.
  apply (@files_of_a_complete_session RefJson.decode Session.calm).
  vm_compute. reflexivity.
Defined.
(* ================================================================== *)
(** ** The session driver: how [main] ends *)

Module ExitFacts.
Import Session.
Local Open Scope session_scope.

(** A computation that leaves the summary file alone. *)
Definition keeps_summary {A} (m : M A) : Prop :=
  forall st,
    Observe.named "summary.json" (files (final (m st)))
    = Observe.named "summary.json" (files st).

(** A run that, when it raises, has just made the call that failed:
    one made outside any [try], to which the environment answered that
    exception.  Unless that call is one of the two closes, no close has
    been made and no summary has been written since [st]; when it is,
    the summary has been written. *)
Definition abrupt {A} (env : Env) (st : St) (r : Run A) : Prop :=
  forall e,
    outcome r = Raise e ->
    exists before a,
      trace r = (before ++ [a])%list /\
      Measure.failure env a = Some e /\
      (Measure.is_close a = false -> filter Measure.is_close before = []) /\
      length (Observe.named "summary.json" (files (final r)))
      = length (Observe.named "summary.json" (files st))
        + (if Measure.is_close a then 1 else 0).

Lemma keeps_files_summary {A} (m : M A) :
  FileFacts.keeps_files m -> keeps_summary m.
Proof. intros H st. now rewrite H. Qed.

Lemma abrupt_total {A} env st (r : Run A) :
  (exists v, outcome r = Ok v) -> abrupt env st r.
Proof. intros [v Hv] e He. congruence. Qed.

Lemma abrupt_bind {A B} env (m : M A) (k : A -> M B) st :
  abrupt env st (m st) ->
  RunFacts.silent Measure.is_close m ->
  keeps_summary m ->
  (forall a s, abrupt env s (k a s)) ->
  abrupt env st (bind m k st).
Proof.
  intros Hm Hs Hf Hk e. unfold bind.
  destruct (outcome (m st)) as [v|e0] eqn:E; cbn [outcome trace final].
  - intros He. destruct (Hk v (final (m st)) e He)
      as (before & a & Ht & Ha & Hc & Hn).
    exists (trace (m st) ++ before)%list, a.
    split; [now rewrite Ht, app_assoc|]. split; [exact Ha|]. split.
    + intros Hna. rewrite filter_app, Hs. now apply Hc.
    + now rewrite Hn, Hf.
  - intros [= <-]. exact (Hm e0 E).
Qed.

Section Exit.
Variable json_loads : string -> option JValue.
Variable env : Env.

Lemma abrupt_pw0 {A} a (r : Result A) st :
  Measure.failure env a = Measure.raised r ->
  Measure.is_close a = false ->
  abrupt env st (pw0 a r st).
Proof.
  intros Hf Hc e He. cbn in He. subst r.
  exists [], a. cbn [trace final pw0 app]. rewrite Hf, Hc.
  repeat split. lia.
Qed.

Lemma abrupt_pw {A} a (o : Outcome A) st :
  Measure.failure env a = Measure.raised (result o) ->
  Measure.is_close a = false ->
  abrupt env st (pw json_loads a o st).
Proof.
  intros Hf Hc e He. cbn in He.
  exists [], a. cbn [trace final pw app]. rewrite Hf, He, Hc.
  rewrite RunFacts.files_dispatch. repeat split. lia.
Qed.

Lemma abrupt_write_text p content st :
  String.eqb p "page.html" = false ->
  abrupt env st (write_text env p content st).
Proof.
  intros Hp e. unfold write_text, bind, act, add_file, raise.
  cbn [outcome final trace].
  destruct (env_write_text env p) as [[]|e0] eqn:E;
    cbn [outcome final trace]; [discriminate|].
  intros [= <-]. exists [], (AWriteText p).
  cbn [Measure.failure Measure.is_close app]. rewrite Hp, E.
  repeat split. lia.
Qed.

Lemma keeps_summary_bind {A B} (m : M A) (k : A -> M B) :
  keeps_summary m -> (forall a, keeps_summary (k a)) ->
  keeps_summary (bind m k).
Proof.
  intros Hm Hk st. rewrite FileFacts.final_bind.
  destruct (outcome (m st)); [rewrite Hk|]; apply Hm.
Qed.

Lemma keeps_summary_write_text p content :
  String.eqb p "summary.json" = false ->
  keeps_summary (write_text env p content).
Proof.
  intros Hp st. unfold write_text, bind, act, add_file, raise.
  cbn [outcome final trace].
  destruct (env_write_text env p) as [[]|e0];
    cbn [outcome final trace files]; [|reflexivity].
  rewrite FileFacts.named_app. unfold Observe.named at 2.
  cbn [filter fst]. rewrite Hp. apply app_nil_r.
Qed.

Lemma keeps_summary_write_numbered {X} stem (mk : X -> Artifact) l :
  (forall s, String.eqb (stem ++ s) "summary.json" = false) ->
  forall i, keeps_summary (write_numbered env stem mk i l).
Proof.
  intros H. induction l as [|x l IH]; intros i; cbn [write_numbered].
  - intros st. reflexivity.
  - apply keeps_summary_bind; [|intros _; apply IH].
    apply keeps_summary_write_text, H.
Qed.

Lemma abrupt_write_numbered {X} stem (mk : X -> Artifact) l :
  (forall s, String.eqb (stem ++ s) "page.html" = false) ->
  (forall s, String.eqb (stem ++ s) "summary.json" = false) ->
  forall i st, abrupt env st (write_numbered env stem mk i l st).
Proof.
  intros Hp Hs. induction l as [|x l IH]; intros i st;
    cbn [write_numbered].
  - apply abrupt_total. now exists tt.
  - apply abrupt_bind.
    + apply abrupt_write_text, Hp.
    + now apply RunFacts.silent_write_text.
    + apply keeps_summary_write_text, Hs.
    + intros _ s. apply IH.
Qed.

Lemma keeps_summary_markup_and_screenshot :
  keeps_summary (markup_and_screenshot json_loads env).
Proof.
  intros st.
  rewrite (proj2 (FileFacts.markup_and_screenshot_run json_loads env st)).
  rewrite FileFacts.files_add_files, FileFacts.named_app.
  rewrite FileFacts.named_guarded by reflexivity.
  now rewrite app_nil_r, !RunFacts.files_dispatch.
Qed.

Lemma abrupt_setup st : abrupt env st (setup env st).
Proof.
  unfold setup.
  repeat (apply abrupt_bind;
          [now apply abrupt_pw0
          |now apply RunFacts.silent_pw0
          |apply keeps_files_summary, FileFacts.keeps_pw0
          |intros _ ?s]).
  now apply abrupt_pw0.
Qed.

Lemma keeps_setup : FileFacts.keeps_files (setup env).
Proof.
  unfold setup.
  repeat (apply FileFacts.keeps_bind; [apply FileFacts.keeps_pw0|intros _]).
  apply FileFacts.keeps_pw0.
Qed.

Lemma keeps_navigate : FileFacts.keeps_files (navigate json_loads env).
Proof.
  unfold navigate.
  apply FileFacts.keeps_bind; [apply FileFacts.keeps_pw|intros _].
  apply FileFacts.keeps_act.
Qed.

Lemma abrupt_navigate st : abrupt env st (navigate json_loads env st).
Proof.
  unfold navigate. apply abrupt_bind.
  - now apply abrupt_pw.
  - now apply RunFacts.silent_pw.
  - apply keeps_files_summary, FileFacts.keeps_pw.
  - intros _ s. apply abrupt_total. now exists tt.
Qed.

Lemma abrupt_capture_phase st :
  abrupt env st (capture_phase json_loads env st).
Proof.
  unfold capture_phase.
  apply abrupt_bind;
    [apply abrupt_setup
    |now apply RunFacts.silent_setup
    |apply keeps_files_summary, keeps_setup
    |intros _ s1].
  apply abrupt_bind;
    [apply abrupt_navigate
    |now apply RunFacts.silent_navigate
    |apply keeps_files_summary, keeps_navigate
    |intros _ s2].
  apply abrupt_bind;
    [apply abrupt_total; exists tt;
     apply (TimingFacts.pulses_run json_loads env 8 0 s2)
    |now apply RunFacts.silent_pulses
    |apply keeps_files_summary, FileFacts.keeps_pulses
    |intros _ s3].
  apply abrupt_total, PollFacts.collect_returns.
Qed.

Lemma abrupt_finish merged c st :
  abrupt env st (finish json_loads env merged c st).
Proof.
  intros e.
  unfold finish, write_text, bind, pw, add_file, read, act, raise.
  cbn [outcome final trace].
  destruct (result (env_tracing_stop env)) as [[]|e1] eqn:E1;
    cbn [outcome final trace].
  2:{ intros [= <-]. exists [], ATracingStop.
      cbn [Measure.failure Measure.is_close app]. rewrite E1.
      rewrite RunFacts.files_dispatch. repeat split. lia. }
  destruct (env_write_text env "summary.json") as [[]|e2] eqn:E2;
    cbn [outcome final trace files].
  2:{ intros [= <-]. exists [ATracingStop], (AWriteText "summary.json").
      cbn [Measure.failure Measure.is_close app String.eqb Ascii.eqb
             Bool.eqb]. rewrite E2.
      rewrite FileFacts.named_app, RunFacts.files_dispatch.
      cbn. rewrite app_nil_r. repeat split. lia. }
  destruct (result (env_ctx_close env)) as [[]|e3] eqn:E3;
    cbn [outcome final trace files].
  2:{ intros [= <-].
      exists [ATracingStop; AWriteText "summary.json";
              APrintSummary
                (summary_of env
                   (req_log (dispatch json_loads
                               (events (env_tracing_stop env)) st))
                   merged c)],
             ACtxClose.
      cbn [Measure.failure Measure.is_close app]. rewrite E3.
      rewrite ?RunFacts.files_dispatch. cbn [files].
      rewrite ?FileFacts.named_app, ?RunFacts.files_dispatch.
      cbn. rewrite !length_app. cbn. repeat split; try discriminate. lia. }
  destruct (result (env_browser_close env)) as [[]|e4] eqn:E4;
    cbn [outcome final trace files]; [discriminate|].
  intros [= <-].
  exists [ATracingStop; AWriteText "summary.json";
          APrintSummary
            (summary_of env
               (req_log (dispatch json_loads
                           (events (env_tracing_stop env)) st))
               merged c);
          ACtxClose],
         ABrowserClose.
  cbn [Measure.failure Measure.is_close app]. rewrite E4.
  rewrite ?RunFacts.files_dispatch. cbn [files].
  rewrite ?FileFacts.named_app, ?RunFacts.files_dispatch.
  cbn. rewrite !length_app. cbn. repeat split; try discriminate. lia.
Qed.

Lemma abrupt_output_phase c st :
  abrupt env st (output_phase json_loads env c st).
Proof.
  unfold output_phase.
  apply abrupt_bind;
    [apply abrupt_total; eexists; reflexivity
    |apply RunFacts.silent_read
    |intros s; reflexivity
    |intros payloads s0].
  apply abrupt_bind;
    [apply abrupt_write_numbered; intros s; reflexivity
    |now apply RunFacts.silent_write_numbered
    |apply keeps_summary_write_numbered; intros s; reflexivity
    |intros _ s1].
  apply abrupt_bind;
    [apply abrupt_write_numbered; intros s; reflexivity
    |now apply RunFacts.silent_write_numbered
    |apply keeps_summary_write_numbered; intros s; reflexivity
    |intros _ s2].
  apply abrupt_bind.
  { destruct (nonempty (canvas_text c));
      [now apply abrupt_write_text|apply abrupt_total; now exists tt]. }
  { destruct (nonempty (canvas_text c));
      [now apply RunFacts.silent_write_text|apply RunFacts.silent_ret]. }
  { destruct (nonempty (canvas_text c));
      [now apply keeps_summary_write_text|intros s; reflexivity]. }
  intros _ s3.
  apply abrupt_bind;
    [now apply abrupt_write_text
    |now apply RunFacts.silent_write_text
    |now apply keeps_summary_write_text
    |intros _ s4].
  apply abrupt_bind;
    [now apply abrupt_write_text
    |now apply RunFacts.silent_write_text
    |now apply keeps_summary_write_text
    |intros _ s5].
  apply abrupt_bind;
    [apply abrupt_total; exists tt;
     apply (FileFacts.markup_and_screenshot_run json_loads env s5)
    |now apply RunFacts.silent_markup_and_screenshot
    |apply keeps_summary_markup_and_screenshot
    |intros _ s6].
  apply abrupt_finish.
Qed.

(** The exit of the [with] block is the last effect of [main], and
    its only occurrence. *)
Lemma main_exit :
  filter Measure.is_exit (trace (main json_loads env)) = [APlaywrightExit] /\
  exists before,
    trace (main json_loads env) = (before ++ [APlaywrightExit])%list /\
    ~ In APlaywrightExit before.
Proof.
  unfold main, with_playwright. cbn [trace].
  assert (H : filter Measure.is_exit
                (trace (bind (capture_phase json_loads env)
                             (fun c => output_phase json_loads env c) init))
              = []).
  { apply RunFacts.silent_bind.
    - apply RunFacts.silent_capture_phase. intros a Ha. now destruct a.
    - intros c. apply TimingFacts.silent_output_phase.
      intros a Ha. now destruct a. }
  split.
  - now rewrite filter_app, H.
  - eexists. split; [reflexivity|].
    apply (@OrderFacts.silent_not_in Measure.is_exit); [exact H|reflexivity].
Qed.

(** When [main] raises, the call that failed is its last effect
    before the exit of the [with] block. *)
Lemma main_raises e :
  outcome (main json_loads env) = Raise e ->
  exists before a,
    trace (main json_loads env) = (before ++ [a; APlaywrightExit])%list /\
    Measure.failure env a = Some e /\
    (Measure.is_close a = false -> filter Measure.is_close before = []) /\
    length (Observe.named "summary.json"
                          (files (final (main json_loads env))))
    = (if Measure.is_close a then 1 else 0).
Proof.
  unfold main, with_playwright. cbn [outcome trace final]. intros He.
  assert (H : abrupt env init
                (bind (capture_phase json_loads env)
                      (fun c => output_phase json_loads env c) init)).
  { apply abrupt_bind.
    - apply abrupt_capture_phase.
    - apply RunFacts.silent_capture_phase. intros a Ha. now destruct a.
    - apply keeps_files_summary, FileFacts.keeps_capture_phase.
    - intros c s. apply abrupt_output_phase. }
  destruct (H e He) as (before & a & Ht & Ha & Hc & Hn).
  exists before, a. rewrite Ht, <- app_assoc.
  repeat split; assumption.
Qed.



End Exit.

End ExitFacts.

(** C2, as stated, fails: [main] has no handler around its body.  When
    the write of [storage-local.json] fails midway, the error leaves
    [main] with the trace never stopped and neither the context nor the
    browser closed; only the exit of the [with] block runs. *)
Lemma failed_write_skips_teardown :
  let env := Session.with_write_text
               (fun path => if String.eqb path "storage-local.json"
                            then Session.Raise (Session.OSError "disk full")
                            else Session.Ok tt)
               Session.calm in
  let r := Session.main RefJson.decode env in
  Session.outcome r = Session.Raise (Session.OSError "disk full") /\
  filter Observe.is_teardown (Session.trace r) = [] /\
  last (Session.trace r) Session.AGoto = Session.APlaywrightExit.
Proof. vm_compute. repeat split. Qed.

(** C2, amended: on every way out of [main] the exit of the [with] block
    runs exactly once, as the last effect.  A session that completes
    without an exception has, before it, stopped the trace, closed the
    context and closed the browser exactly once each, in that order.  On
    every way out those three calls occur at most once and in that order,
    as far as [main] got.  An exception ends [main] at once: the call
    that raised it, one made outside any [try], is the last effect before
    the exit of the [with] block; unless that call is one of the two
    closes, neither close has been made, and the three calls have all
    been made only when it is [browser.close()] itself that raised.  When
    the exception is raised before the first file is written none of the
    three is made. *)
Theorem teardown_in_program_order
        (json_loads : string -> option JValue) (env : Session.Env) :
  let r := Session.main json_loads env in
  (Session.outcome r = Session.Ok tt ->
   filter Observe.is_teardown (Session.trace r)
   = [Session.ATracingStop; Session.ACtxClose; Session.ABrowserClose]) /\
  (exists rest,
      (filter Observe.is_teardown (Session.trace r) ++ rest)%list
      = [Session.ATracingStop; Session.ACtxClose; Session.ABrowserClose]) /\
  (forall e,
      Session.outcome (Session.capture_phase json_loads env Session.init)
      = Session.Raise e ->
      Session.outcome r = Session.Raise e /\
      filter Observe.is_teardown (Session.trace r) = []) /\
  filter Measure.is_exit (Session.trace r) = [Session.APlaywrightExit] /\
  (exists before,
      Session.trace r = (before ++ [Session.APlaywrightExit])%list /\
      ~ In Session.APlaywrightExit before) /\
  (forall e,
      Session.outcome r = Session.Raise e ->
      exists before a,
        Session.trace r = (before ++ [a; Session.APlaywrightExit])%list /\
        Measure.failure env a = Some e /\
        (Measure.is_close a = false ->
         filter Measure.is_close before = [])) /\
  (forall e,
      Session.outcome r = Session.Raise e ->
      filter Observe.is_teardown (Session.trace r)
      = [Session.ATracingStop; Session.ACtxClose; Session.ABrowserClose] ->
      Measure.failure env Session.ABrowserClose = Some e).
Proof.
  intros r. subst r.
  assert (H : RunFacts.released
                (Session.bind (Session.capture_phase json_loads env)
                              (fun c => Session.output_phase json_loads env c)
                              Session.init)).
  { apply RunFacts.released_bind_silent.
    - apply RunFacts.silent_capture_phase, RunFacts.no_teardown_before_output.
    - intros c s. apply RunFacts.released_output_phase. }
  destruct H as [Hok Hpre].
  destruct (ExitFacts.main_exit json_loads env) as [Hexit Hlast].
  assert (Hfilter :
            filter Observe.is_teardown (Session.trace (Session.main json_loads env))
            = filter Observe.is_teardown
                (Session.trace
                   (Session.bind (Session.capture_phase json_loads env)
                                 (fun c => Session.output_phase json_loads env c)
                                 Session.init))).
  { unfold Session.main, Session.with_playwright. cbn [Session.trace].
    rewrite filter_app. cbn [filter Observe.is_teardown]. apply app_nil_r. }
  split; [rewrite Hfilter; apply Hok|].
  split; [rewrite Hfilter; exact Hpre|].
  split.
  { intros e He. rewrite Hfilter.
    unfold Session.main, Session.with_playwright. cbn [Session.outcome].
    rewrite (RunFacts.bind_raise _ _ _ He).
    cbn [Session.outcome Session.trace].
    split; [reflexivity|].
    apply RunFacts.silent_capture_phase, RunFacts.no_teardown_before_output. }
  split; [exact Hexit|]. split; [exact Hlast|]. split.
  { intros e He.
    destruct (ExitFacts.main_raises json_loads env He)
      as (before & a & Ht & Ha & Hc & _).
    now exists before, a. }
  intros e He Hfull.
  destruct (ExitFacts.main_raises json_loads env He)
    as (before & a & Ht & Ha & Hc & _).
  rewrite Ht, filter_app in Hfull.
  destruct a; cbn [filter Observe.is_teardown app] in Hfull;
    try (specialize (Hc eq_refl);
         assert (Hin : In Session.ACtxClose
                          (filter Observe.is_teardown before))
           by (rewrite ?app_nil_r in Hfull;
               first [rewrite Hfull; cbn; tauto
                     |apply (f_equal (fun l => removelast l)) in Hfull;
                      rewrite removelast_last in Hfull; rewrite Hfull;
                      cbn; tauto]);
         apply filter_In in Hin; destruct Hin as [Hin _];
         assert (Hin' : In Session.ACtxClose (filter Measure.is_close before))
           by (apply filter_In; now split);
         now rewrite Hc in Hin').
  - change [Session.ATracingStop; Session.ACtxClose; Session.ABrowserClose]
      with ([Session.ATracingStop; Session.ACtxClose] ++ [Session.ABrowserClose])%list
      in Hfull.
    apply app_inj_tail in Hfull. destruct Hfull as [_ Hfull]. discriminate.
  - exact Ha.
Qed.

Lemma teardown_in_program_order_witness :
  let env := Session.with_write_text
               (fun path => if String.eqb path "storage-local.json"
                            then Session.Raise (Session.OSError "disk full")
                            else Session.Ok tt)
               Session.calm in
  filter Observe.is_teardown (Session.trace (Session.main RefJson.decode Session.calm))
  = [Session.ATracingStop; Session.ACtxClose; Session.ABrowserClose] /\
  exists before a,
    Session.trace (Session.main RefJson.decode env)
    = (before ++ [a; Session.APlaywrightExit])%list /\
    Measure.failure env a = Some (Session.OSError "disk full") /\
    (Measure.is_close a = false -> filter Measure.is_close before = []).
Proof.
  intros env. split.
  - apply (proj1 (teardown_in_program_order RefJson.decode Session.calm)).
    vm_compute. reflexivity.
  - apply (proj1 (proj2 (proj2 (proj2 (proj2 (proj2
             (teardown_in_program_order RefJson.decode env))))))).
    vm_compute. reflexivity.
Defined.




(** C8, as stated, fails on "always": the summary is the last file [main]
    writes, after the trace has been stopped.  When stopping the trace
    raises, the storage snapshots are on disk and there is no summary. *)
Lemma no_summary_when_trace_stop_fails :
  let env := Session.with_tracing_stop
               (Session.mkOutcome [] (Session.Raise (Session.PlaywrightError "trace")))
               Session.calm in
  let r := Session.main RefJson.decode env in
  Session.outcome r = Session.Raise (Session.PlaywrightError "trace") /\
  length (Observe.named "storage-local.json" (Session.files (Session.final r))) = 1 /\
  Observe.named "summary.json" (Session.files (Session.final r)) = [].
Proof. vm_compute. repeat split. Qed.

(** C8, amended: a session that runs to its end has written, first, one
    numbered file per element of the merged list — the network log as it
    stood at the merge followed by the json channel as last read, in that
    order and with nothing removed — and, last, the summary, whose json
    count is the length of that merged list and whose other counts are the
    lengths of the request log, of the chart list, of the canvas-text list
    and of the two storage snapshots; all of them are zero when nothing was
    seen.  A session that ends with an exception ends at the call that
    raised it, one made outside any [try]: there is no summary unless that
    call is one of the two closes that follow the summary, and there is
    one when it is. *)
Theorem summary_counts_what_was_captured
        (json_loads : string -> option JValue) (env : Session.Env) :
  (Session.outcome (Session.main json_loads env) = Session.Ok tt ->
   let cap := Session.capture_phase json_loads env Session.init in
   exists c others,
     let merged_json :=
       (Session.json_payloads (Session.final cap) ++ Session.injected_json c)%list in
     Session.outcome cap = Session.Ok c /\
     map snd (Observe.numbered "xhr-" Session.FPayload 0 merged_json)
     = map Session.FPayload merged_json /\
     Session.files (Session.final (Session.main json_loads env))
     = (Observe.numbered "xhr-" Session.FPayload 0 merged_json
        ++ others
        ++ [("summary.json",
             Session.FSummary
               (Session.mkSummary
                  (Session.URL env) (Session.env_timestamp env)
                  (Session.env_duration env)
                  (Session.mkCounts
                     (length (Observe.log_at_summary json_loads env
                                                     (Session.final cap)))
                     (length merged_json)
                     (length (Session.charts c))
                     (length (Session.canvas_text c))
                     (length (Session.ls c))
                     (length (Session.ss c)))))])%list) /\
  (forall e,
      Session.outcome (Session.main json_loads env) = Session.Raise e ->
      exists before a,
        Session.trace (Session.main json_loads env)
        = (before ++ [a; Session.APlaywrightExit])%list /\
        Measure.failure env a = Some e /\
        length (Observe.named "summary.json"
                  (Session.files (Session.final (Session.main json_loads env))))
        = (if Measure.is_close a then 1 else 0)).
Proof.
  split.
  - intros H cap.
    destruct (FileFacts.files_on_success _ _ H) as (c & Hc & Hf).
    exists c.
    exists (Observe.numbered "chart-" Session.FChart 0 (Session.charts c)
            ++ (if Session.nonempty (Session.canvas_text c)
                then [("canvas-text.json",
                       Session.FCanvasText (Session.canvas_text c))]
                else [])
            ++ [("storage-local.json", Session.FStorage (Session.ls c));
                ("storage-session.json", Session.FStorage (Session.ss c))]
            ++ Observe.guarded_files env
            ++ [("trace.zip", Session.FTrace)])%list.
    cbv zeta. split; [exact Hc|].
    split; [apply FileFacts.numbered_contents|].
    rewrite Hf. unfold Observe.session_files, Session.summary_of.
    rewrite <- !app_assoc. reflexivity.
  - intros e He.
    destruct (ExitFacts.main_raises json_loads env He)
      as (before & a & Ht & Ha & _ & Hn).
    now exists before, a.
Qed.

Lemma summary_counts_what_was_captured_witness :
  let env :=
    Session.with_goto
      (Session.mkOutcome
         [Session.OnRequest "t1" (Session.mkRequest "GET" "/api/data" "fetch");
          Session.OnResponse
            (Session.mkNetResponse "/api/data" (Some "application/json")
               (Some "[1]"))]
         (Session.Ok tt))
      (Session.with_json
         (fun _ => Session.quiet
                     [mkEntry "fetch" "/api/data" (JArr [JNum 1%Z]);
                      mkEntry "JSON.parse" "inline" (JObj [])])
         Session.calm) in
  let failing :=
    Session.with_write_text
      (fun path => if String.eqb path "xhr-01.json"
                   then Session.Raise (Session.OSError "disk full")
                   else Session.Ok tt)
      env in
  let cap := Session.capture_phase RefJson.decode env Session.init in
  (exists c others,
     let merged_json :=
       (Session.json_payloads (Session.final cap) ++ Session.injected_json c)%list in
     Session.outcome cap = Session.Ok c /\
     map snd (Observe.numbered "xhr-" Session.FPayload 0 merged_json)
     = map Session.FPayload merged_json /\
     Session.files (Session.final (Session.main RefJson.decode env))
     = (Observe.numbered "xhr-" Session.FPayload 0 merged_json
        ++ others
        ++ [("summary.json",
             Session.FSummary
               (Session.mkSummary
                  (Session.URL env) (Session.env_timestamp env)
                  (Session.env_duration env)
                  (Session.mkCounts
                     (length (Observe.log_at_summary RefJson.decode env
                                                     (Session.final cap)))
                     (length merged_json)
                     (length (Session.charts c))
                     (length (Session.canvas_text c))
                     (length (Session.ls c))
                     (length (Session.ss c)))))])%list) /\
  (exists before a,
      Session.trace (Session.main RefJson.decode failing)
      = (before ++ [a; Session.APlaywrightExit])%list /\
      Measure.failure failing a = Some (Session.OSError "disk full") /\
      length (Observe.named "summary.json"
                (Session.files (Session.final (Session.main RefJson.decode failing))))
      = (if Measure.is_close a then 1 else 0)).
Proof.
  intros env failing cap. split.
  - apply (proj1 (@summary_counts_what_was_captured RefJson.decode env)).
    vm_compute. reflexivity.
  - apply (proj2 (@summary_counts_what_was_captured RefJson.decode failing)).
    vm_compute. reflexivity.
Defined.

